(** * TextSnake training driver (train_textsnake.py)

    A shallow embedding of the training script: the module globals, the
    checkpoint helpers [save_model] and [load_model], the loops [train] and
    [validation], and the orchestrator [main].

    Python objects that the script mutates (the model, the optimizer, the
    scheduler, the file system, the console, the summary writer and the two
    module globals) live in explicit records that are threaded through a
    state-and-exception monad.  Python floats are idealised as rationals
    ([Qc]); the tensor runtime, the network, the loss, the datasets and the
    float formatter are collaborators the development is parametric in.

    The exceptions of the script's own operations are modelled: a modulus by
    a zero interval, a read of an unbound local, an attribute that the object
    at hand does not have, a file opened under a directory that does not
    exist, a checkpoint loaded from a path that holds none or into a model
    it does not fit, a shuffling loader over an empty set.  Apart from these
    a collaborator is taken to return. *)

From Stdlib Require Import Ascii String QArith Qcanon Ring Field Sorted.
From stdpp Require Import gmap strings list fin_maps pretty.

Open Scope string_scope.
Open Scope list_scope.
Open Scope Z_scope.

(** ** Exceptions and the state-and-exception monad *)

Inductive Exn : Type :=
| ZeroDivisionError
| UnboundLocalError (var : string)
| FileNotFoundError (path : string)
| IsADirectoryError (path : string)
| AttributeError (attr : string)
| RuntimeError (msg : string)
| ValueError (msg : string)
| KeyError (key : string)
| EOFError
| UnpicklingError.

Inductive Result (A : Type) : Type :=
| Ok (a : A)
| Raise (e : Exn).
Arguments Ok {A} a.
Arguments Raise {A} e.

(** A computation reads a state and yields a result together with the state it
    leaves behind; a raised exception keeps the effects performed so far. *)
Definition M (S A : Type) : Type := S -> Result A * S.

Definition ret {S A} (a : A) : M S A := fun s => (Ok a, s).

Definition bind {S A B} (m : M S A) (f : A -> M S B) : M S B :=
  fun s => match m s with
           | (Ok a, s') => f a s'
           | (Raise e, s') => (Raise e, s')
           end.

Definition raise {S A} (e : Exn) : M S A := fun s => (Raise e, s).
Definition gets {S A} (f : S -> A) : M S A := fun s => (Ok (f s), s).
Definition modify {S} (f : S -> S) : M S unit := fun s => (Ok tt, f s).
Definition when {S} (b : bool) (m : M S unit) : M S unit :=
  if b then m else ret tt.

Declare Scope monad_scope.
Delimit Scope monad_scope with monad.
Notation "x <- m ;; k" := (bind m (fun x => k))
  (at level 100, m at next level, k at level 200, right associativity) : monad_scope.
Notation "m ;; k" := (bind m (fun _ => k))
  (at level 100, k at level 200, right associativity) : monad_scope.
Open Scope monad_scope.

(** Python's [a % b] on integers: floor modulus, [ZeroDivisionError] when
    [b] is zero.  [Z.modulo] takes the sign of the divisor, as Python does. *)
Definition py_mod {S} (a b : Z) : M S Z :=
  if b =? 0 then raise ZeroDivisionError else ret (a `mod` b).

(** ** Data model *)

(** The five loss terms returned by the criterion, as [.item()] values. *)
Record Losses : Type := {
  tr_loss : Qc;
  tcl_loss : Qc;
  sin_loss : Qc;
  cos_loss : Qc;
  radii_loss : Qc
}.

(** [loss = tr_loss + tcl_loss + sin_loss + cos_loss + radii_loss] *)
Definition loss (l : Losses) : Qc :=
  (tr_loss l + tcl_loss l + sin_loss l + cos_loss l + radii_loss l)%Qc.

(** Modelled from the spec: [util.misc.AverageMeter] is not part of the
    sources at hand.  Section 4.1: [update(value)] adds the value to a running
    sum and increments the count; the average is sum/count.  With a count of
    zero the quotient is taken in [Qc], where division by zero yields zero. *)
Record AverageMeter : Type := {
  am_sum : Qc;
  am_count : Z
}.

(** Modelled from the spec: [AverageMeter()], a fresh accumulator with an
    empty sum and a count of zero. *)
Definition AverageMeter_new : AverageMeter := {| am_sum := 0%Qc; am_count := 0 |}.

(** Modelled from the spec: [update(value)] of [util.misc.AverageMeter] adds
    the value to the running sum and increments the count. *)
Definition update (m : AverageMeter) (value : Qc) : AverageMeter :=
  {| am_sum := (am_sum m + value)%Qc; am_count := am_count m + 1 |}.

(** Modelled from the spec: the average of [util.misc.AverageMeter] is
    sum/count. *)
Definition avg (m : AverageMeter) : Qc :=
  (am_sum m / Q2Qc (inject_Z (am_count m)))%Qc.

(** The optimizer: its learning rate (one parameter group) and the rest of
    its state; [optimizer.state_dict()] is a snapshot of both. *)
Record Optimizer (OptState : Type) : Type := {
  opt_lr : Qc;
  opt_state : OptState
}.
Arguments opt_lr {OptState} _.
Arguments opt_state {OptState} _.

(** Modelled from the spec: the two schedules, [util.shedule.FixLR] and
    [torch.optim.lr_scheduler.StepLR], are not part of the sources at hand.
    Section 4.5: a no-op/fixed schedule, or a step decay that multiplies the
    rate by [gamma] every [step_size] epochs.  A scheduler counts its own
    steps in [last_epoch], starting from zero when it is constructed. *)
Inductive Policy : Type :=
| FixLR
| StepLR (step_size : Z) (gamma : Qc).

Record Scheduler : Type := {
  policy : Policy;
  base_lr : Qc;
  last_epoch : Z;
  cur_lr : Qc
}.

(** Modelled from the spec: a scheduler built on an optimizer starts from
    the optimizer's rate, the configured initial learning rate. *)
Definition Scheduler_new (p : Policy) (initial_lr : Qc) : Scheduler :=
  {| policy := p; base_lr := initial_lr; last_epoch := 0; cur_lr := initial_lr |}.

(** Modelled from the spec: [step()] of [FixLR] and [StepLR], which are not
    part of the sources at hand.  One more epoch on the scheduler's own
    counter; the fixed policy keeps the rate, step decay multiplies it by
    [gamma] each time the counter reaches a multiple of [step_size]
    ("multiply by 0.1 every 100 epochs"). *)
Definition scheduler_step (s : Scheduler) : Scheduler :=
  let e := last_epoch s + 1 in
  {| policy := policy s;
     base_lr := base_lr s;
     last_epoch := e;
     cur_lr := match policy s with
               | FixLR => cur_lr s
               | StepLR step_size gamma =>
                   if e `mod` step_size =? 0 then (cur_lr s * gamma)%Qc else cur_lr s
               end |}.

(** Modelled from the spec: [get_lr()] of [FixLR] and [StepLR], the
    scheduler's last computed rate, one entry per parameter group. *)
Definition get_lr (s : Scheduler) : list Qc := [cur_lr s].

(** The label in a checkpoint file name: an iteration index or a string. *)
Inductive IterLabel : Type :=
| IterIdx (i : Z)
| IterStr (s : string).

Definition label_str (l : IterLabel) : string :=
  match l with
  | IterIdx i => pretty i
  | IterStr s => s
  end.

(** Lines printed on the console. *)
Inductive Line : Type :=
| LSaving (path : string)
| LLoading (path : string)
| LEpoch (epoch : Z) (lr : option Qc)
| LProgress (i : Z) (len : nat) (total : Qc) (l : Losses)
| LTrainingLoss (a : Qc)
| LValidation (total : Qc) (l : Losses)
| LValidationLoss (a : Qc)
| LStart
| LEnd.

(** One [logger.write_scalars] call. *)
Record Scalars : Type := {
  sc_tag : string;
  sc_n_iter : Z;
  sc_loss : Qc;
  sc_terms : Losses
}.

(** Ghost record of calls, used to state which function ran and when. *)
Inductive Call : Type :=
| New (cls : string)
| CallSaveModel (epoch : Z) (label : IterLabel)
| CallLoadModel (path : string)
| CallTrain (epoch : Z)
| CallValidation (epoch : Z).

(** The configuration object [cfg]; read-only once the run has started. *)
Record Config : Type := {
  dataset : string;
  save_dir : string;
  exp_name : string;
  net : string;
  mgpu : bool;
  viz : bool;
  viz_freq : Z;
  display_freq : Z;
  viz_save_iter : Z;
  log_freq : Z;
  save_freq : Z;
  resume : option string;
  cfg_lr : Qc;
  start_epoch : Z;
  max_epoch : Z
}.

(** ** Collaborators

    The tensor runtime and the modules imported by the script.  Device
    placement ([to_device], [model.to]) does not change values and is left
    out. *)
Class Torch : Type := {
  Batch : Type;
  Params : Type;
  OptState : Type;
  Output : Type;
  (** [model(img)] in train or eval mode *)
  forward : bool -> Params -> Batch -> Output;
  (** [TextLoss()(output, tr_mask, tcl_mask, sin_map, cos_map, radius_map, train_mask)] *)
  criterion : Output -> Batch -> Losses;
  (** [optimizer.zero_grad(); loss.backward(); optimizer.step()] at a given rate *)
  backward_step : Qc -> Params -> OptState -> Batch -> Params * OptState;
  (** the parameters of a fresh [TextNet(backbone=...)] *)
  TextNet_init : string -> Params;
  (** the state of a fresh [Adam] *)
  Adam_init : OptState;
  (** [TotalText(is_training=...)] and [SynthText(...)]: the number of samples,
      and the batches a loader over the set yields on its k-th traversal *)
  TotalText_len : bool -> nat;
  TotalText_batches : bool -> nat -> list Batch;
  SynthText_len : nat;
  SynthText_batches : nat -> list Batch;
  (** ['{:.4f}'.format(x)] *)
  fmt_4f : Qc -> string;
  (** strict [load_state_dict]: a state dict with plain keys, given by its
      tensors, has exactly the keys and shapes of the network whose tensors
      are the first argument *)
  loadable : Params -> Params -> bool;
  (** what lines 46-47 end in on a regular file that holds no checkpoint
      record, by the content of the file: the exception of [torch.load] when
      the file does not deserialise ([EOFError] on an empty file,
      [UnpicklingError] on a text log), that of [state_dict['model']]
      otherwise *)
  load_failure : string -> Exn
}.

Record Dataset `{Torch} : Type := {
  ds_len : nat;
  ds_batches : nat -> list Batch
}.

Definition TotalText `{Torch} (is_training : bool) : Dataset :=
  {| ds_len := TotalText_len is_training; ds_batches := TotalText_batches is_training |}.

Definition SynthText `{Torch} : Dataset :=
  {| ds_len := SynthText_len; ds_batches := SynthText_batches |}.

(** Truth value of [valset]: [None] is false, a dataset is false when empty. *)
Definition truthy `{Torch} (v : option Dataset) : bool :=
  match v with
  | Some d => negb (Nat.eqb (ds_len d) 0)
  | None => false
  end.

(** The object the variable [model] is bound to: the network ([TextNet]) or,
    when [data_parallel] holds, an [nn.DataParallel] wrapper around it.  The
    wrapper runs, trains and switches mode as the network does, but it has
    no attribute [backbone_name], and the keys of its state carry the prefix
    'module.'. *)
Record Model `{Torch} : Type := {
  backbone_name : string;
  params : Params;
  training : bool;
  data_parallel : bool
}.

(** [model.backbone_name] (line 33).  The attribute belongs to the network;
    an [nn.DataParallel] wrapper does not forward it. *)
Definition get_backbone_name `{Torch} {S} (m : Model) : M S string :=
  if data_parallel m then raise (AttributeError "backbone_name")
  else ret (backbone_name m).

(** [model.module] (line 38): the network inside a wrapper.  A bare network
    has no such attribute. *)
Definition get_module `{Torch} {S} (m : Model) : M S Model :=
  if data_parallel m then
    ret {| backbone_name := backbone_name m; params := params m;
           training := training m; data_parallel := false |}
  else raise (AttributeError "module").

(** [m.state_dict()] of a bare network: its tensors under their own keys.
    (The state dict of a wrapper carries the prefix 'module.' on every key;
    the script never takes it, since line 38 comes after line 33, which a
    wrapper does not pass.) *)
Definition state_dict `{Torch} (m : Model) : Params := params m.

(** The model after a [model.load_state_dict(sd)] that went through. *)
Definition load_state_dict `{Torch} (m : Model) (sd : Params) : Model :=
  {| backbone_name := backbone_name m; params := sd;
     training := training m; data_parallel := data_parallel m |}.

(** [model.load_state_dict(sd)] (line 47) is strict: it raises
    [RuntimeError] unless the keys and shapes of [sd] are those of the
    model.  The keys of a wrapper all start with 'module.', those of a saved
    record do not, so no record fits a wrapper.  (A load that raises may have
    copied the tensors that did fit; the live model is not used after it.) *)
Definition strict_load_state_dict `{Torch} {S} (m : Model) (sd : Params) : M S Model :=
  if data_parallel m then raise (RuntimeError "load_state_dict")
  else if loadable (params m) sd then ret (load_state_dict m sd)
  else raise (RuntimeError "load_state_dict").

(** [model.train()], [model.eval()] *)
Definition set_training `{Torch} (b : bool) (m : Model) : Model :=
  {| backbone_name := backbone_name m; params := params m;
     training := b; data_parallel := data_parallel m |}.

(** The record [save_model] hands to [torch.save]; the model state in it
    has plain keys. *)
Record Checkpoint `{Torch} : Type := {
  ck_lr : list Qc;
  ck_epoch : Z;
  ck_model : Params;
  ck_optimizer : Optimizer OptState
}.

(** ** The mutable world *)

(** Module globals ([train_step], [lr]), the part of the file system the
    script touches, the console, the summary writer and the figure sink.
    The file system has directories ([dirs]), regular files that hold a
    record as [save_model] writes it ([ckpts]) and other regular files, by
    content ([files]).  A path that the script reads on the user's word
    ([cfg.resume]) may be of any of the three sorts or of none; the names it
    composes for its own logs and checkpoints are taken to be free for a
    regular file once the experiment directory exists. *)
Record World `{Torch} : Type := {
  train_step : Z;
  lr : option Qc;
  dirs : gset string;
  files : gmap string string;
  ckpts : gmap string Checkpoint;
  console : list Line;
  summary : list Scalars;
  figures : list (string * Output);
  calls : list Call
}.

(** The live objects [train] and [validation] work on, next to the world. *)
Record State `{Torch} : Type := {
  st_model : Model;
  st_optimizer : Optimizer OptState;
  st_scheduler : Scheduler;
  st_world : World
}.

Section Program.
Context `{Torch}.
Variable cfg : Config.

Definition set_train_step (f : Z -> Z) (w : World) : World :=
  {| train_step := f (train_step w); lr := lr w; dirs := dirs w; files := files w;
     ckpts := ckpts w; console := console w; summary := summary w;
     figures := figures w; calls := calls w |}.

Definition set_lr (v : option Qc) (w : World) : World :=
  {| train_step := train_step w; lr := v; dirs := dirs w; files := files w;
     ckpts := ckpts w; console := console w; summary := summary w;
     figures := figures w; calls := calls w |}.

Definition set_dirs (f : gset string -> gset string) (w : World) : World :=
  {| train_step := train_step w; lr := lr w; dirs := f (dirs w); files := files w;
     ckpts := ckpts w; console := console w; summary := summary w;
     figures := figures w; calls := calls w |}.

Definition set_files (f : gmap string string -> gmap string string) (w : World) : World :=
  {| train_step := train_step w; lr := lr w; dirs := dirs w; files := f (files w);
     ckpts := ckpts w; console := console w; summary := summary w;
     figures := figures w; calls := calls w |}.

Definition set_ckpts (f : gmap string Checkpoint -> gmap string Checkpoint) (w : World) : World :=
  {| train_step := train_step w; lr := lr w; dirs := dirs w; files := files w;
     ckpts := f (ckpts w); console := console w; summary := summary w;
     figures := figures w; calls := calls w |}.

Definition set_console (f : list Line -> list Line) (w : World) : World :=
  {| train_step := train_step w; lr := lr w; dirs := dirs w; files := files w;
     ckpts := ckpts w; console := f (console w); summary := summary w;
     figures := figures w; calls := calls w |}.

Definition set_summary (f : list Scalars -> list Scalars) (w : World) : World :=
  {| train_step := train_step w; lr := lr w; dirs := dirs w; files := files w;
     ckpts := ckpts w; console := console w; summary := f (summary w);
     figures := figures w; calls := calls w |}.

Definition set_figures (f : list (string * Output) -> list (string * Output)) (w : World) : World :=
  {| train_step := train_step w; lr := lr w; dirs := dirs w; files := files w;
     ckpts := ckpts w; console := console w; summary := summary w;
     figures := f (figures w); calls := calls w |}.

Definition set_calls (f : list Call -> list Call) (w : World) : World :=
  {| train_step := train_step w; lr := lr w; dirs := dirs w; files := files w;
     ckpts := ckpts w; console := console w; summary := summary w;
     figures := figures w; calls := f (calls w) |}.

Definition set_model (f : Model -> Model) (st : State) : State :=
  {| st_model := f (st_model st); st_optimizer := st_optimizer st;
     st_scheduler := st_scheduler st; st_world := st_world st |}.

Definition set_optimizer (f : Optimizer OptState -> Optimizer OptState) (st : State) : State :=
  {| st_model := st_model st; st_optimizer := f (st_optimizer st);
     st_scheduler := st_scheduler st; st_world := st_world st |}.

Definition set_scheduler (f : Scheduler -> Scheduler) (st : State) : State :=
  {| st_model := st_model st; st_optimizer := st_optimizer st;
     st_scheduler := f (st_scheduler st); st_world := st_world st |}.

Definition set_world (w : World) (st : State) : State :=
  {| st_model := st_model st; st_optimizer := st_optimizer st;
     st_scheduler := st_scheduler st; st_world := w |}.

(** Run a computation on the world inside a computation on the full state. *)
Definition liftW {A} (m : M World A) : M State A :=
  fun st => let (r, w) := m (st_world st) in (r, set_world w st).

(** *** Primitive effects *)

Definition print (l : Line) : M World unit :=
  modify (set_console (fun c => c ++ [l])).

Definition call (c : Call) : M World unit :=
  modify (set_calls (fun cs => cs ++ [c])).

(** [os.path.join] on two components (POSIX). *)
Definition path_join (a b : string) : string :=
  if String.prefix "/" b then b
  else if String.eqb a "" then b
  else if String.eqb (String.substring (String.length a - 1) 1 a) "/" then a +:+ b
  else a +:+ "/" +:+ b.

(** [os.path.exists] as the script calls it, on the experiment directory. *)
Definition path_exists (p : string) : M World bool :=
  gets (fun w => bool_decide (p ∈ dirs w)).

Definition mkdirs (p : string) : M World unit :=
  modify (set_dirs (fun d => {[p]} ∪ d)).

(** The text of a file, empty when the file does not exist. *)
Definition content (w : World) (path : string) : string :=
  default "" (files w !! path).

(** [with open("{0}/<name>".format(dir), "a+") as f: f.write(text)]: the file
    is created when missing and extended otherwise; the directory must exist. *)
Definition append_to (dir name text : string) : M World unit :=
  let path := dir +:+ "/" +:+ name in
  ex <- path_exists dir ;;
  if ex then modify (fun w => set_files (insert path (content w path +:+ text)) w)
  else raise (FileNotFoundError path).

Definition torch_save (ck : Checkpoint) (path : string) : M World unit :=
  modify (set_ckpts (insert path ck)).

(** [torch.load(path)], together with the subscript [state_dict['model']]
    of line 47: a directory cannot be opened for reading, a file that holds
    no checkpoint record fails as [load_failure] says, and a path that names
    nothing is not found. *)
Definition torch_load (path : string) : M World Checkpoint :=
  w <- gets id ;;
  if bool_decide (path ∈ dirs w) then raise (IsADirectoryError path)
  else match ckpts w !! path with
       | Some ck => ret ck
       | None =>
           match files w !! path with
           | Some text => raise (load_failure text)
           | None => raise (FileNotFoundError path)
           end
       end.

Definition write_scalars (l : Losses) (total : Qc) (tag : string) (n_iter : Z) : M World unit :=
  modify (set_summary (fun s => s ++ [{| sc_tag := tag; sc_n_iter := n_iter;
                                         sc_loss := total; sc_terms := l |}])).

Definition visualize_network_output (output : Output) (mode : string) : M World unit :=
  modify (set_figures (fun f => f ++ [(mode, output)])).

(** *** save_model (lines 27-41) *)
Definition save_model (model : Model) (epoch : Z) (lr : list Qc)
    (optimzer : Optimizer OptState) (_iter : IterLabel) : M World unit :=
  call (CallSaveModel epoch _iter) ;;
  let save_dir := path_join (save_dir cfg) (exp_name cfg) in
  ex <- path_exists save_dir ;;
  when (negb ex) (mkdirs save_dir) ;;
  (* line 33 *)
  name <- get_backbone_name model ;;
  let save_path :=
    path_join save_dir
      ("textsnake_" +:+ name +:+ "_" +:+ pretty epoch +:+ "_"
       +:+ label_str _iter +:+ ".pth") in
  print (LSaving save_path) ;;
  (* line 38 *)
  sd <- (if negb (mgpu cfg) then ret (state_dict model)
         else (inner <- get_module model ;; ret (state_dict inner))) ;;
  let state :=
    {| ck_lr := lr; ck_epoch := epoch; ck_model := sd; ck_optimizer := optimzer |} in
  torch_save state save_path.

(** *** load_model (lines 44-47)

    The Python function mutates the model it is given and returns nothing;
    here the mutated model is the returned value. *)
Definition load_model (model : Model) (model_path : string) : M World Model :=
  call (CallLoadModel model_path) ;;
  print (LLoading model_path) ;;
  state <- torch_load model_path ;;
  strict_load_state_dict model (ck_model state).

(** *** The per-term text logs *)

Definition newline : string := String "010"%char EmptyString.

(** ['{}_{:d}_{:.4f}\n'.format(epoch, i, value)] *)
Definition train_record (epoch i : Z) (value : Qc) : string :=
  pretty epoch +:+ "_" +:+ pretty i +:+ "_" +:+ fmt_4f value +:+ newline.

(** ['{}_validation_{:.4f}\n'.format(epoch, value)] *)
Definition validation_record (epoch : Z) (value : Qc) : string :=
  pretty epoch +:+ "_validation_" +:+ fmt_4f value +:+ newline.

(** The six appends of lines 93-104 and 163-174, in source order. *)
Definition append_results (dir : string) (record : Qc -> string) (l : Losses) : M World unit :=
  append_to dir "tr_loss_result.txt" (record (tr_loss l)) ;;
  append_to dir "tcl_loss_result.txt" (record (tcl_loss l)) ;;
  append_to dir "sin_result.txt" (record (sin_loss l)) ;;
  append_to dir "cos_result.txt" (record (cos_loss l)) ;;
  append_to dir "radii_result.txt" (record (radii_loss l)) ;;
  append_to dir "loss_result.txt" (record (loss l)).

(** [cfg.viz and i % cfg.viz_freq == 0]: the modulus is evaluated only when
    [cfg.viz] holds. *)
Definition viz_due {S} (i : Z) : M S bool :=
  if viz cfg then (r <- py_mod i (viz_freq cfg) ;; ret (r =? 0)) else ret false.

(** *** train (lines 50-122) *)

(** [optimizer.zero_grad(); loss.backward(); optimizer.step()] (lines 77-79):
    the parameters and the optimizer state are updated in place at the
    optimizer's current rate, which stays as it is. *)
Definition optimizer_step (batch : Batch) : M State unit :=
  modify (fun st =>
    let '(p, o) := backward_step (opt_lr (st_optimizer st)) (params (st_model st))
                     (opt_state (st_optimizer st)) batch in
    set_optimizer (fun opt => {| opt_lr := opt_lr opt; opt_state := o |})
      (set_model (fun m => load_state_dict m p) st)).

(** One pass through the body of the [for] loop, lines 64-116. *)
Definition train_iter (save_dir : string) (epoch : Z) (len : nat)
    (losses : AverageMeter) (i : Z) (batch : Batch) : M State AverageMeter :=
  liftW (modify (set_train_step (fun n => n + 1))) ;;
  model <- gets st_model ;;
  let output := forward (training model) (params model) batch in
  let l := criterion output batch in
  optimizer_step batch ;;
  let losses := update losses (loss l) in
  v <- viz_due i ;;
  when v (liftW (visualize_network_output output "train")) ;;
  r <- py_mod i (display_freq cfg) ;;
  when (r =? 0)
    (liftW (print (LProgress i len (loss l) l) ;;
            append_results save_dir (train_record epoch i) l)) ;;
  r <- py_mod i (viz_save_iter cfg) ;;
  when (r =? 0)
    (model <- gets st_model ;;
     scheduler <- gets st_scheduler ;;
     optimizer <- gets st_optimizer ;;
     liftW (save_model model epoch (get_lr scheduler) optimizer (IterIdx i))) ;;
  r <- py_mod i (log_freq cfg) ;;
  when (r =? 0)
    (n <- gets (fun st => train_step (st_world st)) ;;
     liftW (write_scalars l (loss l) "train" n)) ;;
  ret losses.

(** [for i, batch in enumerate(train_loader)] *)
Fixpoint train_loop (save_dir : string) (epoch : Z) (len : nat)
    (losses : AverageMeter) (i : Z) (batches : list Batch) : M State AverageMeter :=
  match batches with
  | [] => ret losses
  | batch :: rest =>
      losses' <- train_iter save_dir epoch len losses i batch ;;
      train_loop save_dir epoch len losses' (i + 1) rest
  end.

(** [scheduler.step()]: the scheduler advances and writes its rate into the
    optimizer it was built on. *)
Definition step_scheduler : M State unit :=
  modify (set_scheduler scheduler_step) ;;
  s <- gets st_scheduler ;;
  modify (set_optimizer (fun o => {| opt_lr := cur_lr s; opt_state := opt_state o |})).

Definition train (train_loader : list Batch) (epoch : Z) : M State unit :=
  liftW (call (CallTrain epoch)) ;;
  let save_dir := path_join (save_dir cfg) (exp_name cfg) in
  modify (set_model (set_training true)) ;;
  g <- gets (fun st => lr (st_world st)) ;;
  liftW (print (LEpoch epoch g)) ;;
  losses <- train_loop save_dir epoch (length train_loader) AverageMeter_new 0 train_loader ;;
  r <- py_mod epoch (save_freq cfg) ;;
  when (r =? 0)
    (model <- gets st_model ;;
     scheduler <- gets st_scheduler ;;
     optimizer <- gets st_optimizer ;;
     liftW (save_model model epoch (get_lr scheduler) optimizer (IterStr "end"))) ;;
  liftW (print (LTrainingLoss (avg losses))) ;;
  step_scheduler.

(** *** validation (lines 124-187) *)

Record ValMeters : Type := {
  losses : AverageMeter;
  tr_losses : AverageMeter;
  tcl_losses : AverageMeter;
  sin_losses : AverageMeter;
  cos_losses : AverageMeter;
  radii_losses : AverageMeter
}.

Definition ValMeters_new : ValMeters :=
  {| losses := AverageMeter_new; tr_losses := AverageMeter_new;
     tcl_losses := AverageMeter_new; sin_losses := AverageMeter_new;
     cos_losses := AverageMeter_new; radii_losses := AverageMeter_new |}.

Definition update_all (ms : ValMeters) (l : Losses) : ValMeters :=
  {| losses := update (losses ms) (loss l);
     tr_losses := update (tr_losses ms) (tr_loss l);
     tcl_losses := update (tcl_losses ms) (tcl_loss l);
     sin_losses := update (sin_losses ms) (sin_loss l);
     cos_losses := update (cos_losses ms) (cos_loss l);
     radii_losses := update (radii_losses ms) (radii_loss l) |}.

Definition averages (ms : ValMeters) : Losses :=
  {| tr_loss := avg (tr_losses ms); tcl_loss := avg (tcl_losses ms);
     sin_loss := avg (sin_losses ms); cos_loss := avg (cos_losses ms);
     radii_loss := avg (radii_losses ms) |}.

(** One pass through the body of the [for] loop, lines 137-174. *)
Definition validation_iter (save_dir : string) (epoch : Z)
    (ms : ValMeters) (i : Z) (batch : Batch) : M State ValMeters :=
  model <- gets st_model ;;
  let output := forward (training model) (params model) batch in
  let l := criterion output batch in
  let ms := update_all ms l in
  v <- viz_due i ;;
  when v (liftW (visualize_network_output output "val")) ;;
  r <- py_mod i (display_freq cfg) ;;
  when (r =? 0)
    (liftW (print (LValidation (loss l) l) ;;
            append_results save_dir (validation_record epoch) l)) ;;
  ret ms.

Fixpoint validation_loop (save_dir : string) (epoch : Z)
    (ms : ValMeters) (i : Z) (batches : list Batch) : M State ValMeters :=
  match batches with
  | [] => ret ms
  | batch :: rest =>
      ms' <- validation_iter save_dir epoch ms i batch ;;
      validation_loop save_dir epoch ms' (i + 1) rest
  end.

Definition validation (valid_loader : list Batch) (epoch : Z) : M State unit :=
  liftW (call (CallValidation epoch)) ;;
  let save_dir := path_join (save_dir cfg) (exp_name cfg) in
  modify (set_model (set_training false)) ;;
  ms <- validation_loop save_dir epoch ValMeters_new 0 valid_loader ;;
  liftW (write_scalars (averages ms) (avg (losses ms)) "val" epoch) ;;
  liftW (print (LValidationLoss (avg (losses ms)))).

(** *** main (lines 190-256) *)

(** What [main] leaves behind: the world alone when it stops before the
    model, the optimizer and the scheduler all exist, the full state
    otherwise. *)
Inductive Final : Type :=
| Aborted (w : World)
| Ran (st : State).

Definition final_world (f : Final) : World :=
  match f with
  | Aborted w => w
  | Ran st => st_world st
  end.

(** [for epoch in range(cfg.start_epoch, cfg.max_epoch)] (lines 251-254);
    [k] counts the traversals of the loaders made so far. *)
Fixpoint main_epochs (trainset : Dataset) (valset : option Dataset)
    (k : nat) (epochs : list Z) : M State unit :=
  match epochs with
  | [] => ret tt
  | epoch :: rest =>
      train (ds_batches trainset k) epoch ;;
      match valset with
      | Some v => when (truthy valset) (validation (ds_batches v k) epoch)
      | None => ret tt
      end ;;
      main_epochs trainset valset (S k) rest
  end.

(** Lines 194-248 of [main]: everything up to the creation of the scheduler.
    The result holds the local variables the epoch loop goes on to use. *)
Definition main_setup :
    M World (Model * Optimizer OptState * Scheduler * Dataset * option Dataset) :=
  (* lines 194-218: the last branch binds neither trainset nor valset *)
  sets <- (if String.eqb (dataset cfg) "total-text" then
             call (New "TotalText") ;;
             call (New "TotalText") ;;
             ret (Some (TotalText true), Some (Some (TotalText false)))
           else if String.eqb (dataset cfg) "synth-text" then
             call (New "SynthText") ;;
             ret (Some SynthText, Some None)
           else ret (None, None)) ;;
  (* line 220: with [shuffle=True] the loader builds a random sampler, which
     refuses an empty set *)
  trainset <- match fst sets with
              | Some d => ret d
              | None => raise (UnboundLocalError "trainset")
              end ;;
  call (New "DataLoader") ;;
  when (Nat.eqb (ds_len trainset) 0) (raise (ValueError "num_samples")) ;;
  (* lines 221-224 *)
  valset <- match snd sets with
            | Some v => ret v
            | None => raise (UnboundLocalError "valset")
            end ;;
  when (truthy valset) (call (New "DataLoader")) ;;
  let valset := if truthy valset then valset else None in
  (* lines 226-227: a fresh summary writer *)
  call (New "LogSummary") ;;
  modify (set_summary (fun _ => [])) ;;
  (* lines 230-234 *)
  call (New "TextNet") ;;
  when (mgpu cfg) (call (New "DataParallel")) ;;
  let model := {| backbone_name := net cfg; params := TextNet_init (net cfg);
                  training := true; data_parallel := mgpu cfg |} in
  (* lines 238-239 *)
  model <- match resume cfg with
           | Some path => if String.eqb path "" then ret model else load_model model path
           | None => ret model
           end ;;
  (* lines 241-243 *)
  call (New "TextLoss") ;;
  modify (set_lr (Some (cfg_lr cfg))) ;;
  call (New "Adam") ;;
  let optimizer := {| opt_lr := cfg_lr cfg; opt_state := Adam_init |} in
  (* lines 245-248 *)
  scheduler <- (if String.eqb (dataset cfg) "synth-text" then
                  call (New "FixLR") ;;
                  ret (Scheduler_new FixLR (cfg_lr cfg))
                else
                  call (New "StepLR") ;;
                  ret (Scheduler_new (StepLR 100 (Q2Qc (1 # 10))) (cfg_lr cfg))) ;;
  ret (model, optimizer, scheduler, trainset, valset).

(** Lines 250-256 of [main]: the epoch loop between the two banner lines. *)
Definition main_run (trainset : Dataset) (valset : option Dataset) : M State unit :=
  liftW (print LStart) ;;
  main_epochs trainset valset 0
    (seqZ (start_epoch cfg) (max_epoch cfg - start_epoch cfg)) ;;
  liftW (print LEnd).

Definition main (w0 : World) : Result unit * Final :=
  match main_setup w0 with
  | (Raise e, w) => (Raise e, Aborted w)
  | (Ok (model, optimizer, scheduler, trainset, valset), w) =>
      let (r, st) := main_run trainset valset
                       {| st_model := model; st_optimizer := optimizer;
                          st_scheduler := scheduler; st_world := w |} in
      (r, Ran st)
  end.

End Program.

(** ** A concrete instance of the collaborators

    Small enough to run the script on explicit inputs: tensors are integers,
    a forward pass adds the batch to the parameter, every loss term is the
    output, and one optimizer step decrements the parameter. *)

Definition Qc_of_Z (z : Z) : Qc := Q2Qc (inject_Z z).

(** ['{:.4f}'.format(x)] on a rational: round to four decimals, ties to even,
    sign first, at least one digit before the point. *)
Definition fmt_4f_Qc (x : Qc) : string :=
  let n := Z.abs (Qnum (this x)) * 10000 in
  let d := Zpos (Qden (this x)) in
  let f := n `div` d in
  let r := n `mod` d in
  let f := if (d <? 2 * r) || ((d =? 2 * r) && Z.odd f) then f + 1 else f in
  let frac := pretty (f `mod` 10000) in
  (if Qnum (this x) <? 0 then "-" else "")
  +:+ pretty (f `div` 10000) +:+ "."
  +:+ String.concat "" (replicate (4 - String.length frac)%nat "0") +:+ frac.

#[export] Instance toy : Torch := {|
  Batch := Z;
  Params := Z;
  OptState := Z;
  Output := Z;
  forward := fun _ p b => p + b;
  criterion := fun out _ =>
    {| tr_loss := Qc_of_Z out; tcl_loss := Qc_of_Z out; sin_loss := Qc_of_Z out;
       cos_loss := Qc_of_Z out; radii_loss := Qc_of_Z out |};
  backward_step := fun _ p o _ => (p - 1, o + 1);
  TextNet_init := fun _ => 0;
  Adam_init := 0;
  TotalText_len := fun is_training => if is_training then 4%nat else 2%nat;
  TotalText_batches := fun is_training _ => if is_training then [1; 2; 3; 4] else [5; 6];
  SynthText_len := 3%nat;
  SynthText_batches := fun _ => [7; 8; 9];
  fmt_4f := fmt_4f_Qc;
  loadable := fun _ _ => true;
  load_failure := fun text => if String.eqb text "" then EOFError else UnpicklingError
|}.

Definition toy_cfg : Config := {|
  dataset := "total-text";
  save_dir := "save";
  exp_name := "exp";
  net := "vgg";
  mgpu := false;
  viz := false;
  viz_freq := 50;
  display_freq := 2;
  viz_save_iter := 3;
  log_freq := 1;
  save_freq := 5;
  resume := None;
  cfg_lr := Q2Qc (1 # 1000);
  start_epoch := 0;
  max_epoch := 2
|}.

(** The world when the module has been imported and the experiment directory
    exists: [train_step = 0], [lr = None]. *)
Definition toy_world : World := {|
  train_step := 0;
  lr := None;
  dirs := {["save/exp"]};
  files := ∅;
  ckpts := ∅;
  console := [];
  summary := [];
  figures := [];
  calls := []
|}.

(** ** A small program logic for [M] *)

(** [spec m Q]: whenever [m] runs from [s] and ends in [s'] with result [r],
    the three are related by [Q]. *)
Definition spec {S A} (m : M S A) (Q : S -> Result A -> S -> Prop) : Prop :=
  forall s r s', m s = (r, s') -> Q s r s'.

(** [respects R m]: every run of [m], completed or aborted, moves the state
    along [R]. *)
Definition respects {S A} (R : relation S) (m : M S A) : Prop :=
  spec m (fun s _ s' => R s s').

(** [same f]: the observation [f] of the state is left as it was. *)
Definition same {S X} (f : S -> X) : relation S := fun s s' => f s' = f s.

(** A relation on worlds, read on states. *)
Definition onW `{Torch} (R : relation World) : relation State :=
  fun st st' => R (st_world st) (st_world st').


(** ** Observations of the state *)

(** What training learns and schedules: the parameters, the optimizer and the
    scheduler. *)
Definition learnt `{Torch} (st : State) : Params * Optimizer OptState * Scheduler :=
  (params (st_model st), st_optimizer st, st_scheduler st).

(** The calls to [validation] recorded so far. *)
Definition is_validation_call (c : Call) : bool :=
  match c with
  | CallValidation _ => true
  | _ => false
  end.

Definition validation_calls `{Torch} (w : World) : list Call :=
  List.filter is_validation_call (calls w).

(** The world when the module has just been imported (lines 24-25), over a
    given file system. *)
Definition initial_world `{Torch} (d : gset string) (f : gmap string string)
    (c : gmap string Checkpoint) : World :=
  {| train_step := 0; lr := None; dirs := d; files := f; ckpts := c;
     console := []; summary := []; figures := []; calls := [] |}.

(** The accumulator after a sequence of [update] calls, and the arithmetic
    mean it is compared with. *)
Definition updates (vs : list Qc) : AverageMeter :=
  fold_left update vs AverageMeter_new.

Definition total (vs : list Qc) : Qc := foldr Qcplus 0%Qc vs.

Definition mean (vs : list Qc) : Qc :=
  (total vs / Qc_of_Z (Z.of_nat (length vs)))%Qc.

(** The epochs for which [save_model] was called with the label "end". *)
Definition end_save (c : Call) : option Z :=
  match c with
  | CallSaveModel epoch (IterStr s) => if String.eqb s "end" then Some epoch else None
  | _ => None
  end.

Definition end_saves `{Torch} (w : World) : list Z := omap end_save (calls w).

(** The iteration indices of the progress lines on the console. *)
Definition progress_iter (l : Line) : option Z :=
  match l with
  | LProgress i _ _ _ => Some i
  | _ => None
  end.

Definition progress_iters `{Torch} (w : World) : list Z := omap progress_iter (console w).

(** The indices [j] among [i, i+1, ..., i+n-1] with [j % d == 0]. *)
Fixpoint due (d i : Z) (n : nat) : list Z :=
  match n with
  | O => []
  | S n' => (if i `mod` d =? 0 then [i] else []) ++ due d (i + 1) n'
  end.

(** *** The per-term text logs *)

Definition log_names : list string :=
  ["tr_loss_result.txt"; "tcl_loss_result.txt"; "sin_result.txt";
   "cos_result.txt"; "radii_result.txt"; "loss_result.txt"].

(** Records written one after the other. *)
Definition cat (recs : list string) : string := foldr String.append "" recs.

(** [appended P dir w w']: going from [w] to [w'] no file is removed, every
    file holds what it held followed by a sequence of records that satisfy
    [P], and only the six log files under [dir] receive any record. *)
Definition appended `{Torch} (P : string -> Prop) (dir : string) (w w' : World) : Prop :=
  forall path,
    (is_Some (files w !! path) -> is_Some (files w' !! path))
    /\ exists recs,
         content w' path = content w path +:+ cat recs
         /\ Forall P recs
         /\ (recs <> [] -> exists name, In name log_names /\ path = dir +:+ "/" +:+ name).



(** *** The global step counter *)

(** The steps ([n_iter]) of the [write_scalars] calls tagged 'train', oldest
    first. *)
Definition train_scalar (sc : Scalars) : option Z :=
  if String.eqb (sc_tag sc) "train" then Some (sc_n_iter sc) else None.

Definition train_steps `{Torch} (w : World) : list Z := omap train_scalar (summary w).

(** The logged steps increase strictly and are bounded, in the sense of
    [bound], by the current value of [train_step]. *)
Definition logged `{Torch} (bound : Z -> Z -> Prop) (w : World) : Prop :=
  StronglySorted Z.lt (train_steps w)
  /\ Forall (fun n => bound n (train_step w)) (train_steps w).

(** [leads P Q]: from a state with [P] to a state with [Q]. *)
Definition leads {S} (P Q : S -> Prop) : relation S := fun s s' => P s -> Q s'.

(** *** The learning-rate schedule *)

(** The rate a scheduler built on [initial_lr] has computed after [n] steps:
    [initial_lr] itself under the fixed policy, and
    [initial_lr * gamma^floor(n / step_size)] under step decay. *)
Definition rate (p : Policy) (initial_lr : Qc) (n : Z) : Qc :=
  match p with
  | FixLR => initial_lr
  | StepLR step_size gamma => (initial_lr * gamma ^ Z.to_nat (n `div` step_size))%Qc
  end.

(** [initial_lr * 0.1^floor(n/100)], the rate the specification quotes. *)
Definition decayed (initial_lr : Qc) (n : Z) : Qc :=
  (initial_lr * Q2Qc (1 # 10) ^ Z.to_nat (n `div` 100))%Qc.

(** The scheduler has made [n] steps from [initial_lr] and the optimizer
    carries the rate it computed. *)
Definition on_schedule `{Torch} (p : Policy) (initial_lr : Qc) (n : Z) (st : State) : Prop :=
  st_scheduler st = {| policy := p; base_lr := initial_lr; last_epoch := n;
                       cur_lr := rate p initial_lr n |}
  /\ opt_lr (st_optimizer st) = rate p initial_lr n.

(** The parameters, the optimizer state, the optimizer's rate and the mode
    of the model. *)
Definition training_state `{Torch} (st : State) : Params * OptState * Qc * bool :=
  (params (st_model st), opt_state (st_optimizer st), opt_lr (st_optimizer st),
   training (st_model st)).

(** The scheduler and the rate of the optimizer. *)
Definition schedule `{Torch} (st : State) : Scheduler * Qc :=
  (st_scheduler st, opt_lr (st_optimizer st)).

(** The number of steps the scheduler has made at the end of [main], and the
    rate of the optimizer then, when the run got as far as creating them. *)
Definition final_steps `{Torch} (f : Final) : option Z :=
  match f with
  | Aborted _ => None
  | Ran st => Some (last_epoch (st_scheduler st))
  end.

Definition final_lr `{Torch} (f : Final) : option Qc :=
  match f with
  | Aborted _ => None
  | Ran st => Some (opt_lr (st_optimizer st))
  end.

(** *** What an epoch computes and logs *)

(** The parameters and the optimizer state after the optimizer steps of
    lines 77-79 over the batches of a loader, every step taken at the rate
    [g]. *)
Definition steps_at `{Torch} (g : Qc) (batches : list Batch)
    (po : Params * OptState) : Params * OptState :=
  fold_left (fun po batch => backward_step g (fst po) (snd po) batch) batches po.

(** The loss terms of the iterations of such an epoch, in order: each batch
    is evaluated in training mode at the parameters that the steps before it
    have left (lines 71-74). *)
Fixpoint train_losses `{Torch} (g : Qc) (po : Params * OptState)
    (batches : list Batch) : list Losses :=
  match batches with
  | [] => []
  | batch :: rest =>
      criterion (forward true (fst po) batch) batch
      :: train_losses g (backward_step g (fst po) (snd po) batch) rest
  end.

(** The loss terms of each batch of a loader, computed in eval mode at the
    parameters [p] (lines 140-143). *)
Definition batch_losses `{Torch} (p : Params) (batches : list Batch) : list Losses :=
  map (fun batch => criterion (forward false p batch) batch) batches.

(** The elements of [xs] whose index [j], counted from [i], has
    [j % d == 0], each with its index. *)
Fixpoint displayed {A} (d i : Z) (xs : list A) : list (Z * A) :=
  match xs with
  | [] => []
  | x :: rest => (if i `mod` d =? 0 then [(i, x)] else []) ++ displayed d (i + 1) rest
  end.

(** The six log files, each with the term it records (lines 93-104 and
    163-174). *)
Definition log_terms : list (string * (Losses -> Qc)) :=
  [("tr_loss_result.txt", tr_loss); ("tcl_loss_result.txt", tcl_loss);
   ("sin_result.txt", sin_loss); ("cos_result.txt", cos_loss);
   ("radii_result.txt", radii_loss); ("loss_result.txt", loss)].

(** *** What a run computes *)

(** The training set that [main] selects (lines 194-215). *)
Definition trainset_of `{Torch} (cfg : Config) : Dataset :=
  if String.eqb (dataset cfg) "total-text" then TotalText true else SynthText.

(** The parameters of the model when the epoch loop starts: those of a fresh
    network, or those of the checkpoint [cfg.resume] names (lines 230-239). *)
Definition start_params `{Torch} (cfg : Config) (w0 : World) : Params :=
  match resume cfg with
  | Some path =>
      if String.eqb path "" then TextNet_init (net cfg)
      else match ckpts w0 !! path with
           | Some ck => ck_model ck
           | None => TextNet_init (net cfg)
           end
  | None => TextNet_init (net cfg)
  end.

(** [n] epochs of optimizer steps from the [k]-th traversal of the loader
    on, the [j]-th traversal at the rate [g j]. *)
Fixpoint epochs_at `{Torch} (g : Z -> Qc) (trainset : Dataset) (k n : nat)
    (po : Params * OptState) : Params * OptState :=
  match n with
  | O => po
  | S n' =>
      epochs_at g trainset (S k) n'
        (steps_at (g (Z.of_nat k)) (ds_batches trainset k) po)
  end.

(** The parameters and the optimizer state at the end of [main]. *)
Definition final_learnt `{Torch} (f : Final) : option (Params * OptState) :=
  match f with
  | Aborted _ => None
  | Ran st => Some (params (st_model st), opt_state (st_optimizer st))
  end.

(** ** Concrete configurations and states for the instance [toy] *)

Definition with_dataset (name : string) (c : Config) : Config :=
  {| dataset := name; save_dir := save_dir c; exp_name := exp_name c; net := net c;
     mgpu := mgpu c; viz := viz c; viz_freq := viz_freq c;
     display_freq := display_freq c; viz_save_iter := viz_save_iter c;
     log_freq := log_freq c; save_freq := save_freq c; resume := resume c;
     cfg_lr := cfg_lr c; start_epoch := start_epoch c; max_epoch := max_epoch c |}.

Definition with_epochs (first last : Z) (c : Config) : Config :=
  {| dataset := dataset c; save_dir := save_dir c; exp_name := exp_name c; net := net c;
     mgpu := mgpu c; viz := viz c; viz_freq := viz_freq c;
     display_freq := display_freq c; viz_save_iter := viz_save_iter c;
     log_freq := log_freq c; save_freq := save_freq c; resume := resume c;
     cfg_lr := cfg_lr c; start_epoch := first; max_epoch := last |}.

(** A live model, optimizer and scheduler as [main] builds them. *)
Definition toy_model : Model :=
  {| backbone_name := "vgg"; params := 0; training := true; data_parallel := false |}.

Definition toy_state : State :=
  {| st_model := toy_model;
     st_optimizer := {| opt_lr := Q2Qc (1 # 1000); opt_state := 0 |};
     st_scheduler := Scheduler_new (StepLR 100 (Q2Qc (1 # 10))) (Q2Qc (1 # 1000));
     st_world := toy_world |}.

(** A world that holds one checkpoint, saved after epoch 3 by a model whose
    parameter was 7. *)
Definition toy_checkpoint : Checkpoint :=
  {| ck_lr := [Q2Qc (1 # 1000)]; ck_epoch := 3; ck_model := 7;
     ck_optimizer := {| opt_lr := Q2Qc (1 # 1000); opt_state := 12 |} |}.

Definition toy_saved_world : World :=
  set_ckpts (insert "save/exp/textsnake_vgg_3_end.pth" toy_checkpoint) toy_world.


(** ** Further observations of the script *)

(** [succeeds P m]: from a state with [P], [m] returns a value and leaves a
    state with [P]. *)
Definition succeeds {S A} (P : S -> Prop) (m : M S A) : Prop :=
  spec m (fun s r s' => P s -> (exists a, r = Ok a) /\ P s').

(** The directory of the experiment, [os.path.join(cfg.save_dir, cfg.exp_name)]
    (lines 29, 53, 125). *)
Definition experiment_dir (cfg : Config) : string :=
  path_join (save_dir cfg) (exp_name cfg).

(** None of the intervals [train] takes a modulus by is zero; [viz_freq]
    counts only when [cfg.viz] is on. *)
Definition intervals_ok (cfg : Config) : Prop :=
  display_freq cfg <> 0
  /\ viz_save_iter cfg <> 0
  /\ log_freq cfg <> 0
  /\ save_freq cfg <> 0
  /\ (viz cfg = true -> viz_freq cfg <> 0).

(** The averages of six accumulators that were fed the combined loss and the
    five terms of every element of [ls]. *)
Definition averaged (ls : list Losses) : Qc * Losses :=
  (avg (updates (map loss ls)),
   {| tr_loss := avg (updates (map tr_loss ls));
      tcl_loss := avg (updates (map tcl_loss ls));
      sin_loss := avg (updates (map sin_loss ls));
      cos_loss := avg (updates (map cos_loss ls));
      radii_loss := avg (updates (map radii_loss ls)) |}).

(** The iteration indices [j] of an epoch of [n] batches with [j % d == 0]. *)
Definition due_indices (d : Z) (n : nat) : list Z :=
  List.filter (fun j => j `mod` d =? 0) (seqZ 0 (Z.of_nat n)).

(** The epoch and label of the calls to [save_model], oldest first. *)
Definition save_call (c : Call) : option (Z * IterLabel) :=
  match c with
  | CallSaveModel epoch label => Some (epoch, label)
  | _ => None
  end.

Definition save_calls `{Torch} (w : World) : list (Z * IterLabel) :=
  omap save_call (calls w).

(** The dataset name is one of the two that [main] knows (lines 194, 210). *)
Definition dataset_known (cfg : Config) : Prop :=
  dataset cfg = "total-text" \/ dataset cfg = "synth-text".

(** The training split of the configured dataset is not empty. *)
Definition trainset_nonempty `{Torch} (cfg : Config) : Prop :=
  ds_len (trainset_of cfg) <> 0%nat.

(** [cfg.resume] is unset or empty, or names a checkpoint that [w] holds and
    that fits a fresh network of the configured backbone, with [cfg.mgpu]
    off. *)
Definition resume_ok `{Torch} (cfg : Config) (w : World) : Prop :=
  match resume cfg with
  | Some path =>
      path = ""
      \/ (mgpu cfg = false
          /\ (path ∉ dirs w)
          /\ exists ck,
               ckpts w !! path = Some ck
               /\ loadable (TextNet_init (net cfg)) (ck_model ck) = true)
  | None => True
  end.

(** The experiment directory exists and the model is a bare network. *)
Definition ready `{Torch} (cfg : Config) (st : State) : Prop :=
  experiment_dir cfg ∈ dirs (st_world st) /\ data_parallel (st_model st) = false.

(** The calls to [train] and [validation], oldest first. *)
Definition is_epoch_call (c : Call) : bool :=
  match c with
  | CallTrain _ | CallValidation _ => true
  | _ => false
  end.

Definition epoch_calls `{Torch} (w : World) : list Call :=
  List.filter is_epoch_call (calls w).

(** The guard of line 253 as [main] evaluates it: the dataset has a
    validation split, and the split is not empty. *)
Definition validates `{Torch} (cfg : Config) : bool :=
  String.eqb (dataset cfg) "total-text" && negb (Nat.eqb (TotalText_len false) 0).

(** The epoch and the rate shown by the 'Epoch: ... : LR = ...' lines of the
    console (line 61), oldest first. *)
Definition epoch_line (l : Line) : option (Z * option Qc) :=
  match l with
  | LEpoch epoch g => Some (epoch, g)
  | _ => None
  end.

Definition epoch_lines `{Torch} (w : World) : list (Z * option Qc) :=
  omap epoch_line (console w).

(** ** Further concrete inputs for the instance [toy] *)

(** The file system of [toy_world] without the experiment directory. *)
Definition toy_bare_world : World := set_dirs (fun _ => ∅) toy_world.

Definition toy_bare_state : State := set_world toy_bare_world toy_state.


Definition with_mgpu (b : bool) (c : Config) : Config :=
  {| dataset := dataset c; save_dir := save_dir c; exp_name := exp_name c; net := net c;
     mgpu := b; viz := viz c; viz_freq := viz_freq c;
     display_freq := display_freq c; viz_save_iter := viz_save_iter c;
     log_freq := log_freq c; save_freq := save_freq c; resume := resume c;
     cfg_lr := cfg_lr c; start_epoch := start_epoch c; max_epoch := max_epoch c |}.
(** * Proofs *)

Section Logic.
Context {S : Type}.

Lemma spec_bind {A B} (m : M S A) (f : A -> M S B)
    (Q1 : S -> Result A -> S -> Prop) (Q2 : A -> S -> Result B -> S -> Prop)
    (Q : S -> Result B -> S -> Prop) :
  spec m Q1 ->
  (forall a, spec (f a) (Q2 a)) ->
  (forall s e s1, Q1 s (Raise e) s1 -> Q s (Raise e) s1) ->
  (forall s a s1 r s2, Q1 s (Ok a) s1 -> Q2 a s1 r s2 -> Q s r s2) ->
  spec (bind m f) Q.
Proof.
  intros Hm Hf Hraise Hok s r s' Hrun. unfold bind in Hrun.
  destruct (m s) as [[a | e] s1] eqn:E.
  - eapply Hok; [eapply Hm, E | eapply Hf, Hrun].
  - injection Hrun as <- <-. eapply Hraise, Hm, E.
Qed.

#[export] Instance same_preorder {X} (f : S -> X) : PreOrder (same f).
Proof.
  split; [intros s; reflexivity |].
  intros s1 s2 s3 H12 H23. unfold same in *. congruence.
Qed.

#[export] Instance leads_preorder (P : S -> Prop) : PreOrder (leads P P).
Proof. split; [intros s; by unfold leads | intros s1 s2 s3; unfold leads; auto]. Qed.

(** A prefix that keeps [P] in front of a computation leading from [P] to
    [Q]; an abort inside the prefix is covered when [P] gives [Q]. *)
Lemma spec_leads_bind {A B} (P Q : S -> Prop) (m : M S A) (f : A -> M S B) :
  respects (leads P P) m ->
  (forall a, respects (leads P Q) (f a)) ->
  (forall s, P s -> Q s) ->
  respects (leads P Q) (bind m f).
Proof.
  intros Hm Hf HPQ.
  eapply spec_bind; [exact Hm | exact Hf | |]; unfold leads; cbn beta; auto.
Qed.

(** A computation leading from [P] to [Q] followed by one that keeps [Q]. *)
Lemma spec_leads_then {A B} (P Q : S -> Prop) (m : M S A) (f : A -> M S B) :
  respects (leads P Q) m ->
  (forall a, respects (leads Q Q) (f a)) ->
  respects (leads P Q) (bind m f).
Proof.
  intros Hm Hf.
  eapply spec_bind; [exact Hm | exact Hf | |]; unfold leads; cbn beta; auto.
Qed.

Section Respects.
Context (R : relation S) `{!PreOrder R}.

Lemma respects_ret {A} (a : A) : respects R (ret a).
Proof. intros s r s' [= <- <-]. reflexivity. Qed.

Lemma respects_raise {A} (e : Exn) : respects R (@raise S A e).
Proof. intros s r s' [= <- <-]. reflexivity. Qed.

Lemma respects_gets {A} (f : S -> A) : respects R (gets f).
Proof. intros s r s' [= <- <-]. reflexivity. Qed.

Lemma respects_modify (f : S -> S) :
  (forall s, R s (f s)) -> respects R (modify f).
Proof. intros Hf s r s' [= <- <-]. apply Hf. Qed.

Lemma respects_bind {A B} (m : M S A) (f : A -> M S B) :
  respects R m -> (forall a, respects R (f a)) -> respects R (bind m f).
Proof.
  intros Hm Hf. eapply spec_bind; [exact Hm | exact Hf | auto |].
  intros s a s1 r s2 H1 H2. by transitivity s1.
Qed.

Lemma respects_when (b : bool) (m : M S unit) :
  respects R m -> respects R (when b m).
Proof. destruct b; [auto | intros _; apply respects_ret]. Qed.

Lemma respects_py_mod (a b : Z) : respects R (py_mod a b).
Proof.
  unfold py_mod. destruct (b =? 0); [apply respects_raise | apply respects_ret].
Qed.

End Respects.

End Logic.

(** ** Strings *)

Lemma append_nil_r (s : string) : s +:+ "" = s.
Proof.
  induction s as [| c s IH]; [done |].
  change (String c (s +:+ "") = String c s). by rewrite IH.
Qed.

Lemma append_assoc (s1 s2 s3 : string) : (s1 +:+ s2) +:+ s3 = s1 +:+ (s2 +:+ s3).
Proof.
  induction s1 as [| c s1 IH]; [done |].
  change (String c ((s1 +:+ s2) +:+ s3) = String c (s1 +:+ (s2 +:+ s3))).
  by rewrite IH.
Qed.

Lemma cat_app (xs ys : list string) : cat (xs ++ ys) = cat xs +:+ cat ys.
Proof.
  induction xs as [| x xs IH]; [done |].
  change (x +:+ cat (xs ++ ys) = (x +:+ cat xs) +:+ cat ys).
  by rewrite IH, append_assoc.
Qed.

(** ** The metric accumulator *)

Lemma fold_update vs :
  forall m,
    am_sum (fold_left update vs m) = (am_sum m + total vs)%Qc
    /\ am_count (fold_left update vs m) = am_count m + Z.of_nat (length vs).
Proof.
  unfold total.
  induction vs as [| v vs IH]; intros m; cbn [fold_left fold_right length].
  - split; [ring | lia].
  - destruct (IH (update m v)) as [-> ->]. cbn [update am_sum am_count].
    split; [ring | lia].
Qed.

(** C5: after a non-empty sequence of [update] calls the average is the
    arithmetic mean of the values passed, and after exactly one call it is
    that value. *)
Theorem average_is_arithmetic_mean (v : Qc) (vs : list Qc) :
  avg (updates (v :: vs)) = mean (v :: vs)
  /\ avg (update AverageMeter_new v) = v.
Proof.
  split.
  - unfold avg, updates, mean, Qc_of_Z.
    destruct (fold_update (v :: vs) AverageMeter_new) as [-> ->].
    cbn [AverageMeter_new am_sum am_count]. rewrite Z.add_0_l.
    f_equal. ring.
  - unfold avg. cbn [update AverageMeter_new am_sum am_count].
    replace (Q2Qc (inject_Z (0 + 1))) with 1%Qc by (apply Qc_is_canon; reflexivity).
    field. exact Q_apart_0_1.
Qed.

(** ** The learning-rate schedule *)

Lemma div_succ (n step : Z) :
  0 <= n -> 0 < step ->
  (n + 1) `div` step = if (n + 1) `mod` step =? 0 then n `div` step + 1 else n `div` step.
Proof.
  intros Hn Hstep. destruct (_ =? 0) eqn:E.
  - apply Z.eqb_eq in E. Z.div_mod_to_equations. nia.
  - apply Z.eqb_neq in E. Z.div_mod_to_equations. nia.
Qed.

Lemma rate_0 (p : Policy) (initial_lr : Qc) : rate p initial_lr 0 = initial_lr.
Proof.
  destruct p as [| step_size gamma]; [done |]. cbn [rate].
  rewrite Zdiv_0_l. change (Z.to_nat 0) with 0%nat. cbn [Qcpower]. ring.
Qed.

(** One [scheduler.step()] takes the closed form at [n] to the closed form at
    [n + 1]. *)
Lemma scheduler_step_rate (p : Policy) (initial_lr : Qc) (n : Z) :
  0 <= n ->
  match p with StepLR step_size _ => 0 < step_size | FixLR => True end ->
  scheduler_step {| policy := p; base_lr := initial_lr; last_epoch := n;
                    cur_lr := rate p initial_lr n |}
  = {| policy := p; base_lr := initial_lr; last_epoch := n + 1;
       cur_lr := rate p initial_lr (n + 1) |}.
Proof.
  intros Hn Hp. unfold scheduler_step. cbn [policy base_lr last_epoch cur_lr].
  f_equal. destruct p as [| step_size gamma]; [done |]. cbn [rate].
  rewrite (div_succ n step_size Hn Hp).
  destruct (_ =? 0); [| done].
  rewrite Z2Nat.inj_add by (try apply Z.div_pos; lia).
  rewrite Nat.add_comm. change (Z.to_nat 1) with 1%nat.
  cbn [Nat.add Qcpower]. ring.
Qed.

(** ** Reasoning about the script *)

Section Script.
Context `{Torch}.
Variable cfg : Config.

#[export] Instance onW_preorder (R : relation World) `{!PreOrder R} : PreOrder (onW R).
Proof.
  split; [intros st; unfold onW; reflexivity |].
  intros s1 s2 s3 H12 H23. unfold onW in *. by transitivity (st_world s2).
Qed.

(** A computation on the world, run on the state, moves the state along any
    relation that the change of world alone justifies. *)
Lemma respects_liftW {A} (RW : relation World) (R : relation State) (m : M World A) :
  respects RW m ->
  (forall st w, RW (st_world st) w -> R st (set_world w st)) ->
  respects R (liftW m).
Proof.
  intros Hm HR st r st' Hrun. unfold liftW in Hrun.
  destruct (m (st_world st)) as [r0 w] eqn:E. injection Hrun as <- <-.
  eapply HR, Hm, E.
Qed.

Lemma respects_liftW_onW {A} (RW : relation World) (m : M World A) :
  respects RW m -> respects (onW RW) (liftW m).
Proof. intros Hm. eapply respects_liftW; [exact Hm | auto]. Qed.

(** An update of the live objects moves no world. *)
Lemma respects_modify_objs (RW : relation World) `{!PreOrder RW} (f : State -> State) :
  (forall st, st_world (f st) = st_world st) -> respects (onW RW) (modify f).
Proof.
  intros Hf. apply respects_modify. intros st. unfold onW. by rewrite Hf.
Qed.

Lemma optimizer_step_onW (RW : relation World) `{!PreOrder RW} batch :
  respects (onW RW) (optimizer_step batch).
Proof.
  apply respects_modify_objs; [done |]. intros st. by destruct (backward_step _ _ _ _).
Qed.

(** An observation that does not read the world survives any [liftW]. *)
Lemma respects_liftW_frame {A X} (g : State -> X) (m : M World A) :
  (forall st w, g (set_world w st) = g st) -> respects (same g) (liftW m).
Proof.
  intros Hg. eapply respects_liftW with (RW := fun _ _ => True).
  - intros w r w' _. exact I.
  - intros st w _. apply Hg.
Qed.

(** Structural steps shared by the frame proofs below; [leaf] closes the
    primitive effects. *)
Ltac respects_steps leaf :=
  repeat first
    [ progress intros
    | leaf
    | apply respects_ret | apply respects_raise | apply respects_gets
    | apply respects_py_mod
    | apply respects_bind | apply respects_when
    | match goal with
      | |- PreOrder _ => solve [typeclasses eauto]
      | |- respects _ (if ?x then _ else _) => destruct x
      | |- respects _ (match ?x with _ => _ end) => destruct x
      end ].

(** The loops respect whatever their bodies respect. *)
Lemma train_loop_respects (R : relation State) `{!PreOrder R} save_dir epoch len :
  (forall losses i batch, respects R (train_iter cfg save_dir epoch len losses i batch)) ->
  forall batches losses i, respects R (train_loop cfg save_dir epoch len losses i batches).
Proof.
  intros Hiter batches.
  induction batches as [| batch rest IH]; intros losses i; cbn [train_loop].
  - by apply respects_ret.
  - apply respects_bind; [done | apply Hiter | intros; apply IH].
Qed.

Lemma validation_loop_respects (R : relation State) `{!PreOrder R} save_dir epoch :
  (forall ms i batch, respects R (validation_iter cfg save_dir epoch ms i batch)) ->
  forall batches ms i, respects R (validation_loop cfg save_dir epoch ms i batches).
Proof.
  intros Hiter batches.
  induction batches as [| batch rest IH]; intros ms i; cbn [validation_loop].
  - by apply respects_ret.
  - apply respects_bind; [done | apply Hiter | intros; apply IH].
Qed.

(** *** The validation loop leaves the parameters alone *)

Lemma viz_due_respects {S} (R : relation S) `{!PreOrder R} i : respects R (viz_due cfg i).
Proof. unfold viz_due. respects_steps fail. Qed.

Lemma validation_iter_params save_dir epoch ms i batch :
  respects (same learnt) (validation_iter cfg save_dir epoch ms i batch).
Proof.
  unfold validation_iter.
  respects_steps ltac:(first
    [ apply viz_due_respects
    | apply respects_liftW_frame; reflexivity ]).
Qed.

Lemma validation_loop_params save_dir epoch batches :
  forall ms i,
    respects (same learnt) (validation_loop cfg save_dir epoch ms i batches).
Proof.
  induction batches as [| batch rest IH]; intros ms i; cbn [validation_loop].
  - apply respects_ret; apply _.
  - apply respects_bind; [apply _ | apply validation_iter_params | intros ms'; apply IH].
Qed.

Lemma validation_params valid_loader epoch :
  respects (same learnt) (validation cfg valid_loader epoch).
Proof.
  unfold validation.
  respects_steps ltac:(first
    [ apply validation_loop_params
    | apply respects_liftW_frame; reflexivity
    | apply respects_modify; reflexivity ]).
Qed.

(** C3: the validation loop never mutates the model parameters; no optimizer
    step or scheduler step occurs either.  Holds for every state and every
    sequence of batches, whether the call returns or raises. *)
Theorem validation_never_mutates_parameters valid_loader epoch st :
  let st' := snd (validation cfg valid_loader epoch st) in
  params (st_model st') = params (st_model st)
  /\ st_optimizer st' = st_optimizer st
  /\ st_scheduler st' = st_scheduler st.
Proof.
  destruct (validation cfg valid_loader epoch st) as [r st'] eqn:E. cbn.
  apply validation_params in E. unfold same, learnt in E.
  by injection E as -> -> ->.
Qed.

(** *** Effects on the world that leave an observation alone *)

(** Unfold the composite effects on the world down to [modify]. *)
Ltac unfold_world :=
  unfold save_model, load_model, append_results, append_to, torch_save,
    torch_load, write_scalars, visualize_network_output, mkdirs, path_exists,
    print, call, get_backbone_name, get_module, strict_load_state_dict.

(** [frame_world obs_tac]: a world computation respects [same g], where
    [obs_tac] shows that one field update leaves [g] alone. *)
Ltac frame_world obs_tac :=
  unfold_world;
  respects_steps ltac:(apply respects_modify; intros ?; unfold same; obs_tac).

(** The same on the state: world effects go through [frame_world], updates of
    the live objects do not touch the world. *)
Ltac frame_state obs_tac :=
  respects_steps ltac:(first
    [ apply viz_due_respects
    | apply optimizer_step_onW
    | apply train_loop_respects; [solve [typeclasses eauto] | intros; unfold train_iter]
    | apply validation_loop_respects; [solve [typeclasses eauto] | intros; unfold validation_iter]
    | apply respects_liftW_onW; frame_world obs_tac
    | apply respects_modify; intros ?; reflexivity ]).

(** *** Calls to [validation] *)

Ltac validation_calls_tac :=
  unfold validation_calls; cbn; rewrite ?List.filter_app; cbn;
  rewrite ?app_nil_r; reflexivity.

Lemma train_iter_no_validation save_dir epoch len losses i batch :
  respects (onW (same validation_calls)) (train_iter cfg save_dir epoch len losses i batch).
Proof.
  unfold train_iter.
  frame_state validation_calls_tac.
Qed.

Lemma train_loop_no_validation save_dir epoch len batches :
  forall losses i,
    respects (onW (same validation_calls))
      (train_loop cfg save_dir epoch len losses i batches).
Proof.
  induction batches as [| batch rest IH]; intros losses i; cbn [train_loop].
  - apply respects_ret; apply _.
  - apply respects_bind; [apply _ | apply train_iter_no_validation | intros; apply IH].
Qed.

Lemma train_no_validation train_loader epoch :
  respects (onW (same validation_calls)) (train cfg train_loader epoch).
Proof.
  unfold train, step_scheduler.
  respects_steps ltac:(first
    [ apply train_loop_no_validation
    | apply respects_liftW_onW; frame_world validation_calls_tac
    | apply respects_modify; intros ?; reflexivity ]).
Qed.

Lemma main_epochs_no_valset trainset epochs :
  forall k,
    respects (onW (same validation_calls)) (main_epochs cfg trainset None k epochs).
Proof.
  induction epochs as [| epoch rest IH]; intros k; cbn [main_epochs].
  - apply respects_ret; apply _.
  - respects_steps ltac:(first [apply train_no_validation | apply IH]).
Qed.

Lemma main_setup_no_validation :
  respects (same validation_calls) (main_setup cfg).
Proof. unfold main_setup. frame_world validation_calls_tac. Qed.

(** C10: with a dataset name that is neither 'total-text' nor 'synth-text'
    no dataset is built and [main] stops with an unbound-variable error on
    [trainset], at the construction of the training loader: the world is
    exactly as it was, so no constructor ran and no iteration took place. *)
Theorem unknown_dataset_aborts w0 :
  dataset cfg <> "total-text" ->
  dataset cfg <> "synth-text" ->
  main cfg w0 = (Raise (UnboundLocalError "trainset"), Aborted w0).
Proof.
  intros Htotal Hsynth. unfold main, main_setup.
  apply String.eqb_neq in Htotal, Hsynth. rewrite Htotal, Hsynth.
  reflexivity.
Qed.

(** *** Inversion of completed runs *)

Lemma bind_inv_ok {S A B} (m : M S A) (f : A -> M S B) s b s' :
  bind m f s = (Ok b, s') ->
  exists a s1, m s = (Ok a, s1) /\ f a s1 = (Ok b, s').
Proof.
  unfold bind. destruct (m s) as [[a | e] s1]; [eauto | discriminate].
Qed.

(** Peel the binds off a completed run, keeping one equation per step. *)
Ltac run_inv H :=
  repeat (apply bind_inv_ok in H; destruct H as (? & ? & ? & H)).

(** On the synthetic corpus the setup hands [None] to the epoch loop as the
    validation set. *)
Lemma main_setup_synth_valset w model optimizer scheduler trainset valset w' :
  dataset cfg = "synth-text" ->
  main_setup cfg w = (Ok (model, optimizer, scheduler, trainset, valset), w') ->
  valset = None.
Proof.
  intros Hds Hrun. unfold main_setup in Hrun. rewrite Hds in Hrun.
  cbn [String.eqb Ascii.eqb Bool.eqb] in Hrun.
  run_inv Hrun. injection Hrun as _ _ _ _ <-.
  repeat match goal with
         | E : (call _ ;; _) _ = _ |- _ => run_inv E
         | E : ret _ _ = _ |- _ => injection E as <- <-
         end.
  cbn in *.
  match goal with E : ret _ _ = (Ok ?v, _) |- _ => by injection E as <- <- end.
Qed.

(** C4: on the synthetic corpus ('synth-text') the run never calls
    [validation]: the record of validation calls is the same after [main] as
    before it, whichever way [main] ends. *)
Theorem synth_text_never_validates w0 :
  dataset cfg = "synth-text" ->
  validation_calls (final_world (snd (main cfg w0))) = validation_calls w0.
Proof.
  intros Hds. unfold main.
  destruct (main_setup cfg w0) as [[[[[[model optimizer] scheduler] trainset] valset] | e] w] eqn:E.
  - pose proof (main_setup_synth_valset _ _ _ _ _ _ _ Hds E) as ->.
    apply main_setup_no_validation in E. unfold same in E.
    match goal with |- context [main_run ?c ?t ?v ?st] =>
      destruct (main_run c t v st) as [r st'] eqn:Erun end.
    cbn. rewrite <- E.
    assert (respects (onW (same validation_calls)) (main_run cfg trainset None)) as Hrun.
    { unfold main_run.
      respects_steps ltac:(first
        [ apply main_epochs_no_valset
        | apply respects_liftW_onW; frame_world validation_calls_tac ]). }
    apply Hrun in Erun. exact Erun.
  - cbn. apply main_setup_no_validation in E. exact E.
Qed.

Lemma py_mod_inv_ok {S} (a b : Z) (s s' : S) r :
  py_mod a b s = (Ok r, s') -> b <> 0 /\ r = a `mod` b /\ s' = s.
Proof.
  unfold py_mod. destruct (b =? 0) eqn:E; [discriminate |].
  intros [= <- <-]. apply Z.eqb_neq in E. auto.
Qed.

(** [frame_eq obs obs_tac E]: turn the run [E] of a computation that is
    silent on [obs] into the equation between the observations. *)
Ltac frame_eq obs obs_tac E :=
  match type of E with
  | ?m ?s = (_, ?s') =>
      let Hr := fresh "Hr" in
      assert (Hr : respects (onW (same obs)) m) by (frame_state obs_tac);
      apply Hr in E; unfold onW, same in E; clear Hr
  end.

(** Use every run in the context that is silent on [obs]. *)
Ltac frame_all obs obs_tac :=
  repeat match goal with
         | E : py_mod _ _ _ = (Ok _, _) |- _ =>
             apply py_mod_inv_ok in E; destruct E as (? & ? & ?); subst
         | E : ?m ?s = (_, ?s') |- _ => frame_eq obs obs_tac E
         end.

(** The same for the runs of computations on the world. *)
Ltac frame_all_world obs obs_tac :=
  repeat match goal with
         | E : ?m ?w = (_, ?w') |- _ =>
             let Hr := fresh "Hr" in
             assert (Hr : respects (same obs) m) by (frame_world obs_tac);
             apply Hr in E; unfold same in E; clear Hr
         end.

(** Computations that leave an observation [g] of the live objects alone. *)
Ltac frame_objs :=
  respects_steps ltac:(first
    [ apply viz_due_respects
    | apply train_loop_respects; [solve [typeclasses eauto] | intros; unfold train_iter]
    | apply respects_liftW_frame; reflexivity
    | unfold optimizer_step; apply respects_modify; intros ?; unfold same;
      try destruct (backward_step _ _ _ _); reflexivity ]).

(** The same for the validation loop. *)
Ltac frame_objs_val :=
  respects_steps ltac:(first
    [ apply viz_due_respects
    | apply validation_loop_respects;
      [solve [typeclasses eauto] | intros; unfold validation_iter]
    | apply respects_liftW_frame; reflexivity
    | apply respects_modify; intros ?; reflexivity ]).

Ltac frame_all_objs g :=
  repeat match goal with
         | E : py_mod _ _ _ = (Ok _, _) |- _ =>
             apply py_mod_inv_ok in E; destruct E as (? & ? & ?); subst
         | E : ?m ?s = (_, ?s') |- _ =>
             let Hr := fresh "Hr" in
             assert (Hr : respects (same g) m) by frame_objs;
             apply Hr in E; unfold same in E; clear Hr
         end.

(** *** save_model *)

(** On a bare network, with [cfg.mgpu] off, [save_model] goes through and
    writes the record. *)
Lemma save_model_writes model epoch lr optimzer _iter w :
  data_parallel model = false -> mgpu cfg = false ->
  exists w',
    save_model cfg model epoch lr optimzer _iter w = (Ok tt, w')
    /\ calls w' = calls w ++ [CallSaveModel epoch _iter]
    /\ ckpts w' !!
         path_join (path_join (save_dir cfg) (exp_name cfg))
           ("textsnake_" +:+ backbone_name model +:+ "_" +:+ pretty epoch +:+ "_"
            +:+ label_str _iter +:+ ".pth")
       = Some {| ck_lr := lr; ck_epoch := epoch; ck_model := params model;
                 ck_optimizer := optimzer |}
    /\ (forall p, p ∈ dirs w' ->
          p = path_join (save_dir cfg) (exp_name cfg) \/ p ∈ dirs w)
    /\ dirs w ⊆ dirs w'.
Proof.
  intros Hbare Hmgpu.
  unfold save_model, get_backbone_name, bind, call, path_exists, when, mkdirs,
    print, torch_save, modify, gets, ret.
  rewrite Hbare, Hmgpu. cbn. destruct (bool_decide _); cbn.
  - eexists. split; [reflexivity |]. cbn. split; [reflexivity |].
    rewrite lookup_insert_eq. split; [done |]. split; [auto | done].
  - eexists. split; [reflexivity |]. cbn. split; [reflexivity |].
    rewrite lookup_insert_eq. split; [done |]. split; set_solver.
Qed.

(** A call to [save_model] that returned was made on a bare network with
    [cfg.mgpu] off, and has written the record. *)
Lemma save_model_inv_ok model epoch lr optimzer _iter w w' :
  save_model cfg model epoch lr optimzer _iter w = (Ok tt, w') ->
  data_parallel model = false /\ mgpu cfg = false
  /\ calls w' = calls w ++ [CallSaveModel epoch _iter]
  /\ ckpts w' !!
       path_join (path_join (save_dir cfg) (exp_name cfg))
         ("textsnake_" +:+ backbone_name model +:+ "_" +:+ pretty epoch +:+ "_"
          +:+ label_str _iter +:+ ".pth")
     = Some {| ck_lr := lr; ck_epoch := epoch; ck_model := params model;
               ck_optimizer := optimzer |}.
Proof.
  intros Hrun.
  assert (data_parallel model = false /\ mgpu cfg = false) as [Hbare Hmgpu].
  { revert Hrun.
    unfold save_model, get_backbone_name, get_module, bind, call, path_exists,
      when, mkdirs, print, torch_save, modify, gets, ret, raise.
    cbn. destruct (bool_decide _), (data_parallel model), (mgpu cfg); cbn;
      by intros [=]. }
  destruct (save_model_writes model epoch lr optimzer _iter w Hbare Hmgpu)
    as (w1 & Hsave & Hcalls & Hck & _ & _).
  rewrite Hsave in Hrun. injection Hrun as <-. done.
Qed.

(** Read a completed call to [save_model] off a run of [liftW]. *)
Ltac save_inv Hsave Hcalls Hck :=
  unfold liftW in Hsave;
  match type of Hsave with context [save_model ?c ?m ?e ?l ?o ?i ?w] =>
    let Esave := fresh "Esave" in
    destruct (save_model c m e l o i w) as [[[] | ?] ?] eqn:Esave; [| discriminate];
    apply save_model_inv_ok in Esave as (_ & _ & Hcalls & Hck)
  end.

(** *** The ways of load_model *)

Lemma length_append (s1 s2 : string) :
  String.length (s1 +:+ s2) = (String.length s1 + String.length s2)%nat.
Proof. induction s1 as [| a s1 IH]; [done |]. cbn. by rewrite <- IH. Qed.

(** A file under a directory is not the directory. *)
Lemma path_join_ne_dir (a b : string) :
  String.prefix "/" b = false -> b <> "" -> path_join a b <> a.
Proof.
  intros Hb Hne. unfold path_join. rewrite Hb.
  destruct (String.eqb_spec a "") as [-> | Ha]; [done |].
  destruct (_ =? "/")%string; intros E; apply (f_equal String.length) in E;
    rewrite !length_append in E; destruct b; try done; cbn in E; lia.
Qed.

(** The ways [load_model] goes, by what the path holds. *)
Lemma load_model_run (model : Model) path w :
  load_model model path w
  = (if bool_decide (path ∈ dirs w) then Raise (IsADirectoryError path)
     else match ckpts w !! path with
          | Some ck =>
              if data_parallel model then Raise (RuntimeError "load_state_dict")
              else if loadable (params model) (ck_model ck)
                   then Ok (load_state_dict model (ck_model ck))
                   else Raise (RuntimeError "load_state_dict")
          | None =>
              match files w !! path with
              | Some text => Raise (load_failure text)
              | None => Raise (FileNotFoundError path)
              end
          end,
     set_console (fun c => c ++ [LLoading path])
       (set_calls (fun cs => cs ++ [CallLoadModel path]) w)).
Proof.
  unfold load_model, strict_load_state_dict, bind, call, print, torch_load,
    modify, gets, ret, raise.
  cbn. destruct (bool_decide _); [done |].
  destruct (ckpts w !! path) as [ck |]; [| by destruct (files w !! path)].
  destruct (data_parallel model); [done |]. by destruct (loadable _ _).
Qed.

Lemma load_model_ok (model : Model) path w ck :
  path ∉ dirs w -> ckpts w !! path = Some ck ->
  data_parallel model = false -> loadable (params model) (ck_model ck) = true ->
  load_model model path w
  = (Ok (load_state_dict model (ck_model ck)),
     set_console (fun c => c ++ [LLoading path])
       (set_calls (fun cs => cs ++ [CallLoadModel path]) w)).
Proof.
  intros Hdir Hck Hbare Hfit. rewrite load_model_run.
  by rewrite bool_decide_eq_false_2, Hck, Hbare, Hfit.
Qed.


(** *** Checkpoints labelled "end" *)

Ltac end_saves_tac :=
  unfold end_saves; cbn; rewrite ?omap_app; cbn; rewrite ?app_nil_r; reflexivity.

Lemma train_end_saves train_loader epoch st :
  save_freq cfg = 5 ->
  fst (train cfg train_loader epoch st) = Ok tt ->
  end_saves (st_world (snd (train cfg train_loader epoch st))) =
    end_saves (st_world st) ++ (if epoch `mod` 5 =? 0 then [epoch] else []).
Proof.
  intros Hfreq. destruct (train cfg train_loader epoch st) as [r st'] eqn:Hrun.
  cbn [fst snd]. intros ->. unfold train in Hrun. run_inv Hrun.
  match goal with E : py_mod _ _ _ = _ |- _ =>
    apply py_mod_inv_ok in E; destruct E as (_ & -> & ->) end.
  match goal with E : when _ _ ?s = (_, ?s') |- _ =>
    assert (end_saves (st_world s') =
            end_saves (st_world s) ++ (if epoch `mod` 5 =? 0 then [epoch] else []))
      as Hend; [rename E into Hsave | clear E] end.
  { rewrite Hfreq in Hsave. destruct (_ =? 0); cbn [when] in Hsave.
    - run_inv Hsave.
      repeat match goal with E : gets _ _ = _ |- _ => injection E as <- <- end.
      save_inv Hsave Hcalls Hck.
      injection Hsave as Hw. subst. cbn. unfold end_saves. by rewrite Hcalls, omap_app.
    - injection Hsave as Hw. subst. by rewrite app_nil_r. }
  frame_all (@end_saves H) end_saves_tac. congruence.
Qed.

(** *** Progress lines *)

Ltac progress_tac :=
  unfold progress_iters; cbn; rewrite ?omap_app; cbn; rewrite ?app_nil_r; reflexivity.

(** The display block prints its progress line first, whatever happens to the
    six appends after it. *)
Lemma display_progress i len l dir record w r w' :
  (print (LProgress i len (loss l) l) ;; append_results dir record l) w = (r, w') ->
  progress_iters w' = progress_iters w ++ [i].
Proof.
  unfold bind at 1, print, modify. intros Hrun.
  assert (respects (same progress_iters) (append_results dir record l)) as Hr
    by (frame_world progress_tac).
  apply Hr in Hrun. unfold same in Hrun. rewrite Hrun.
  unfold progress_iters. cbn. by rewrite omap_app.
Qed.

Lemma train_iter_progress save_dir epoch len losses i batch st losses' st' :
  train_iter cfg save_dir epoch len losses i batch st = (Ok losses', st') ->
  progress_iters (st_world st') =
    progress_iters (st_world st)
    ++ (if i `mod` display_freq cfg =? 0 then [i] else []).
Proof.
  intros Hrun. unfold train_iter in Hrun. run_inv Hrun.
  frame_all (@progress_iters H) progress_tac.
  match goal with E : when _ _ ?s = (_, ?s') |- _ =>
    assert (progress_iters (st_world s') =
            progress_iters (st_world s)
            ++ (if i `mod` display_freq cfg =? 0 then [i] else []))
      as Hshow; [rename E into Hdisp | clear E] end.
  { destruct (_ =? 0); cbn [when] in Hdisp.
    - unfold liftW in Hdisp.
      match type of Hdisp with context [bind ?m ?f ?w] =>
        destruct (bind m f w) as [r w'] eqn:E end.
      injection Hdisp as Hr Hw. subst. cbn. eapply display_progress, E.
    - injection Hdisp as Hw. subst. by rewrite app_nil_r. }
  congruence.
Qed.

Lemma train_loop_progress save_dir epoch len batches :
  forall losses i st losses' st',
    train_loop cfg save_dir epoch len losses i batches st = (Ok losses', st') ->
    progress_iters (st_world st') =
      progress_iters (st_world st) ++ due (display_freq cfg) i (length batches).
Proof.
  induction batches as [| batch rest IH]; intros losses i st losses' st' Hrun;
    cbn [train_loop length due] in *.
  - injection Hrun as _ <-. by rewrite app_nil_r.
  - apply bind_inv_ok in Hrun as (l1 & s1 & Hiter & Hrest).
    apply train_iter_progress in Hiter. apply IH in Hrest.
    rewrite Hrest, Hiter. by rewrite <- app_assoc.
Qed.

(** C7: an epoch of training over exactly 4 batches with [display_freq = 2]
    that runs to completion prints exactly 2 progress lines, for the
    iterations 0 and 2. *)
Theorem four_batches_two_progress_lines b0 b1 b2 b3 epoch st :
  display_freq cfg = 2 ->
  fst (train cfg [b0; b1; b2; b3] epoch st) = Ok tt ->
  progress_iters (st_world (snd (train cfg [b0; b1; b2; b3] epoch st)))
  = progress_iters (st_world st) ++ [0; 2].
Proof.
  intros Hfreq. destruct (train cfg [b0; b1; b2; b3] epoch st) as [r st'] eqn:Hrun.
  cbn [fst snd]. intros ->. unfold train in Hrun. run_inv Hrun.
  match goal with E : train_loop _ _ _ _ _ _ _ _ = _ |- _ =>
    apply train_loop_progress in E; rewrite Hfreq in E;
    change (due 2 0 (length [b0; b1; b2; b3])) with [0; 2] in E end.
  frame_all (@progress_iters H) progress_tac. congruence.
Qed.

(** *** The per-term text logs *)

#[export] Instance appended_preorder P dir : PreOrder (appended P dir).
Proof.
  split.
  - intros w path. split; [done |]. exists []. cbn. by rewrite append_nil_r.
  - intros w1 w2 w3 H12 H23 path.
    destruct (H12 path) as (Hs12 & recs1 & E1 & HP1 & Hn1).
    destruct (H23 path) as (Hs23 & recs2 & E2 & HP2 & Hn2).
    split; [auto |]. exists (recs1 ++ recs2). split; [| split].
    + by rewrite E2, E1, cat_app, append_assoc.
    + by apply Forall_app.
    + intros Hne. destruct recs1 as [| r recs1]; [apply Hn2; by destruct recs2 |].
      by apply Hn1.
Qed.







(** *** What an iteration computes and logs *)

Lemma log_path_inj (dir n1 n2 : string) :
  dir +:+ "/" +:+ n1 = dir +:+ "/" +:+ n2 -> n1 = n2.
Proof. intros E. apply (inj (String.app dir)) in E. by apply (inj (String.app "/")) in E. Qed.

Lemma append_to_content dir name text w u w' :
  append_to dir name text w = (Ok u, w') ->
  forall n,
    content w' (dir +:+ "/" +:+ n)
    = content w (dir +:+ "/" +:+ n) +:+ (if String.eqb n name then text else "").
Proof.
  unfold append_to, bind, path_exists, gets, modify, raise.
  destruct (bool_decide _); [| discriminate].
  intros [= _ <-] n. unfold content. cbn.
  destruct (String.eqb_spec n name) as [-> | Hne].
  - by rewrite lookup_insert_eq.
  - rewrite lookup_insert_ne; [by rewrite append_nil_r |].
    intros E. by apply log_path_inj in E.
Qed.

(** A display block that went through has extended each of the six files by
    the record of its term. *)
Lemma append_results_content dir record l w u w' :
  append_results dir record l w = (Ok u, w') ->
  forall name term,
    In (name, term) log_terms ->
    content w' (dir +:+ "/" +:+ name)
    = content w (dir +:+ "/" +:+ name) +:+ record (term l).
Proof.
  intros Hrun name term Hin. unfold append_results in Hrun.
  do 5 (apply bind_inv_ok in Hrun; destruct Hrun as (? & ? & ? & Hrun)).
  repeat match goal with
         | E : append_to _ _ _ _ = _ |- _ =>
             apply append_to_content with (n := name) in E
         end.
  cbn [log_terms In] in Hin.
  repeat (destruct Hin as [[= <- <-] | Hin];
          [cbn in *; rewrite ?append_nil_r in *; congruence |]).
  done.
Qed.

Ltac files_eq :=
  repeat match goal with
         | E : py_mod _ _ _ = (Ok _, _) |- _ =>
             apply py_mod_inv_ok in E; destruct E as (? & ? & ?); subst
         end;
  frame_all (@files H) ltac:(reflexivity);
  unfold content in *; cbn in *; congruence.

(** One iteration that completes: an optimizer step at the optimizer's
    rate, and, when the index is due, one record per log file, with the index
    of the iteration and the loss term of its batch. *)
Lemma train_iter_run save_dir epoch len losses i batch st losses' st' :
  train_iter cfg save_dir epoch len losses i batch st = (Ok losses', st') ->
  let l := criterion (forward (training (st_model st)) (params (st_model st)) batch)
             batch in
  (params (st_model st'), opt_state (st_optimizer st'))
  = backward_step (opt_lr (st_optimizer st)) (params (st_model st))
      (opt_state (st_optimizer st)) batch
  /\ opt_lr (st_optimizer st') = opt_lr (st_optimizer st)
  /\ training (st_model st') = training (st_model st)
  /\ forall name term,
       In (name, term) log_terms ->
       content (st_world st') (save_dir +:+ "/" +:+ name)
       = content (st_world st) (save_dir +:+ "/" +:+ name)
         +:+ (if i `mod` display_freq cfg =? 0 then train_record epoch i (term l)
              else "").
Proof.
  intros Hrun l. unfold train_iter in Hrun.
  apply bind_inv_ok in Hrun as (u & s1 & Hincr & Hrun).
  unfold liftW, modify in Hincr. injection Hincr as _ <-.
  apply bind_inv_ok in Hrun as (model & s2 & Hget & Hrun).
  injection Hget as <- <-.
  apply bind_inv_ok in Hrun as (u2 & s3 & Hstep & Hrun).
  unfold optimizer_step, modify in Hstep. injection Hstep as _ <-.
  cbn [st_model st_optimizer set_world] in Hrun. fold l in Hrun.
  match type of Hrun with ?m ?s = _ =>
    assert (respects (same training_state) m) as Hobjs by frame_objs;
    apply Hobjs in Hrun as Eobjs; clear Hobjs
  end.
  unfold same, training_state in Eobjs. cbn in Eobjs.
  destruct (backward_step _ _ _ _) as [p o] eqn:Eback. cbn in Eobjs.
  injection Eobjs as -> -> -> ->.
  split; [done | split; [done | split; [done |]]].
  intros name term Hin.
  run_inv Hrun. injection Hrun as _ <-.
  repeat match goal with
         | E : py_mod _ _ _ = (Ok _, _) |- _ =>
             apply py_mod_inv_ok in E; destruct E as (? & ? & ?); subst
         end.
  match goal with
    E : when (i `mod` display_freq cfg =? 0) _ ?s = (_, ?s') |- _ =>
      assert (content (st_world s') (save_dir +:+ "/" +:+ name)
              = content (st_world s) (save_dir +:+ "/" +:+ name)
                +:+ (if i `mod` display_freq cfg =? 0
                     then train_record epoch i (term l) else ""))
        as Hshown; [rename E into Hdisplay | clear E]
  end.
  { revert Hdisplay. destruct (i `mod` display_freq cfg =? 0); cbn [when];
      intros Hdisplay.
    - unfold liftW in Hdisplay.
      match type of Hdisplay with context [bind ?m ?f ?w] =>
        destruct (bind m f w) as [[[] | e] w1] eqn:Edisp; [| discriminate] end.
      injection Hdisplay as Hw. subst. cbn [st_world set_world].
      apply bind_inv_ok in Edisp as (? & w0 & Hprint & Eapp).
      unfold print, modify in Hprint. injection Hprint as _ <-.
      eapply append_results_content in Eapp; [| exact Hin]. exact Eapp.
    - injection Hdisplay as _ <-. by rewrite append_nil_r. }
  frame_all (@files H) ltac:(reflexivity).
  revert Hshown. unfold content. cbn in *. congruence.
Qed.

(** The loop: the steps of all batches at one rate, and the records of the
    due iterations in order. *)
Lemma train_loop_run save_dir epoch len batches :
  forall losses i st losses' st',
    training (st_model st) = true ->
    train_loop cfg save_dir epoch len losses i batches st = (Ok losses', st') ->
    let g := opt_lr (st_optimizer st) in
    let po := (params (st_model st), opt_state (st_optimizer st)) in
    (params (st_model st'), opt_state (st_optimizer st')) = steps_at g batches po
    /\ opt_lr (st_optimizer st') = g
    /\ training (st_model st') = true
    /\ forall name term,
         In (name, term) log_terms ->
         content (st_world st') (save_dir +:+ "/" +:+ name)
         = content (st_world st) (save_dir +:+ "/" +:+ name)
           +:+ cat (map (fun '(j, l) => train_record epoch j (term l))
                      (displayed (display_freq cfg) i (train_losses g po batches))).
Proof.
  induction batches as [| batch rest IH]; intros losses i st losses' st' Hmode Hrun;
    cbn [train_loop] in Hrun.
  - injection Hrun as _ <-. cbn. repeat split; try done.
    intros. by rewrite append_nil_r.
  - apply bind_inv_ok in Hrun as (l1 & s1 & Hiter & Hrest).
    apply train_iter_run in Hiter as (Hstep & Hlr & Hmode1 & Hfiles).
    rewrite Hmode in Hmode1, Hfiles.
    apply IH in Hrest as (Hsteps & Hlr' & Hmode' & Hfiles'); [| exact Hmode1].
    rewrite Hlr, Hstep in Hsteps, Hfiles'. rewrite Hlr in Hlr'.
    intros g po. split; [exact Hsteps | split; [exact Hlr' | split; [exact Hmode' |]]].
    intros name term Hin. rewrite (Hfiles' name term Hin), (Hfiles name term Hin).
    cbn [train_losses displayed]. rewrite map_app, cat_app, append_assoc.
    subst g po. cbn [fst snd]. f_equal. f_equal.
    destruct (i `mod` display_freq cfg =? 0); [| done].
    cbn. by rewrite append_nil_r.
Qed.

(** An epoch of training that completes. *)
Lemma train_run train_loader epoch st st' :
  train cfg train_loader epoch st = (Ok tt, st') ->
  let g := opt_lr (st_optimizer st) in
  let po := (params (st_model st), opt_state (st_optimizer st)) in
  (params (st_model st'), opt_state (st_optimizer st')) = steps_at g train_loader po
  /\ forall name term,
       In (name, term) log_terms ->
       content (st_world st') (path_join (save_dir cfg) (exp_name cfg) +:+ "/" +:+ name)
       = content (st_world st) (path_join (save_dir cfg) (exp_name cfg) +:+ "/" +:+ name)
         +:+ cat (map (fun '(j, l) => train_record epoch j (term l))
                    (displayed (display_freq cfg) 0 (train_losses g po train_loader))).
Proof.
  intros Hrun g po. unfold train in Hrun.
  apply bind_inv_ok in Hrun as (u1 & s1 & Hcall & Hrun).
  unfold liftW, call, modify in Hcall. injection Hcall as _ <-.
  apply bind_inv_ok in Hrun as (u2 & s2 & Hmode & Hrun).
  unfold modify in Hmode. injection Hmode as _ <-.
  apply bind_inv_ok in Hrun as (glr & s3 & Hget & Hrun).
  injection Hget as _ <-.
  apply bind_inv_ok in Hrun as (u4 & s4 & Hprint & Hrun).
  unfold liftW, print, modify in Hprint. injection Hprint as _ <-.
  apply bind_inv_ok in Hrun as (losses & s5 & Hloop & Hrun).
  apply train_loop_run in Hloop as (Hsteps & _ & _ & Hfiles); [| reflexivity].
  unfold step_scheduler in Hrun.
  match type of Hrun with ?m ?s = _ =>
    assert (respects (same (fun st : State =>
                              (params (st_model st), opt_state (st_optimizer st))))
              m) as Hobjs by frame_objs;
    apply Hobjs in Hrun as Eobjs; clear Hobjs
  end.
  unfold same in Eobjs. split; [by rewrite Eobjs, Hsteps |].
  intros name term Hin. specialize (Hfiles name term Hin).
  match type of Hfiles with content ?w5 ?p = _ =>
    assert (content (st_world st') p = content w5 p) as ->
      by (run_inv Hrun; files_eq) end.
  exact Hfiles.
Qed.





(** *** The global step counter *)

Ltac train_steps_tac :=
  unfold train_steps; cbn; rewrite ?omap_app; cbn; rewrite ?app_nil_r; reflexivity.

Lemma logged_same bound w w' :
  train_step w' = train_step w -> train_steps w' = train_steps w ->
  leads (logged bound) (logged bound) w w'.
Proof. unfold leads, logged. by intros -> ->. Qed.

Lemma logged_lt_le w : logged Z.lt w -> logged Z.le w.
Proof.
  intros [Hs Hb]. split; [done |].
  eapply Forall_impl; [exact Hb | cbn; intros; lia].
Qed.

Lemma StronglySorted_snoc (l : list Z) (x : Z) :
  StronglySorted Z.lt l -> Forall (fun y => y < x) l -> StronglySorted Z.lt (l ++ [x]).
Proof.
  induction 1 as [| y l Hl IH Hy]; intros Hx; cbn.
  - repeat constructor.
  - apply Forall_cons in Hx as [Hyx Hx]. constructor; [by apply IH |].
    apply Forall_app. split; [done | by constructor].
Qed.

Lemma leads_bind_W {A B} (P Q : World -> Prop) (m : M State A) (f : A -> M State B) :
  respects (onW (leads P P)) m ->
  (forall a, respects (onW (leads P Q)) (f a)) ->
  (forall w, P w -> Q w) ->
  respects (onW (leads P Q)) (bind m f).
Proof.
  intros Hm Hf HPQ.
  apply (spec_leads_bind (fun st => P (st_world st)) (fun st => Q (st_world st)));
    [exact Hm | exact Hf | auto].
Qed.

Lemma leads_then_W {A B} (P Q : World -> Prop) (m : M State A) (f : A -> M State B) :
  respects (onW (leads P Q)) m ->
  (forall a, respects (onW (leads Q Q)) (f a)) ->
  respects (onW (leads P Q)) (bind m f).
Proof.
  intros Hm Hf.
  apply (spec_leads_then (fun st => P (st_world st)) (fun st => Q (st_world st)));
    [exact Hm | exact Hf].
Qed.

(** Effects that touch neither [train_step] nor the 'train' scalars. *)
Ltac logged_world :=
  unfold_world;
  respects_steps ltac:(apply respects_modify; intros ?; apply logged_same;
                       [reflexivity | train_steps_tac]).

Ltac logged_state :=
  respects_steps ltac:(first
    [ apply viz_due_respects
    | apply optimizer_step_onW
    | apply validation_loop_respects;
      [solve [typeclasses eauto] | intros; unfold validation_iter]
    | apply respects_liftW_onW; logged_world
    | apply respects_modify_objs; [solve [typeclasses eauto] | reflexivity] ]).

(** One iteration: the counter is bumped first, which puts every logged step
    strictly below it; the scalars are pushed last, with the counter as step. *)
Lemma train_iter_logged save_dir epoch len losses i batch :
  respects (onW (leads (logged Z.le) (logged Z.le)))
    (train_iter cfg save_dir epoch len losses i batch).
Proof.
  unfold train_iter.
  eapply spec_bind with
    (Q1 := fun s _ s' => onW (leads (logged Z.le) (logged Z.lt)) s s')
    (Q2 := fun _ s _ s' => onW (leads (logged Z.lt) (logged Z.le)) s s').
  - intros st r st' Hrun. unfold liftW, modify in Hrun. injection Hrun as <- <-.
    unfold onW, leads, logged. cbn. intros [Hs Hb]. split; [done |].
    eapply Forall_impl; [exact Hb | cbn; intros; lia].
  - intros _.
    repeat (apply leads_bind_W; [solve [logged_state] | intros | exact logged_lt_le]).
    apply leads_then_W; [| intros; apply respects_ret; apply _].
    match goal with |- respects _ (when ?b _) => destruct b end; cbn [when].
    + intros st r st' Hrun.
      unfold bind, gets, liftW, write_scalars, modify in Hrun.
      injection Hrun as <- <-.
      unfold onW, leads, logged, train_steps. cbn. rewrite omap_app. cbn.
      intros [Hs Hb]. split; [by apply StronglySorted_snoc |].
      apply Forall_app. split; [| constructor; [lia | constructor]].
      eapply Forall_impl; [exact Hb | cbn; intros; lia].
    + intros st r st' [= <- <-]. exact (logged_lt_le _).
  - intros st e st1 Hincr Hle. by apply logged_lt_le, Hincr.
  - intros st a st1 r st2 Hincr Hrest Hle. by apply Hrest, Hincr.
Qed.

Lemma train_logged train_loader epoch :
  respects (onW (leads (logged Z.le) (logged Z.le))) (train cfg train_loader epoch).
Proof.
  unfold train, step_scheduler.
  respects_steps ltac:(first
    [ apply train_loop_respects; [solve [typeclasses eauto] | apply train_iter_logged]
    | apply respects_liftW_onW; logged_world
    | apply respects_modify_objs; [solve [typeclasses eauto] | reflexivity] ]).
Qed.

Lemma validation_logged valid_loader epoch :
  respects (onW (leads (logged Z.le) (logged Z.le))) (validation cfg valid_loader epoch).
Proof. unfold validation. logged_state. Qed.

Lemma main_epochs_logged trainset valset epochs :
  forall k,
    respects (onW (leads (logged Z.le) (logged Z.le)))
      (main_epochs cfg trainset valset k epochs).
Proof.
  induction epochs as [| epoch rest IH]; intros k; cbn [main_epochs].
  - apply respects_ret; apply _.
  - respects_steps ltac:(first
      [ apply train_logged | apply validation_logged | apply IH ]).
Qed.

Lemma main_setup_logged :
  respects (leads (logged Z.le) (logged Z.le)) (main_setup cfg).
Proof.
  unfold main_setup. unfold_world.
  respects_steps ltac:(first
    [ apply respects_modify; intros ?; apply logged_same;
      [reflexivity | train_steps_tac]
    | apply respects_modify; intros ? _; split; constructor ]).
Qed.

Lemma main_logged w0 :
  logged Z.le w0 -> logged Z.le (final_world (snd (main cfg w0))).
Proof.
  intros Hw0. unfold main.
  destruct (main_setup cfg w0)
    as [[[[[[model optimizer] scheduler] trainset] valset] | e] w] eqn:E;
    apply main_setup_logged in E; specialize (E Hw0); [| exact E].
  match goal with |- context [main_run ?c ?t ?v ?st] =>
    destruct (main_run c t v st) as [r st'] eqn:Erun end.
  cbn.
  assert (respects (onW (leads (logged Z.le) (logged Z.le)))
            (main_run cfg trainset valset)) as Hrun.
  { unfold main_run.
    respects_steps ltac:(first
      [ apply main_epochs_logged
      | apply respects_liftW_onW; logged_world ]). }
  apply Hrun in Erun. by apply Erun.
Qed.

Lemma train_iter_step save_dir epoch len losses i batch st :
  train_step (st_world (snd (train_iter cfg save_dir epoch len losses i batch st)))
  = train_step (st_world st) + 1.
Proof.
  destruct (train_iter cfg save_dir epoch len losses i batch st) as [r st'] eqn:Hrun.
  unfold train_iter in Hrun. unfold bind at 1, liftW, modify in Hrun.
  frame_eq (@train_step H) ltac:(reflexivity) Hrun. cbn [snd]. by rewrite Hrun.
Qed.

Lemma train_loop_step save_dir epoch len batches :
  forall losses i st losses' st',
    train_loop cfg save_dir epoch len losses i batches st = (Ok losses', st') ->
    train_step (st_world st') = train_step (st_world st) + Z.of_nat (length batches).
Proof.
  induction batches as [| batch rest IH]; intros losses i st losses' st' Hrun;
    cbn [train_loop length] in *.
  - injection Hrun as _ <-. lia.
  - apply bind_inv_ok in Hrun as (l1 & s1 & Hiter & Hrest).
    apply IH in Hrest. rewrite Hrest.
    pose proof (train_iter_step save_dir epoch len losses i batch st) as Hstep.
    rewrite Hiter in Hstep. cbn [snd] in Hstep. lia.
Qed.

(** C9: the global [train_step] grows by exactly one in every training
    iteration, an epoch of training that completes leaves it larger by the
    number of batches, [validation] does not touch it, and nothing resets
    it; so the steps carried by the 'train' [write_scalars] calls of a run
    are strictly increasing. *)
Theorem train_step_strictly_increasing :
  (forall save_dir epoch len losses i batch st,
     train_step (st_world (snd (train_iter cfg save_dir epoch len losses i batch st)))
     = train_step (st_world st) + 1)
  /\ (forall train_loader epoch st,
        fst (train cfg train_loader epoch st) = Ok tt ->
        train_step (st_world (snd (train cfg train_loader epoch st)))
        = train_step (st_world st) + Z.of_nat (length train_loader))
  /\ (forall valid_loader epoch st,
        train_step (st_world (snd (validation cfg valid_loader epoch st)))
        = train_step (st_world st))
  /\ (forall d f c,
        StronglySorted Z.lt
          (train_steps (final_world (snd (main cfg (initial_world d f c)))))).
Proof.
  split; [exact train_iter_step | split; [| split]].
  - intros train_loader epoch st.
    destruct (train cfg train_loader epoch st) as [r st'] eqn:Hrun.
    cbn [fst snd]. intros ->. unfold train in Hrun. run_inv Hrun.
    match goal with E : train_loop _ _ _ _ _ _ _ _ = _ |- _ =>
      apply train_loop_step in E end.
    frame_all (@train_step H) ltac:(reflexivity). congruence.
  - intros valid_loader epoch st.
    destruct (validation cfg valid_loader epoch st) as [r st'] eqn:Hrun.
    frame_eq (@train_step H) ltac:(reflexivity) Hrun. exact Hrun.
  - intros d f c. apply main_logged. split; constructor.
Qed.

(** *** The learning-rate schedule in the run *)

(** *** The "end" checkpoint on disk *)

Lemma train_end_checkpoint train_loader epoch st st' :
  train cfg train_loader epoch st = (Ok tt, st') ->
  epoch `mod` save_freq cfg = 0 ->
  is_Some
    (ckpts (st_world st') !!
       path_join (path_join (save_dir cfg) (exp_name cfg))
         ("textsnake_" +:+ backbone_name (st_model st) +:+ "_" +:+ pretty epoch
          +:+ "_end.pth")).
Proof.
  intros Hrun Hdue. unfold train in Hrun.
  do 5 (apply bind_inv_ok in Hrun; destruct Hrun as (? & ? & ? & Hrun)).
  apply bind_inv_ok in Hrun as (r & s6 & Hmod & Hrun).
  apply bind_inv_ok in Hrun as (u7 & s7 & Hsave & Hrun).
  apply bind_inv_ok in Hrun as (u8 & s8 & Hprint & Hrun).
  apply py_mod_inv_ok in Hmod as (_ & -> & ->).
  unfold step_scheduler, bind, modify, gets in Hrun. injection Hrun as <-.
  unfold liftW, print, modify in Hprint. injection Hprint as _ <-.
  rewrite Hdue in Hsave. cbn [Z.eqb when] in Hsave. run_inv Hsave.
  repeat match goal with E : gets _ _ = _ |- _ => injection E as <- <- end.
  save_inv Hsave Hcalls Hck.
  injection Hsave as Hs7. subst s7.
  frame_all_objs (fun st : State => backbone_name (st_model st)).
  match type of Hck with context [backbone_name (st_model ?s)] =>
    assert (backbone_name (st_model s) = backbone_name (st_model st))
      as Hname by congruence end.
  cbn. cbn [label_str] in Hck.
  change ("_" +:+ "end" +:+ ".pth") with "_end.pth" in Hck.
  rewrite Hname in Hck. by rewrite Hck.
Qed.

(** C6: with [save_freq = 5], an epoch of training that runs to completion
    calls [save_model] with the label "end" exactly when the epoch index is a
    multiple of 5 (0, 5, 10, ...) and not otherwise; and when it is, the
    checkpoint file textsnake_<backbone>_<epoch>_end.pth of the experiment
    directory exists once the epoch is over. *)
Theorem end_checkpoint_every_fifth_epoch train_loader epoch st :
  save_freq cfg = 5 ->
  fst (train cfg train_loader epoch st) = Ok tt ->
  end_saves (st_world (snd (train cfg train_loader epoch st))) =
    end_saves (st_world st) ++ (if epoch `mod` 5 =? 0 then [epoch] else [])
  /\ (epoch `mod` 5 = 0 ->
      is_Some
        (ckpts (st_world (snd (train cfg train_loader epoch st))) !!
           path_join (path_join (save_dir cfg) (exp_name cfg))
             ("textsnake_" +:+ backbone_name (st_model st) +:+ "_" +:+ pretty epoch
              +:+ "_end.pth"))).
Proof.
  intros Hfreq Hok. split; [by apply train_end_saves |].
  intros Hdue.
  destruct (train cfg train_loader epoch st) as [r st'] eqn:Hrun.
  cbn [fst snd] in *. subst r.
  apply (train_end_checkpoint _ _ _ _ Hrun). by rewrite Hfreq.
Qed.

(** An epoch of training that completes has advanced the scheduler by one
    step, after the last batch, and nothing else has touched the schedule. *)
Lemma train_schedule train_loader epoch st st' :
  train cfg train_loader epoch st = (Ok tt, st') ->
  schedule st' = (scheduler_step (st_scheduler st), cur_lr (scheduler_step (st_scheduler st))).
Proof.
  intros Hrun. unfold train in Hrun.
  do 8 (apply bind_inv_ok in Hrun; destruct Hrun as (? & ? & ? & Hrun)).
  unfold step_scheduler, bind, modify, gets in Hrun. injection Hrun as <-.
  frame_all_objs (@schedule H).
  match goal with |- schedule (set_optimizer _ (set_scheduler _ ?s)) = _ =>
    assert (schedule s = schedule st) as E by congruence end.
  unfold schedule in *. injection E as Hs Ho. cbn. by rewrite Hs.
Qed.

Lemma train_on_schedule p initial_lr n train_loader epoch st st' :
  0 <= n ->
  match p with StepLR step_size _ => 0 < step_size | FixLR => True end ->
  on_schedule p initial_lr n st ->
  train cfg train_loader epoch st = (Ok tt, st') ->
  on_schedule p initial_lr (n + 1) st'.
Proof.
  intros Hn Hp [Hsched _] Hrun. apply train_schedule in Hrun.
  rewrite Hsched, scheduler_step_rate in Hrun by done.
  unfold schedule in Hrun. injection Hrun as Hs Ho. by split.
Qed.

Lemma validation_on_schedule p initial_lr n valid_loader epoch st r st' :
  on_schedule p initial_lr n st ->
  validation cfg valid_loader epoch st = (r, st') ->
  on_schedule p initial_lr n st'.
Proof.
  intros [Hsched Hopt] Hrun. apply validation_params in Hrun.
  unfold same, learnt in Hrun. injection Hrun as _ Ho Hs.
  unfold on_schedule. by rewrite Hs, Ho.
Qed.

Lemma main_epochs_on_schedule p initial_lr trainset valset epochs :
  match p with StepLR step_size _ => 0 < step_size | FixLR => True end ->
  forall k n st st',
    0 <= n ->
    on_schedule p initial_lr n st ->
    main_epochs cfg trainset valset k epochs st = (Ok tt, st') ->
    on_schedule p initial_lr (n + Z.of_nat (length epochs)) st'.
Proof.
  intros Hp. induction epochs as [| epoch rest IH]; intros k n st st' Hn Hon Hrun;
    cbn [main_epochs length] in Hrun |- *.
  - injection Hrun as <-. by rewrite Z.add_0_r.
  - run_inv Hrun.
    match goal with E : train _ _ _ _ = _ |- _ =>
      destruct x; eapply train_on_schedule in E; [| done | done | exact Hon] end.
    replace (n + Z.of_nat (S (length rest))) with (n + 1 + Z.of_nat (length rest)) by lia.
    eapply IH; [| | exact Hrun]; [lia |].
    destruct valset as [v |].
    + match goal with E : when ?b _ _ = _ |- _ => destruct b; cbn [when] in E end.
      * eapply validation_on_schedule; eauto.
      * match goal with E : ret _ _ = _ |- _ => by injection E as _ <- end.
    + match goal with E : ret _ _ = _ |- _ => by injection E as _ <- end.
Qed.

Lemma main_inv_ok w0 st :
  main cfg w0 = (Ok tt, Ran st) ->
  exists model optimizer scheduler trainset valset w,
    main_setup cfg w0 = (Ok (model, optimizer, scheduler, trainset, valset), w)
    /\ main_run cfg trainset valset
         {| st_model := model; st_optimizer := optimizer;
            st_scheduler := scheduler; st_world := w |} = (Ok tt, st).
Proof.
  unfold main.
  destruct (main_setup cfg w0)
    as [[[[[[model optimizer] scheduler] trainset] valset] | e] w]; [| discriminate].
  match goal with |- context [main_run ?c ?t ?v ?s] =>
    destruct (main_run c t v s) as [r st1] eqn:E end.
  intros [= -> ->]. by repeat eexists.
Qed.

(** A run of [main] that completes ends in a full state. *)
Lemma main_ok_ran w0 :
  fst (main cfg w0) = Ok tt -> exists st, main cfg w0 = (Ok tt, Ran st).
Proof.
  unfold main.
  destruct (main_setup cfg w0)
    as [[[[[[model optimizer] scheduler] trainset] valset] | e] w]; [| discriminate].
  match goal with |- context [main_run ?c ?t ?v ?s] =>
    destruct (main_run c t v s) as [r st1] end.
  cbn. intros ->. eauto.
Qed.

(** The optimizer and the scheduler the setup hands to the epoch loop. *)
Lemma main_setup_objects w model optimizer scheduler trainset valset w' :
  main_setup cfg w = (Ok (model, optimizer, scheduler, trainset, valset), w') ->
  opt_lr optimizer = cfg_lr cfg
  /\ scheduler =
       Scheduler_new
         (if String.eqb (dataset cfg) "synth-text" then FixLR
          else StepLR 100 (Q2Qc (1 # 10)))
         (cfg_lr cfg).
Proof.
  intros Hrun. unfold main_setup in Hrun. run_inv Hrun.
  injection Hrun as _ <- <- _ _. split; [done |].
  match goal with E : (if (dataset cfg =? "synth-text")%string then _ else _) _ = _ |- _ =>
    destruct (dataset cfg =? "synth-text")%string; run_inv E; by injection E as <- _ end.
Qed.

(** The epoch loop: every epoch takes its optimizer steps at the rate that
    the scheduler has computed from the epochs of the run before it. *)
Lemma main_epochs_learnt p initial_lr trainset valset epochs :
  match p with StepLR step_size _ => 0 < step_size | FixLR => True end ->
  forall k st st',
    on_schedule p initial_lr (Z.of_nat k) st ->
    main_epochs cfg trainset valset k epochs st = (Ok tt, st') ->
    (params (st_model st'), opt_state (st_optimizer st'))
    = epochs_at (rate p initial_lr) trainset k (length epochs)
        (params (st_model st), opt_state (st_optimizer st)).
Proof.
  intros Hp. induction epochs as [| epoch rest IH]; intros k st st' Hon Hrun;
    cbn [main_epochs length epochs_at] in Hrun |- *.
  - by injection Hrun as <-.
  - apply bind_inv_ok in Hrun as ([] & s1 & Htrain & Hrun).
    apply bind_inv_ok in Hrun as (u & s2 & Hval & Hrun).
    pose proof (train_run _ _ _ _ Htrain) as [Hsteps _].
    destruct Hon as [Hsched Hlr]. rewrite Hlr in Hsteps.
    eapply (train_on_schedule p initial_lr (Z.of_nat k)) in Htrain;
      [| lia | exact Hp | by split].
    assert (on_schedule p initial_lr (Z.of_nat k + 1) s2
            /\ (params (st_model s2), opt_state (st_optimizer s2))
               = (params (st_model s1), opt_state (st_optimizer s1))) as [Hon2 Hsame].
    { destruct valset as [v |]; [destruct (truthy (Some v)) |]; cbn [when] in Hval.
      - split; [by eapply validation_on_schedule |].
        apply validation_params in Hval. unfold same, learnt in Hval.
        by injection Hval as -> -> _.
      - by injection Hval as _ <-.
      - by injection Hval as _ <-. }
    replace (Z.of_nat k + 1) with (Z.of_nat (S k)) in Hon2 by lia.
    rewrite (IH _ _ _ Hon2 Hrun), Hsame, Hsteps. done.
Qed.

(** The objects the setup hands to the epoch loop: the training set of the
    configured dataset, a fresh optimizer state, and the parameters of a
    fresh network or of the checkpoint to resume from. *)
Lemma main_setup_start w0 model optimizer scheduler trainset valset w :
  main_setup cfg w0 = (Ok (model, optimizer, scheduler, trainset, valset), w) ->
  params model = start_params cfg w0
  /\ opt_state optimizer = Adam_init
  /\ trainset = trainset_of cfg.
Proof.
  intros Hrun. unfold main_setup in Hrun.
  apply bind_inv_ok in Hrun as (sets & w1 & Hsets & Hrun).
  assert (ckpts w1 = ckpts w0) as Hck1.
  { revert Hsets. generalize w0, (Ok sets : Result _), w1.
    change (respects (same (@ckpts H))
              (if String.eqb (dataset cfg) "total-text" then
                 call (New "TotalText") ;; call (New "TotalText") ;;
                 ret (Some (TotalText true), Some (Some (TotalText false)))
               else if String.eqb (dataset cfg) "synth-text" then
                 call (New "SynthText") ;; ret (Some SynthText, Some None)
               else ret (None, None))).
    frame_world ltac:(reflexivity). }
  apply bind_inv_ok in Hrun as (ts & w2 & Hts & Hrun).
  assert (ts = trainset_of cfg /\ w2 = w1) as [-> ->].
  { unfold trainset_of. revert Hsets Hts.
    destruct (String.eqb (dataset cfg) "total-text");
      [| destruct (String.eqb (dataset cfg) "synth-text")]; intros Hsets Hts.
    - run_inv Hsets. injection Hsets as <- _. by injection Hts as <- <-.
    - run_inv Hsets. injection Hsets as <- _. by injection Hts as <- <-.
    - injection Hsets as <- _. discriminate. }
  do 8 (apply bind_inv_ok in Hrun; destruct Hrun as (? & ? & ? & Hrun)).
  apply bind_inv_ok in Hrun as (m & w3 & Hmodel & Hrun).
  run_inv Hrun. injection Hrun as <- <- _ <- _.
  split; [| by split].
  revert Hmodel.
  frame_all_world (@ckpts H) ltac:(reflexivity).
  intros Hmodel. unfold start_params.
  destruct (resume cfg) as [path |]; [destruct (String.eqb path "") |].
  - by injection Hmodel as <- _.
  - rewrite load_model_run in Hmodel.
    match type of Hmodel with context [ckpts ?w' !! path] =>
      replace (ckpts w' !! path) with (ckpts w0 !! path) in Hmodel by congruence end.
    destruct (bool_decide _); [discriminate |].
    destruct (ckpts w0 !! path) as [ck |]; [| by destruct (files _ !! path)].
    cbn [data_parallel params] in Hmodel.
    destruct (mgpu cfg); [discriminate |]. destruct (loadable _ _); [| discriminate].
    by injection Hmodel as <- _.
  - by injection Hmodel as <- _.
Qed.

(** C2 (amended): every epoch of training that completes takes the optimizer
    steps of all its batches at the rate the optimizer had when the epoch
    started, and then advances the scheduler by exactly one step, however
    many batches it has.  When [main] completes, the scheduler has made one
    step per epoch of the run, [n = max_epoch - start_epoch] in all, the
    optimizer's rate is [cfg.lr] on 'synth-text' and
    [cfg.lr * 0.1^floor(n / 100)] otherwise, and the [k]-th epoch of the run,
    whose index is [start_epoch + k], was trained at [cfg.lr] on 'synth-text'
    and at [cfg.lr * 0.1^floor(k / 100)] otherwise: the decay counts the
    epochs trained in this run, not the epoch index. *)
Theorem schedule_counts_epochs_of_the_run :
  (forall train_loader epoch st,
     fst (train cfg train_loader epoch st) = Ok tt ->
     let st' := snd (train cfg train_loader epoch st) in
     st_scheduler st' = scheduler_step (st_scheduler st)
     /\ opt_lr (st_optimizer st') = cur_lr (scheduler_step (st_scheduler st))
     /\ (params (st_model st'), opt_state (st_optimizer st'))
        = steps_at (opt_lr (st_optimizer st)) train_loader
            (params (st_model st), opt_state (st_optimizer st)))
  /\ (forall w0,
        fst (main cfg w0) = Ok tt ->
        let n := Z.max 0 (max_epoch cfg - start_epoch cfg) in
        final_steps (snd (main cfg w0)) = Some n
        /\ final_lr (snd (main cfg w0)) =
             Some (if String.eqb (dataset cfg) "synth-text" then cfg_lr cfg
                   else decayed (cfg_lr cfg) n)
        /\ final_learnt (snd (main cfg w0)) =
             Some (epochs_at
                     (fun k => if String.eqb (dataset cfg) "synth-text" then cfg_lr cfg
                               else decayed (cfg_lr cfg) k)
                     (trainset_of cfg) 0 (Z.to_nat n)
                     (start_params cfg w0, Adam_init))).
Proof.
  split.
  - intros train_loader epoch st.
    destruct (train cfg train_loader epoch st) as [r st'] eqn:Hrun.
    cbn [fst snd]. intros ->. pose proof (train_run _ _ _ _ Hrun) as [Hsteps _].
    apply train_schedule in Hrun.
    unfold schedule in Hrun. by injection Hrun as -> ->.
  - intros w0 Hok n. apply main_ok_ran in Hok as [st Hmain]. rewrite Hmain.
    cbn [snd final_steps final_lr final_learnt].
    apply main_inv_ok in Hmain
      as (model & optimizer & scheduler & trainset & valset & w & Hsetup & Hrun).
    pose proof (main_setup_start _ _ _ _ _ _ _ Hsetup) as (Hparams & Hstate & ->).
    apply main_setup_objects in Hsetup as [Hopt ->].
    set (p := if String.eqb (dataset cfg) "synth-text" then FixLR
              else StepLR 100 (Q2Qc (1 # 10))) in *.
    assert (match p with StepLR step_size _ => 0 < step_size | FixLR => True end)
      as Hp by (unfold p; by destruct (_ =? _)%string).
    unfold main_run in Hrun. run_inv Hrun.
    match goal with E : liftW (print LStart) _ = _ |- _ =>
      unfold liftW, print, modify in E; injection E as _ <- end.
    match goal with E : main_epochs _ _ _ _ _ ?s = (Ok ?u, ?s') |- _ =>
      destruct u;
      assert (on_schedule p (cfg_lr cfg) 0 s) as Hon0
        by (unfold on_schedule, Scheduler_new; cbn; by rewrite rate_0);
      pose proof (main_epochs_on_schedule p (cfg_lr cfg) _ _ _ Hp _ _ _ _
                    (Z.le_refl 0) Hon0 E) as [Hs Ho];
      pose proof (main_epochs_learnt p (cfg_lr cfg) _ _ _ Hp 0%nat _ _ Hon0 E) as Hl
    end.
    rewrite length_seqZ in Hs, Ho, Hl. cbn [Z.add] in Hs, Ho.
    replace (Z.of_nat (Z.to_nat (max_epoch cfg - start_epoch cfg))) with n in Hs, Ho
      by lia.
    replace (Z.to_nat (max_epoch cfg - start_epoch cfg)) with (Z.to_nat n) in Hl by lia.
    unfold liftW, print, modify in Hrun. injection Hrun as <-. cbn.
    rewrite Hs, Ho, Hl. cbn. rewrite Hparams, Hstate.
    unfold p. by destruct (_ =? _)%string.
Qed.

(** *** load_model *)

(** C1 (amended): [load_model], given a live model and the path of a saved
    checkpoint, reads the record and loads its model state into the live
    model, which is thereby mutated; nothing else comes back to the caller
    (epoch, learning rate and optimizer state of the record are dropped) and
    the files are left as they were.  This is so when the path holds a
    record, the model is a bare network and the record fits it.  Otherwise
    the call raises: [IsADirectoryError] for a directory, the error of the
    deserialisation for a file that holds no record, [FileNotFoundError] for
    a path that names nothing, [RuntimeError] for a model wrapped in
    [DataParallel] or a record that does not fit.  With [cfg.mgpu] off, what
    [save_model] wrote for a bare network is what a later [load_model] on
    the path of the file puts into a bare network that it fits. *)
Theorem load_model_restores_the_model_only :
  (forall (model : Model) path w ck,
     path ∉ dirs w ->
     ckpts w !! path = Some ck ->
     data_parallel model = false ->
     loadable (params model) (ck_model ck) = true ->
     exists w',
       load_model model path w = (Ok (load_state_dict model (ck_model ck)), w')
       /\ ckpts w' = ckpts w /\ files w' = files w /\ dirs w' = dirs w)
  /\ (forall (model : Model) path w,
        (path ∈ dirs w ->
         fst (load_model model path w) = Raise (IsADirectoryError path))
        /\ (forall text,
              path ∉ dirs w -> ckpts w !! path = None ->
              files w !! path = Some text ->
              fst (load_model model path w) = Raise (load_failure text))
        /\ (path ∉ dirs w -> ckpts w !! path = None -> files w !! path = None ->
            fst (load_model model path w) = Raise (FileNotFoundError path))
        /\ (forall ck,
              path ∉ dirs w -> ckpts w !! path = Some ck ->
              data_parallel model = true
              \/ loadable (params model) (ck_model ck) = false ->
              fst (load_model model path w) = Raise (RuntimeError "load_state_dict")))
  /\ (forall model epoch lr optimzer _iter (live : Model) w,
        let path :=
          path_join (path_join (save_dir cfg) (exp_name cfg))
            ("textsnake_" +:+ backbone_name model +:+ "_" +:+ pretty epoch +:+ "_"
             +:+ label_str _iter +:+ ".pth") in
        mgpu cfg = false ->
        data_parallel model = false ->
        data_parallel live = false ->
        loadable (params live) (params model) = true ->
        path ∉ dirs w ->
        exists w1 w2,
          save_model cfg model epoch lr optimzer _iter w = (Ok tt, w1)
          /\ load_model live path w1
             = (Ok (load_state_dict live (params model)), w2)).
Proof.
  split; [| split].
  - intros model path w ck Hdir Hck Hbare Hfit. rewrite load_model_run.
    rewrite bool_decide_eq_false_2, Hck, Hbare, Hfit by done. eauto.
  - intros model path w. rewrite load_model_run. cbn [fst].
    split; [| split; [| split]].
    + intros Hdir. by rewrite bool_decide_eq_true_2.
    + intros text Hdir Hck Hfile. by rewrite bool_decide_eq_false_2, Hck, Hfile.
    + intros Hdir Hck Hfile. by rewrite bool_decide_eq_false_2, Hck, Hfile.
    + intros ck Hdir Hck Hbad. rewrite bool_decide_eq_false_2, Hck by done.
      destruct Hbad as [-> | Hfit]; [done |]. rewrite Hfit. by destruct (data_parallel _).
  - intros model epoch lr optimzer _iter live w path Hmgpu Hbare Hlive Hfit Hdir.
    destruct (save_model_writes model epoch lr optimzer _iter w Hbare Hmgpu)
      as (w1 & Hsave & _ & Hck & Hdirs & _).
    exists w1. eexists. split; [exact Hsave |]. rewrite load_model_run.
    fold path in Hck. rewrite Hck. cbn [ck_model]. rewrite Hlive, Hfit.
    rewrite bool_decide_eq_false_2; [reflexivity |].
    intros Hin. apply Hdirs in Hin as [Heq | Hin]; [| done].
    revert Heq. apply path_join_ne_dir; [done |].
    unfold String.app. discriminate.
Qed.

(** ** Further properties of the script *)

(** *** When an epoch of training completes *)

Lemma succeeds_ret {S A} (P : S -> Prop) (a : A) : succeeds P (ret a).
Proof. intros s r s' [= <- <-] HP. eauto. Qed.

Lemma succeeds_gets {S A} (P : S -> Prop) (f : S -> A) : succeeds P (gets f).
Proof. intros s r s' [= <- <-] HP. eauto. Qed.

Lemma succeeds_modify {S} (P : S -> Prop) (f : S -> S) :
  (forall s, P s -> P (f s)) -> succeeds P (modify f).
Proof. intros Hf s r s' [= <- <-] HP. eauto. Qed.

Lemma succeeds_bind {S A B} (P : S -> Prop) (m : M S A) (f : A -> M S B) :
  succeeds P m -> (forall a, succeeds P (f a)) -> succeeds P (bind m f).
Proof.
  intros Hm Hf s r s' Hrun HP. unfold bind in Hrun.
  destruct (m s) as [[a | e] s1] eqn:E.
  - destruct (Hm _ _ _ E HP) as [_ HP1]. exact (Hf _ _ _ _ Hrun HP1).
  - destruct (Hm _ _ _ E HP) as [[a Ha] _]. discriminate.
Qed.

Lemma succeeds_when {S} (P : S -> Prop) (b : bool) (m : M S unit) :
  succeeds P m -> succeeds P (when b m).
Proof. destruct b; [auto | intros _; apply succeeds_ret]. Qed.

Lemma succeeds_py_mod {S} (P : S -> Prop) (a b : Z) :
  b <> 0 -> succeeds P (@py_mod S a b).
Proof.
  intros Hb. unfold py_mod. apply Z.eqb_neq in Hb. rewrite Hb. apply succeeds_ret.
Qed.

Lemma succeeds_liftW {A} (P : World -> Prop) (m : M World A) :
  succeeds P m -> succeeds (fun st => P (st_world st)) (liftW m).
Proof.
  intros Hm st r st' Hrun HP. unfold liftW in Hrun.
  destruct (m (st_world st)) as [r0 w] eqn:E. injection Hrun as <- <-.
  exact (Hm _ _ _ E HP).
Qed.

Lemma succeeds_objs (P : World -> Prop) (f : State -> State) :
  (forall st, st_world (f st) = st_world st) ->
  succeeds (fun st => P (st_world st)) (modify f).
Proof. intros Hf. apply succeeds_modify. intros st. by rewrite Hf. Qed.

Lemma bind_run_ok {S A B} (m : M S A) (f : A -> M S B) s a s1 :
  m s = (Ok a, s1) -> bind m f s = f a s1.
Proof. intros E. unfold bind. by rewrite E. Qed.


(** Step through the straight-line part of a computation. *)
Ltac run_steps :=
  repeat (erewrite bind_run_ok; [cbn beta | reflexivity]).

(** With its directory in place an append goes through. *)
Lemma append_to_succeeds dir name text :
  succeeds (fun w => dir ∈ dirs w) (append_to dir name text).
Proof.
  intros w r w' Hrun Hdir. unfold append_to, bind, path_exists, gets in Hrun.
  rewrite bool_decide_eq_true_2 in Hrun by done.
  injection Hrun as <- <-. eauto.
Qed.

Lemma succeeds_liftW_ready {A} (m : M World A) :
  succeeds (fun w => experiment_dir cfg ∈ dirs w) m ->
  succeeds (ready cfg) (liftW m).
Proof.
  intros Hm st r st' Hrun [Hdir Hbare]. unfold liftW in Hrun.
  destruct (m (st_world st)) as [r0 w] eqn:E. injection Hrun as <- <-.
  destruct (Hm _ _ _ E Hdir) as [Hr Hdir']. by repeat split.
Qed.

Lemma succeeds_objs_ready (f : State -> State) :
  (forall st, st_world (f st) = st_world st
              /\ data_parallel (st_model (f st)) = data_parallel (st_model st)) ->
  succeeds (ready cfg) (modify f).
Proof.
  intros Hf. apply succeeds_modify. intros st [Hdir Hbare].
  destruct (Hf st) as [Hw Hm]. unfold ready. by rewrite Hw, Hm.
Qed.

(** The call of lines 106 and 119 with its arguments: on a bare network,
    with [cfg.mgpu] off, it goes through, and it removes no directory. *)
Lemma save_block_run epoch label st :
  mgpu cfg = false -> data_parallel (st_model st) = false ->
  exists w',
    (model <- gets st_model ;;
     scheduler <- gets st_scheduler ;;
     optimizer <- gets st_optimizer ;;
     liftW (save_model cfg model epoch (get_lr scheduler) optimizer label)) st
    = (Ok tt, set_world w' st)
    /\ dirs (st_world st) ⊆ dirs w'.
Proof.
  intros Hmgpu Hbare.
  destruct (save_model_writes (st_model st) epoch (get_lr (st_scheduler st))
              (st_optimizer st) label (st_world st) Hbare Hmgpu)
    as (w' & Hsave & _ & _ & _ & Hdirs).
  exists w'. split; [| exact Hdirs].
  run_steps. unfold liftW. by rewrite Hsave.
Qed.

Lemma save_block_succeeds epoch label :
  mgpu cfg = false ->
  succeeds (ready cfg)
    (model <- gets st_model ;;
     scheduler <- gets st_scheduler ;;
     optimizer <- gets st_optimizer ;;
     liftW (save_model cfg model epoch (get_lr scheduler) optimizer label)).
Proof.
  intros Hmgpu st r st' Hrun [Hdir Hbare].
  destruct (save_block_run epoch label st Hmgpu Hbare) as (w' & E & Hdirs).
  rewrite E in Hrun. injection Hrun as <- <-.
  split; [eauto |]. split; [cbn; set_solver | exact Hbare].
Qed.

Ltac succeeds_steps leaf :=
  repeat first
    [ progress intros
    | leaf
    | apply succeeds_ret | apply succeeds_gets
    | apply succeeds_bind | apply succeeds_when
    | apply succeeds_modify; intros ? ?; cbn; set_solver ].

Ltac succeeds_world :=
  unfold append_results, write_scalars, visualize_network_output, print, call;
  succeeds_steps ltac:(apply append_to_succeeds).

Lemma viz_due_succeeds {S} (P : S -> Prop) i :
  (viz cfg = true -> viz_freq cfg <> 0) -> succeeds P (@viz_due cfg S i).
Proof.
  intros Hviz. unfold viz_due. destruct (viz cfg); [| apply succeeds_ret].
  apply succeeds_bind; [apply succeeds_py_mod; auto | intros; apply succeeds_ret].
Qed.

Lemma train_iter_succeeds epoch len losses i batch :
  intervals_ok cfg -> mgpu cfg = false ->
  succeeds (ready cfg) (train_iter cfg (experiment_dir cfg) epoch len losses i batch).
Proof.
  intros (Hdisplay & Hsave_iter & Hlog & _ & Hviz) Hmgpu. unfold train_iter.
  succeeds_steps ltac:(first
    [ apply viz_due_succeeds; exact Hviz
    | apply succeeds_py_mod; assumption
    | apply save_block_succeeds; exact Hmgpu
    | apply succeeds_liftW_ready; succeeds_world
    | apply succeeds_objs_ready; intros ?;
      unfold optimizer_step; try destruct (backward_step _ _ _ _); by split ]).
Qed.

Lemma train_loop_succeeds epoch len batches :
  intervals_ok cfg -> mgpu cfg = false ->
  forall losses i,
    succeeds (ready cfg)
      (train_loop cfg (experiment_dir cfg) epoch len losses i batches).
Proof.
  intros Hcfg Hmgpu. induction batches as [| batch rest IH]; intros losses i;
    cbn [train_loop].
  - apply succeeds_ret.
  - apply succeeds_bind; [by apply train_iter_succeeds | intros; apply IH].
Qed.

Lemma train_succeeds train_loader epoch :
  intervals_ok cfg -> mgpu cfg = false ->
  succeeds (ready cfg) (train cfg train_loader epoch).
Proof.
  intros Hcfg Hmgpu. pose proof Hcfg as (_ & _ & _ & Hsave & _).
  unfold train, step_scheduler. fold (experiment_dir cfg).
  succeeds_steps ltac:(first
    [ apply train_loop_succeeds; [exact Hcfg | exact Hmgpu]
    | apply succeeds_py_mod; assumption
    | apply save_block_succeeds; exact Hmgpu
    | apply succeeds_liftW_ready; succeeds_world
    | apply succeeds_objs_ready; intros ?; by split ]).
Qed.

(** A display block that went through found its directory. *)
Lemma display_ok_dir line dir record l w a w' :
  (print line ;; append_results dir record l) w = (Ok a, w') -> dir ∈ dirs w.
Proof.
  unfold bind at 1, print, modify. unfold append_results. intros Hrun.
  apply bind_inv_ok in Hrun as (u & w1 & Happend & _).
  unfold append_to, bind, path_exists, gets in Happend.
  destruct (bool_decide _) eqn:E; [| discriminate].
  by apply bool_decide_eq_true_1 in E.
Qed.

Lemma viz_due_inv_ok {S} i (s s' : S) b :
  viz_due cfg i s = (Ok b, s') -> (viz cfg = true -> viz_freq cfg <> 0) /\ s' = s.
Proof.
  unfold viz_due. destruct (viz cfg).
  - intros Hrun. apply bind_inv_ok in Hrun as (r & s1 & Hmod & Hret).
    apply py_mod_inv_ok in Hmod as (Hne & _ & ->). by injection Hret as _ <-.
  - intros [= _ <-]. split; [discriminate | done].
Qed.

(** The first iteration divides by three of the intervals and, its index
    being 0, always enters the display block. *)
Lemma train_iter_0_inv_ok save_dir epoch len losses batch st losses' st' :
  train_iter cfg save_dir epoch len losses 0 batch st = (Ok losses', st') ->
  display_freq cfg <> 0 /\ viz_save_iter cfg <> 0 /\ log_freq cfg <> 0
  /\ (viz cfg = true -> viz_freq cfg <> 0)
  /\ save_dir ∈ dirs (st_world st).
Proof.
  intros Hrun. unfold train_iter in Hrun. run_inv Hrun.
  repeat match goal with
         | E : py_mod _ _ _ = (Ok _, _) |- _ =>
             apply py_mod_inv_ok in E; destruct E as (? & ? & ?); subst
         | E : viz_due _ _ _ = (Ok _, _) |- _ =>
             apply viz_due_inv_ok in E; destruct E as (? & ?); subst
         end.
  repeat split; try assumption.
  match goal with E : when (0 `mod` display_freq cfg =? 0) (liftW _) ?s = _ |- _ =>
    rewrite Zmod_0_l in E; cbn [Z.eqb when] in E; unfold liftW in E;
    match type of E with context [bind ?m ?f ?w] =>
      destruct (bind m f w) as [[u | e] w1] eqn:Edisp; [| discriminate]
    end;
    apply display_ok_dir in Edisp; clear E
  end.
  frame_all (@dirs H) ltac:(reflexivity). congruence.
Qed.

(** It also always saves, which only a bare network with [cfg.mgpu] off
    lets it do. *)
Lemma train_iter_0_bare save_dir epoch len losses batch st losses' st' :
  train_iter cfg save_dir epoch len losses 0 batch st = (Ok losses', st') ->
  mgpu cfg = false /\ data_parallel (st_model st) = false.
Proof.
  intros Hrun. unfold train_iter in Hrun. run_inv Hrun.
  repeat match goal with
         | E : py_mod _ _ _ = (Ok _, _) |- _ =>
             apply py_mod_inv_ok in E; destruct E as (? & ? & ?); subst
         end.
  match goal with
    E : when (0 `mod` viz_save_iter cfg =? 0) _ ?s = _ |- _ =>
      rewrite Zmod_0_l in E; cbn [Z.eqb when] in E; run_inv E;
      repeat match goal with E' : gets _ _ = _ |- _ => injection E' as <- <- end;
      unfold liftW in E;
      match type of E with context [save_model ?c ?m ?e ?l ?o ?i ?w] =>
        destruct (save_model c m e l o i w) as [[[] | ?] ?] eqn:Esave;
          [| discriminate];
        apply save_model_inv_ok in Esave as (Hbare & Hmgpu & _ & _)
      end;
      clear E
  end.
  split; [exact Hmgpu |].
  frame_all_objs (fun st : State => data_parallel (st_model st)). congruence.
Qed.

(** X1: an epoch of training over a loader that yields at least one batch
    runs to completion exactly when the four intervals it divides by
    (display_freq, viz_save_iter, log_freq, save_freq) are non-zero, viz_freq
    is non-zero if visualisation is on, the experiment directory exists when
    the epoch starts, [cfg.mgpu] is off and the model is a bare network: a
    model wrapped in [DataParallel] fails the [save_model] call of iteration
    0, as does any model when [cfg.mgpu] is on. *)
Theorem train_completes_iff batch rest epoch st :
  fst (train cfg (batch :: rest) epoch st) = Ok tt
  <-> intervals_ok cfg /\ experiment_dir cfg ∈ dirs (st_world st)
      /\ mgpu cfg = false /\ data_parallel (st_model st) = false.
Proof.
  split.
  - destruct (train cfg (batch :: rest) epoch st) as [r st'] eqn:Hrun.
    cbn [fst]. intros ->. unfold train in Hrun.
    do 4 (apply bind_inv_ok in Hrun; destruct Hrun as (? & ? & ? & Hrun)).
    apply bind_inv_ok in Hrun as (losses & s5 & Hloop & Hrun).
    apply bind_inv_ok in Hrun as (r & s6 & Hmod & _).
    apply py_mod_inv_ok in Hmod as (Hsave & _ & _).
    cbn [train_loop] in Hloop.
    apply bind_inv_ok in Hloop as (l1 & s1 & Hiter & _).
    pose proof (train_iter_0_bare _ _ _ _ _ _ _ _ Hiter) as [Hmgpu Hbare].
    apply train_iter_0_inv_ok in Hiter as (? & ? & ? & ? & Hdir).
    split; [by repeat split |].
    assert (data_parallel (st_model st) = false) as Hbare0.
    { frame_all_objs (fun st : State => data_parallel (st_model st)). congruence. }
    split; [| by split].
    frame_all (@dirs H) ltac:(reflexivity). unfold experiment_dir. congruence.
  - intros (Hcfg & Hdir & Hmgpu & Hbare).
    destruct (train cfg (batch :: rest) epoch st) as [r st'] eqn:Hrun.
    destruct (train_succeeds _ _ Hcfg Hmgpu _ _ _ Hrun (conj Hdir Hbare))
      as [[[] ->] _]. done.
Qed.

(** X2: over a loader that yields no batch, training completes exactly when
    save_freq is non-zero and, if the epoch index is a multiple of it, so
    that the "end" checkpoint is due, [cfg.mgpu] is off and the model is a
    bare network; the experiment directory need not exist.  Whether it
    completes or not, the parameters, the optimizer state and the step
    counter are as they were and no progress line is printed. *)
Theorem train_on_empty_loader epoch st :
  (fst (train cfg [] epoch st) = Ok tt
   <-> save_freq cfg <> 0
       /\ (epoch `mod` save_freq cfg = 0 ->
           mgpu cfg = false /\ data_parallel (st_model st) = false))
  /\ params (st_model (snd (train cfg [] epoch st))) = params (st_model st)
  /\ opt_state (st_optimizer (snd (train cfg [] epoch st))) = opt_state (st_optimizer st)
  /\ train_step (st_world (snd (train cfg [] epoch st))) = train_step (st_world st)
  /\ progress_iters (st_world (snd (train cfg [] epoch st)))
     = progress_iters (st_world st).
Proof.
  split.
  - split.
    + destruct (train cfg [] epoch st) as [r st'] eqn:Hrun. cbn [fst]. intros ->.
      unfold train in Hrun. cbn [train_loop] in Hrun.
      apply bind_inv_ok in Hrun as (u1 & s1 & Hcall & Hrun).
      unfold liftW, call, modify in Hcall. injection Hcall as _ <-.
      apply bind_inv_ok in Hrun as (u2 & s2 & Hmode & Hrun).
      unfold modify in Hmode. injection Hmode as _ <-.
      apply bind_inv_ok in Hrun as (glr & s3 & Hget & Hrun).
      injection Hget as _ <-.
      apply bind_inv_ok in Hrun as (u4 & s4 & Hprint & Hrun).
      unfold liftW, print, modify in Hprint. injection Hprint as _ <-.
      apply bind_inv_ok in Hrun as (losses & s5 & Hret & Hrun).
      injection Hret as _ <-.
      apply bind_inv_ok in Hrun as (r & s6 & Hmod & Hrun).
      apply py_mod_inv_ok in Hmod as (Hsave & -> & ->).
      split; [exact Hsave |]. intros Hdue.
      apply bind_inv_ok in Hrun as (u7 & s7 & Hblock & _).
      rewrite Hdue in Hblock. cbn [Z.eqb when] in Hblock. run_inv Hblock.
      repeat match goal with E : gets _ _ = _ |- _ => injection E as <- <- end.
      unfold liftW in Hblock.
      match type of Hblock with context [save_model ?c ?m ?e ?l ?o ?i ?w] =>
        destruct (save_model c m e l o i w) as [[[] | ?] ?] eqn:Esave;
          [| discriminate];
        apply save_model_inv_ok in Esave as (Hbare & Hmgpu & _ & _)
      end.
      by split.
    + intros [Hsave Hdue]. unfold train, step_scheduler. cbn [train_loop].
      run_steps.
      erewrite bind_run_ok;
        [| unfold py_mod; apply Z.eqb_neq in Hsave; rewrite Hsave; reflexivity].
      cbn beta.
      destruct (epoch `mod` save_freq cfg =? 0) eqn:Emod; cbn [when].
      * apply Z.eqb_eq in Emod. destruct (Hdue Emod) as [Hmgpu Hbare].
        match goal with |- context [bind ?m _ ?s] =>
          destruct (save_block_run epoch (IterStr "end") s Hmgpu Hbare)
            as (w' & E & _) end.
        rewrite (bind_run_ok _ _ _ _ _ E). run_steps. reflexivity.
      * run_steps. reflexivity.
  - destruct (train cfg [] epoch st) as [r st'] eqn:Hrun. cbn [snd].
    assert (respects (same (fun st => (params (st_model st), opt_state (st_optimizer st))))
              (train cfg [] epoch)) as Hobjs.
    { unfold train, step_scheduler. cbn [train_loop].
      respects_steps ltac:(first
        [ apply respects_liftW_frame; reflexivity
        | apply respects_modify; intros ?; reflexivity ]). }
    assert (respects (onW (same train_step)) (train cfg [] epoch)) as Hstep.
    { unfold train, step_scheduler. cbn [train_loop].
      respects_steps ltac:(first
        [ apply respects_liftW_onW; frame_world ltac:(reflexivity)
        | apply respects_modify; intros ?; reflexivity ]). }
    assert (respects (onW (same progress_iters)) (train cfg [] epoch)) as Hprog.
    { unfold train, step_scheduler. cbn [train_loop].
      respects_steps ltac:(first
        [ apply respects_liftW_onW; frame_world progress_tac
        | apply respects_modify; intros ?; reflexivity ]). }
    apply Hobjs in Hrun as Eo. apply Hstep in Hrun as Es. apply Hprog in Hrun as Ep.
    unfold onW, same in Eo, Es, Ep. by injection Eo as -> ->.
Qed.

(** *** What an epoch that raises has not done *)

Lemma raised_bind {S A B} (R : relation S) `{!PreOrder R} (m : M S A) (f : A -> M S B) :
  respects R m ->
  (forall a, spec (f a) (fun s r s' => (exists e, r = Raise e) -> R s s')) ->
  spec (bind m f) (fun s r s' => (exists e, r = Raise e) -> R s s').
Proof.
  intros Hm Hf.
  eapply spec_bind; [exact Hm | exact Hf | |]; cbn beta.
  - auto.
  - intros s a s1 r s2 H1 H2 Hr. transitivity s1; auto.
Qed.

(** X3: the scheduler step is the last statement of [train], so an epoch
    that raises, at whatever point, leaves the scheduler and the learning
    rate of the optimizer exactly as they were: the schedule advances only
    with epochs that complete. *)
Theorem train_that_raises_keeps_the_schedule train_loader epoch st e :
  fst (train cfg train_loader epoch st) = Raise e ->
  st_scheduler (snd (train cfg train_loader epoch st)) = st_scheduler st
  /\ opt_lr (st_optimizer (snd (train cfg train_loader epoch st)))
     = opt_lr (st_optimizer st).
Proof.
  destruct (train cfg train_loader epoch st) as [r st'] eqn:Hrun. cbn [fst snd].
  intros ->.
  assert (spec (train cfg train_loader epoch)
            (fun s r s' => (exists e, r = Raise e) -> same schedule s s')) as Hspec.
  { unfold train.
    repeat (apply raised_bind; [apply _ | solve [frame_objs] | intros]).
    intros s r s' Hstep [e' ->].
    unfold step_scheduler, bind, modify, gets in Hstep. discriminate. }
  specialize (Hspec _ _ _ Hrun (ex_intro _ e eq_refl)).
  unfold same, schedule in Hspec. by injection Hspec as -> ->.
Qed.

(** *** Train mode, eval mode, and what validation leaves alone *)

(** X4: [train] puts the model in training mode and [validation] puts it in
    eval mode before anything else can fail, and nothing in either loop
    switches it back: the mode after the call is the same whether the call
    returns or raises. *)
Theorem train_and_validation_set_the_mode loader epoch st :
  training (st_model (snd (train cfg loader epoch st))) = true
  /\ training (st_model (snd (validation cfg loader epoch st))) = false.
Proof.
  split.
  - destruct (train cfg loader epoch st) as [r st'] eqn:Hrun. cbn [snd].
    unfold train in Hrun.
    change (bind (liftW (call ?c)) ?k st)
      with (k tt (set_world (set_calls (fun cs => cs ++ [c]) (st_world st)) st)) in Hrun.
    cbn beta in Hrun.
    match type of Hrun with bind (modify ?f) ?k ?s = _ =>
      change (bind (modify f) k s) with (k tt (f s)) in Hrun end.
    cbn beta in Hrun.
    frame_all_objs (fun st : State => training (st_model st)). by rewrite Hrun.
  - destruct (validation cfg loader epoch st) as [r st'] eqn:Hrun. cbn [snd].
    unfold validation in Hrun.
    change (bind (liftW (call ?c)) ?k st)
      with (k tt (set_world (set_calls (fun cs => cs ++ [c]) (st_world st)) st)) in Hrun.
    cbn beta in Hrun.
    match type of Hrun with bind (modify ?f) ?k ?s = _ =>
      change (bind (modify f) k s) with (k tt (f s)) in Hrun end.
    cbn beta in Hrun.
    match type of Hrun with ?m ?s = _ =>
      assert (respects (same (fun st : State => training (st_model st))) m) as Hr
        by frame_objs_val end.
    apply Hr in Hrun. unfold same in Hrun. by rewrite Hrun.
Qed.

Ltac save_calls_tac :=
  unfold save_calls; cbn; rewrite ?omap_app; cbn; rewrite ?app_nil_r; reflexivity.

(** X5: [validation] writes no checkpoint, creates no directory and calls
    [save_model] not once, whether it returns or raises. *)
Theorem validation_saves_nothing valid_loader epoch st :
  let w' := st_world (snd (validation cfg valid_loader epoch st)) in
  ckpts w' = ckpts (st_world st)
  /\ dirs w' = dirs (st_world st)
  /\ save_calls w' = save_calls (st_world st).
Proof.
  destruct (validation cfg valid_loader epoch st) as [r st'] eqn:Hrun. cbn.
  pose proof Hrun as Hrun2. pose proof Hrun as Hrun3.
  frame_eq (@ckpts H) ltac:(reflexivity) Hrun.
  frame_eq (@dirs H) ltac:(reflexivity) Hrun2.
  frame_eq (@save_calls H) save_calls_tac Hrun3.
  done.
Qed.

(** *** The scalars pushed by validation *)

Lemma fold_update_all (ls : list Losses) :
  forall ms,
    fold_left update_all ls ms
    = {| losses := fold_left update (map loss ls) (losses ms);
         tr_losses := fold_left update (map tr_loss ls) (tr_losses ms);
         tcl_losses := fold_left update (map tcl_loss ls) (tcl_losses ms);
         sin_losses := fold_left update (map sin_loss ls) (sin_losses ms);
         cos_losses := fold_left update (map cos_loss ls) (cos_losses ms);
         radii_losses := fold_left update (map radii_loss ls) (radii_losses ms) |}.
Proof.
  induction ls as [| l ls IH]; intros ms; cbn [fold_left map].
  - by destruct ms.
  - by rewrite IH.
Qed.

Ltac summary_tac := cbn; rewrite ?app_nil_r; reflexivity.

(** The model and the summary, which a validation iteration leaves alone. *)
Lemma validation_iter_model_summary save_dir epoch ms i batch :
  respects (same (fun st => (st_model st, summary (st_world st))))
    (validation_iter cfg save_dir epoch ms i batch).
Proof.
  unfold validation_iter.
  respects_steps ltac:(first
    [ apply viz_due_respects
    | apply (respects_liftW (same summary));
      [ frame_world ltac:(reflexivity)
      | intros ? ? Hw; unfold same in *; cbn; by rewrite Hw ] ]).
Qed.

Lemma validation_iter_meters save_dir epoch ms i batch st ms' st' :
  validation_iter cfg save_dir epoch ms i batch st = (Ok ms', st') ->
  ms' = update_all ms
          (criterion (forward (training (st_model st)) (params (st_model st)) batch) batch).
Proof.
  intros Hrun. unfold validation_iter in Hrun.
  apply bind_inv_ok in Hrun as (model & s1 & Hget & Hrun).
  injection Hget as <- <-. run_inv Hrun. by injection Hrun as <- _.
Qed.

Lemma validation_loop_meters save_dir epoch batches :
  forall ms i st ms' st',
    training (st_model st) = false ->
    validation_loop cfg save_dir epoch ms i batches st = (Ok ms', st') ->
    ms' = fold_left update_all (batch_losses (params (st_model st)) batches) ms
    /\ summary (st_world st') = summary (st_world st).
Proof.
  induction batches as [| batch rest IH]; intros ms i st ms' st' Hmode Hrun;
    cbn [validation_loop batch_losses map fold_left] in *.
  - by injection Hrun as <- <-.
  - apply bind_inv_ok in Hrun as (ms1 & s1 & Hiter & Hrest).
    pose proof (validation_iter_meters _ _ _ _ _ _ _ _ Hiter) as ->.
    apply validation_iter_model_summary in Hiter. unfold same in Hiter.
    injection Hiter as Hmodel Hsummary.
    apply IH in Hrest as [-> Hs]; [| by rewrite Hmodel].
    rewrite Hs, Hsummary, Hmodel, Hmode. done.
Qed.

(** X6: a validation pass that completes pushes exactly one record to the
    summary writer: tagged 'val', with the epoch index as step, holding the
    averages, over all batches of the loader, of the combined loss and of the
    five terms, each batch evaluated in eval mode at the parameters the model
    had when [validation] was called. *)
Theorem validation_pushes_the_epoch_averages valid_loader epoch st :
  fst (validation cfg valid_loader epoch st) = Ok tt ->
  let ls := batch_losses (params (st_model st)) valid_loader in
  summary (st_world (snd (validation cfg valid_loader epoch st)))
  = summary (st_world st)
    ++ [{| sc_tag := "val"; sc_n_iter := epoch;
           sc_loss := fst (averaged ls); sc_terms := snd (averaged ls) |}].
Proof.
  destruct (validation cfg valid_loader epoch st) as [r st'] eqn:Hrun.
  cbn [fst snd]. intros ->. unfold validation in Hrun.
  apply bind_inv_ok in Hrun as (u1 & s1 & Hcall & Hrun).
  apply bind_inv_ok in Hrun as (u2 & s2 & Hmode & Hrun).
  apply bind_inv_ok in Hrun as (ms & s3 & Hloop & Hrun).
  unfold liftW, call, modify in Hcall. injection Hcall as _ <-.
  unfold modify in Hmode. injection Hmode as _ <-.
  apply validation_loop_meters in Hloop as [-> Hsummary]; [| done].
  cbn in Hsummary.
  unfold bind, liftW, write_scalars, print, modify in Hrun. injection Hrun as <-.
  cbn. rewrite Hsummary. do 2 f_equal.
  unfold averaged, updates, averages. rewrite fold_update_all. cbn. done.
Qed.

(** *** Which iterations push scalars and save checkpoints *)

Lemma due_filter (d : Z) (n : nat) :
  forall i, due d i n = List.filter (fun j => j `mod` d =? 0) (seqZ i (Z.of_nat n)).
Proof.
  induction n as [| n IH]; intros i; [done |].
  cbn [due]. rewrite IH.
  rewrite (seqZ_cons i (Z.of_nat (S n))) by lia.
  replace (Z.pred (Z.of_nat (S n))) with (Z.of_nat n) by lia.
  cbn [List.filter]. unfold Z.succ. by destruct (_ =? 0).
Qed.

Lemma train_iter_scalars save_dir epoch len losses i batch st losses' st' :
  train_iter cfg save_dir epoch len losses i batch st = (Ok losses', st') ->
  train_steps (st_world st') =
    train_steps (st_world st)
    ++ (if i `mod` log_freq cfg =? 0 then [train_step (st_world st) + 1] else []).
Proof.
  intros Hrun. unfold train_iter in Hrun.
  apply bind_inv_ok in Hrun as (u & s1 & Hincr & Hrun).
  unfold liftW, modify in Hincr. injection Hincr as _ <-.
  run_inv Hrun. injection Hrun as _ <-.
  repeat match goal with
         | E : py_mod _ _ _ = (Ok _, _) |- _ =>
             apply py_mod_inv_ok in E; destruct E as (? & ? & ?); subst
         end.
  match goal with E : when (i `mod` log_freq cfg =? 0) _ ?s = (_, ?s') |- _ =>
    assert (train_steps (st_world s') =
            train_steps (st_world s)
            ++ (if i `mod` log_freq cfg =? 0 then [train_step (st_world s)] else []))
      as Hpush; [rename E into Hlog | clear E] end.
  { revert Hlog. destruct (i `mod` log_freq cfg =? 0); cbn [when]; intros Hlog.
    - unfold bind, gets, liftW, write_scalars, modify in Hlog. cbn in Hlog.
      injection Hlog as Hw. subst. cbn. unfold train_steps. cbn.
      by rewrite omap_app.
    - injection Hlog as Hw. subst. by rewrite app_nil_r. }
  frame_all (fun w : World => (train_step w, train_steps w)) train_steps_tac.
  repeat match goal with E : (_, _) = (_, _) |- _ => injection E as ? ? end.
  cbn in *.
  match type of Hpush with _ = train_steps (st_world ?s) ++ _ =>
    assert (train_steps (st_world s) = train_steps (st_world st)) as Esteps
      by (unfold train_steps in *; congruence);
    assert (train_step (st_world s) = train_step (st_world st) + 1) as Estep
      by congruence
  end.
  by rewrite Hpush, Esteps, Estep.
Qed.

Lemma train_loop_scalars save_dir epoch len batches :
  forall losses i st losses' st',
    train_loop cfg save_dir epoch len losses i batches st = (Ok losses', st') ->
    train_steps (st_world st') =
      train_steps (st_world st)
      ++ map (fun j => train_step (st_world st) + (j - i) + 1)
           (due (log_freq cfg) i (length batches)).
Proof.
  induction batches as [| batch rest IH]; intros losses i st losses' st' Hrun;
    cbn [train_loop length due] in *.
  - injection Hrun as _ <-. by rewrite app_nil_r.
  - apply bind_inv_ok in Hrun as (l1 & s1 & Hiter & Hrest).
    pose proof (train_iter_step save_dir epoch len losses i batch st) as Hstep.
    rewrite Hiter in Hstep. cbn [snd] in Hstep.
    apply train_iter_scalars in Hiter. apply IH in Hrest.
    rewrite Hrest, Hiter, Hstep, map_app, <- app_assoc. do 2 f_equal.
    + destruct (_ =? 0); cbn; [do 2 f_equal; lia | done].
    + apply map_ext. intros j. lia.
Qed.

(** X7: in an epoch of training that completes, scalars tagged 'train' are
    pushed exactly at the iterations [j] with [j % log_freq == 0], in order,
    and the one pushed at iteration [j] carries the step
    [train_step + j + 1], where [train_step] is the value of the global
    counter when the epoch started. *)
Theorem train_pushes_scalars_at_due_iterations train_loader epoch st :
  fst (train cfg train_loader epoch st) = Ok tt ->
  train_steps (st_world (snd (train cfg train_loader epoch st)))
  = train_steps (st_world st)
    ++ map (fun j => train_step (st_world st) + j + 1)
         (due_indices (log_freq cfg) (length train_loader)).
Proof.
  destruct (train cfg train_loader epoch st) as [r st'] eqn:Hrun.
  cbn [fst snd]. intros ->. unfold train in Hrun. run_inv Hrun.
  match goal with E : train_loop _ _ _ _ _ _ _ _ = _ |- _ =>
    apply train_loop_scalars in E; rename E into Hloop end.
  frame_all (fun w : World => (train_step w, train_steps w)) train_steps_tac.
  repeat match goal with E : (_, _) = (_, _) |- _ => injection E as ? ? end.
  match type of Hloop with train_steps (st_world ?s8) = train_steps (st_world ?s6) ++ _ =>
    assert (train_steps (st_world st') = train_steps (st_world s8)) as Eafter
      by (unfold train_steps in *; congruence);
    assert (train_steps (st_world s6) = train_steps (st_world st)) as Esteps
      by (unfold train_steps in *; congruence);
    assert (train_step (st_world s6) = train_step (st_world st)) as Estep
      by congruence
  end.
  rewrite Eafter, Hloop, Esteps, Estep. f_equal.
  unfold due_indices. rewrite <- due_filter.
  apply map_ext. intros j. lia.
Qed.

Lemma train_iter_saves save_dir epoch len losses i batch st losses' st' :
  train_iter cfg save_dir epoch len losses i batch st = (Ok losses', st') ->
  save_calls (st_world st') =
    save_calls (st_world st)
    ++ (if i `mod` viz_save_iter cfg =? 0 then [(epoch, IterIdx i)] else []).
Proof.
  intros Hrun. unfold train_iter in Hrun. run_inv Hrun.
  repeat match goal with
         | E : py_mod _ _ _ = (Ok _, _) |- _ =>
             apply py_mod_inv_ok in E; destruct E as (? & ? & ?); subst
         end.
  match goal with E : when (i `mod` viz_save_iter cfg =? 0) _ ?s = (_, ?s') |- _ =>
    assert (save_calls (st_world s') =
            save_calls (st_world s)
            ++ (if i `mod` viz_save_iter cfg =? 0 then [(epoch, IterIdx i)] else []))
      as Hsaved; [rename E into Hsave | clear E] end.
  { revert Hsave. destruct (i `mod` viz_save_iter cfg =? 0); cbn [when]; intros Hsave.
    - run_inv Hsave.
      repeat match goal with E : gets _ _ = _ |- _ => injection E as <- <- end.
      save_inv Hsave Hcalls Hck.
      injection Hsave as Hw. subst. cbn. unfold save_calls.
      by rewrite Hcalls, omap_app.
    - injection Hsave as Hw. subst. by rewrite app_nil_r. }
  frame_all (@save_calls H) save_calls_tac. congruence.
Qed.

Lemma train_loop_saves save_dir epoch len batches :
  forall losses i st losses' st',
    train_loop cfg save_dir epoch len losses i batches st = (Ok losses', st') ->
    save_calls (st_world st') =
      save_calls (st_world st)
      ++ map (fun j => (epoch, IterIdx j)) (due (viz_save_iter cfg) i (length batches)).
Proof.
  induction batches as [| batch rest IH]; intros losses i st losses' st' Hrun;
    cbn [train_loop length due] in *.
  - injection Hrun as _ <-. by rewrite app_nil_r.
  - apply bind_inv_ok in Hrun as (l1 & s1 & Hiter & Hrest).
    apply train_iter_saves in Hiter. apply IH in Hrest.
    rewrite Hrest, Hiter, map_app, <- app_assoc. do 2 f_equal.
    by destruct (_ =? 0).
Qed.

(** X8: the calls to [save_model] made by an epoch of training that
    completes are, in this order: one for every iteration [j] with
    [j % viz_save_iter == 0], labelled with [j], and then, when
    [epoch % save_freq == 0], one labelled "end". *)
Theorem train_saves_at_due_iterations_then_end train_loader epoch st :
  fst (train cfg train_loader epoch st) = Ok tt ->
  save_calls (st_world (snd (train cfg train_loader epoch st)))
  = save_calls (st_world st)
    ++ map (fun j => (epoch, IterIdx j))
         (due_indices (viz_save_iter cfg) (length train_loader))
    ++ (if epoch `mod` save_freq cfg =? 0 then [(epoch, IterStr "end")] else []).
Proof.
  destruct (train cfg train_loader epoch st) as [r st'] eqn:Hrun.
  cbn [fst snd]. intros ->. unfold train in Hrun. run_inv Hrun.
  match goal with E : train_loop _ _ _ _ _ _ _ _ = _ |- _ =>
    apply train_loop_saves in E; rename E into Hloop end.
  match goal with E : py_mod _ _ _ = _ |- _ =>
    apply py_mod_inv_ok in E; destruct E as (_ & -> & ->) end.
  match goal with E : when (epoch `mod` save_freq cfg =? 0) _ ?s = (_, ?s') |- _ =>
    assert (save_calls (st_world s') =
            save_calls (st_world s)
            ++ (if epoch `mod` save_freq cfg =? 0 then [(epoch, IterStr "end")] else []))
      as Hend; [rename E into Hsave | clear E] end.
  { revert Hsave. destruct (epoch `mod` save_freq cfg =? 0); cbn [when]; intros Hsave.
    - run_inv Hsave.
      repeat match goal with E : gets _ _ = _ |- _ => injection E as <- <- end.
      save_inv Hsave Hcalls Hck.
      injection Hsave as Hw. subst. cbn. unfold save_calls.
      by rewrite Hcalls, omap_app.
    - injection Hsave as Hw. subst. by rewrite app_nil_r. }
  frame_all (@save_calls H) save_calls_tac.
  unfold due_indices. rewrite <- due_filter, app_assoc. congruence.
Qed.

(** *** What the "end" checkpoint holds *)

(** X9: when an epoch of training completes and [epoch % save_freq == 0], the
    file textsnake_<backbone>_<epoch>_end.pth of the experiment directory
    holds, after the call: the epoch index, the parameters and the optimizer
    state as the last batch left them, and the learning rate the epoch was
    trained with, that is the rate before the scheduler step that ends the
    epoch. *)
Theorem end_checkpoint_holds_the_epoch_just_trained train_loader epoch st :
  fst (train cfg train_loader epoch st) = Ok tt ->
  epoch `mod` save_freq cfg = 0 ->
  let st' := snd (train cfg train_loader epoch st) in
  ckpts (st_world st') !!
    path_join (experiment_dir cfg)
      ("textsnake_" +:+ backbone_name (st_model st) +:+ "_" +:+ pretty epoch
       +:+ "_end.pth")
  = Some {| ck_lr := [cur_lr (st_scheduler st)];
            ck_epoch := epoch;
            ck_model := params (st_model st');
            ck_optimizer := {| opt_lr := opt_lr (st_optimizer st);
                               opt_state := opt_state (st_optimizer st') |} |}.
Proof.
  destruct (train cfg train_loader epoch st) as [r st'] eqn:Hrun.
  cbn [fst snd]. intros -> Hdue. cbv zeta. unfold train in Hrun.
  do 5 (apply bind_inv_ok in Hrun; destruct Hrun as (? & ? & ? & Hrun)).
  apply bind_inv_ok in Hrun as (r & s6 & Hmod & Hrun).
  apply bind_inv_ok in Hrun as (u7 & s7 & Hsave & Hrun).
  apply bind_inv_ok in Hrun as (u8 & s8 & Hprint & Hrun).
  apply py_mod_inv_ok in Hmod as (_ & -> & ->).
  unfold step_scheduler, bind, modify, gets in Hrun. injection Hrun as <-.
  unfold liftW, print, modify in Hprint. injection Hprint as _ <-.
  rewrite Hdue in Hsave. cbn [Z.eqb when] in Hsave. run_inv Hsave.
  repeat match goal with E : gets _ _ = _ |- _ => injection E as <- <- end.
  save_inv Hsave Hcalls Hck.
  injection Hsave as Hs7. subst s7.
  frame_all_objs (fun st : State => (schedule st, backbone_name (st_model st))).
  match type of Hck with context [backbone_name (st_model ?s)] =>
    assert (schedule s = schedule st /\ backbone_name (st_model s) = backbone_name (st_model st))
      as [Hsched Hname] by (split; congruence) end.
  unfold schedule in Hsched. injection Hsched as Hs Hlr.
  cbn. cbn [label_str] in Hck.
  change ("_" +:+ "end" +:+ ".pth") with "_end.pth" in Hck.
  rewrite Hname in Hck. unfold experiment_dir. rewrite Hck.
  unfold get_lr. rewrite Hs. do 2 f_equal.
  match goal with |- ?o = _ => destruct o as [olr ost] end. cbn in *. by rewrite Hlr.
Qed.

(** *** When the whole run completes *)

Lemma validation_succeeds valid_loader epoch :
  display_freq cfg <> 0 -> (viz cfg = true -> viz_freq cfg <> 0) ->
  succeeds (ready cfg) (validation cfg valid_loader epoch).
Proof.
  intros Hdisplay Hviz. unfold validation. fold (experiment_dir cfg).
  assert (forall batches ms i,
            succeeds (ready cfg)
              (validation_loop cfg (experiment_dir cfg) epoch ms i batches)) as Hloop.
  { induction batches as [| batch rest IH]; intros ms i; cbn [validation_loop].
    - apply succeeds_ret.
    - apply succeeds_bind; [| intros; apply IH]. unfold validation_iter.
      succeeds_steps ltac:(first
        [ apply viz_due_succeeds; exact Hviz
        | apply succeeds_py_mod; assumption
        | apply succeeds_liftW_ready; succeeds_world ]). }
  succeeds_steps ltac:(first
    [ apply Hloop
    | apply succeeds_liftW_ready; succeeds_world
    | apply succeeds_objs_ready; intros ?; by split ]).
Qed.

Lemma main_epochs_succeeds trainset valset epochs :
  intervals_ok cfg -> mgpu cfg = false ->
  forall k, succeeds (ready cfg) (main_epochs cfg trainset valset k epochs).
Proof.
  intros Hcfg Hmgpu. pose proof Hcfg as (Hdisplay & _ & _ & _ & Hviz).
  induction epochs as [| epoch rest IH]; intros k; cbn [main_epochs].
  - apply succeeds_ret.
  - apply succeeds_bind; [by apply train_succeeds | intros _].
    apply succeeds_bind; [| intros _; apply IH].
    destruct valset as [v |]; [| apply succeeds_ret].
    apply succeeds_when. by apply validation_succeeds.
Qed.

(** Lines 194-218 with a known dataset name: both variables get bound. *)
Lemma dataset_selected w0 :
  dataset_known cfg ->
  exists valset cs,
    (if String.eqb (dataset cfg) "total-text" then
       call (New "TotalText") ;; call (New "TotalText") ;;
       ret (Some (TotalText true), Some (Some (TotalText false)))
     else if String.eqb (dataset cfg) "synth-text" then
       call (New "SynthText") ;; ret (Some SynthText, Some None)
     else ret (None, None)) w0
    = (Ok (Some (trainset_of cfg), Some valset), set_calls (fun c => c ++ cs) w0)
    /\ Forall (fun c => c <> New "TextLoss" /\ c <> New "Adam"
                        /\ forall epoch, c <> CallTrain epoch) cs.
Proof.
  unfold trainset_of. intros [-> | ->]; cbn [String.eqb Ascii.eqb Bool.eqb].
  - eexists _, [New "TotalText"; New "TotalText"]. split.
    + unfold bind, call, modify, ret, set_calls. cbn. by rewrite <- app_assoc.
    + by repeat constructor.
  - eexists _, [New "SynthText"]. split; [reflexivity |]. by repeat constructor.
Qed.

(** The setup goes through with a known dataset whose training split is not
    empty and a usable resume path; it touches no directory, no checkpoint
    and no file, leaves the step counter alone, and wraps the network exactly
    when [cfg.mgpu] is on. *)
Lemma main_setup_completes w0 :
  dataset_known cfg -> trainset_nonempty cfg -> resume_ok cfg w0 ->
  exists model optimizer scheduler trainset valset w,
    main_setup cfg w0 = (Ok (model, optimizer, scheduler, trainset, valset), w)
    /\ data_parallel model = mgpu cfg
    /\ dirs w = dirs w0 /\ ckpts w = ckpts w0 /\ files w = files w0
    /\ train_step w = train_step w0.
Proof.
  intros Hds Hlen Hres. unfold main_setup, resume_ok, trainset_nonempty in *.
  destruct (dataset_selected w0 Hds) as (valset & cs & Esets & _).
  rewrite (bind_run_ok _ _ _ _ _ Esets). clear Esets. cbn [fst snd].
  run_steps. apply Nat.eqb_neq in Hlen. rewrite Hlen. cbn [when]. run_steps.
  destruct (truthy valset); cbn [when]; run_steps;
    destruct (mgpu cfg); cbn [when]; run_steps;
    (destruct (resume cfg) as [path |];
     [ destruct (String.eqb path "") eqn:Epath;
       [| destruct Hres as [-> | (Hmgpu & Hdir & ck & Hck & Hfit)];
          [discriminate
          | first [discriminate
                  | erewrite bind_run_ok; [cbn beta | by apply load_model_ok]]] ] |]);
    run_steps;
    destruct (String.eqb (dataset cfg) "synth-text");
    run_steps;
    eexists _, _, _, _, _, _; (split; [reflexivity |]); cbn; done.
Qed.

(** X10: [main] runs to completion when the dataset name is one of
    'total-text' and 'synth-text' and its training split is not empty,
    [cfg.mgpu] is off, [cfg.resume] is unset, empty or the path of an
    existing checkpoint that fits the network, none of the intervals is zero
    (viz_freq counting only when visualisation is on) and the experiment
    directory exists. *)
Theorem main_completes w0 :
  dataset_known cfg -> trainset_nonempty cfg -> mgpu cfg = false ->
  resume_ok cfg w0 -> intervals_ok cfg -> experiment_dir cfg ∈ dirs w0 ->
  fst (main cfg w0) = Ok tt.
Proof.
  intros Hds Hlen Hmgpu Hres Hcfg Hdir. unfold main.
  destruct (main_setup_completes w0 Hds Hlen Hres)
    as (model & optimizer & scheduler & trainset & valset & w & -> & Hbare & Hdirs & _).
  match goal with |- context [main_run ?c ?t ?v ?s] =>
    destruct (main_run c t v s) as [r st'] eqn:Hrun end.
  cbn [fst].
  assert (succeeds (ready cfg) (main_run cfg trainset valset)) as Hs.
  { unfold main_run.
    succeeds_steps ltac:(first
      [ apply main_epochs_succeeds; [exact Hcfg | exact Hmgpu]
      | apply succeeds_liftW_ready; succeeds_world ]). }
  destruct (Hs _ _ _ Hrun) as [[[] ->] _]; [| done].
  split; cbn; [by rewrite Hdirs | by rewrite Hbare].
Qed.

(** *** A resume path that does not exist *)


(** *** The order of the passes in a run *)

Ltac epoch_calls_tac :=
  unfold epoch_calls; cbn; rewrite ?List.filter_app; cbn;
  rewrite ?app_nil_r; reflexivity.

Lemma train_epoch_calls train_loader epoch st :
  epoch_calls (st_world (snd (train cfg train_loader epoch st)))
  = epoch_calls (st_world st) ++ [CallTrain epoch].
Proof.
  destruct (train cfg train_loader epoch st) as [r st'] eqn:Hrun. cbn [snd].
  unfold train, step_scheduler in Hrun.
  change (bind (liftW (call ?c)) ?k st)
    with (k tt (set_world (set_calls (fun cs => cs ++ [c]) (st_world st)) st)) in Hrun.
  cbn beta in Hrun.
  frame_eq (@epoch_calls H) epoch_calls_tac Hrun.
  rewrite Hrun. unfold epoch_calls. cbn. by rewrite List.filter_app.
Qed.

Lemma validation_epoch_calls valid_loader epoch st :
  epoch_calls (st_world (snd (validation cfg valid_loader epoch st)))
  = epoch_calls (st_world st) ++ [CallValidation epoch].
Proof.
  destruct (validation cfg valid_loader epoch st) as [r st'] eqn:Hrun. cbn [snd].
  unfold validation in Hrun.
  change (bind (liftW (call ?c)) ?k st)
    with (k tt (set_world (set_calls (fun cs => cs ++ [c]) (st_world st)) st)) in Hrun.
  cbn beta in Hrun.
  frame_eq (@epoch_calls H) epoch_calls_tac Hrun.
  rewrite Hrun. unfold epoch_calls. cbn. by rewrite List.filter_app.
Qed.

Lemma main_epochs_calls trainset valset epochs :
  forall k st st',
    main_epochs cfg trainset valset k epochs st = (Ok tt, st') ->
    epoch_calls (st_world st')
    = epoch_calls (st_world st)
      ++ flat_map (fun epoch =>
                     CallTrain epoch
                     :: (if truthy valset then [CallValidation epoch] else []))
           epochs.
Proof.
  induction epochs as [| epoch rest IH]; intros k st st' Hrun; cbn [main_epochs] in Hrun.
  - injection Hrun as <-. cbn. by rewrite app_nil_r.
  - apply bind_inv_ok in Hrun as (? & st1 & Htrain & Hrun).
    apply bind_inv_ok in Hrun as (? & st2 & Hval & Hrun).
    apply IH in Hrun. rewrite Hrun. clear Hrun IH.
    pose proof (train_epoch_calls (ds_batches trainset k) epoch st) as Ht.
    rewrite Htrain in Ht. cbn [snd] in Ht.
    cbn [flat_map].
    destruct valset as [v |]; cbn [truthy] in *.
    + destruct (negb (ds_len v =? 0)%nat); cbn [when] in Hval.
      * pose proof (validation_epoch_calls (ds_batches v k) epoch st1) as Hv.
        rewrite Hval in Hv. cbn [snd] in Hv.
        rewrite Hv, Ht. cbn. by rewrite <- ?app_assoc.
      * injection Hval as _ <-. rewrite Ht. cbn. by rewrite <- ?app_assoc.
    + injection Hval as _ <-. rewrite Ht. cbn. by rewrite <- ?app_assoc.
Qed.

(** The validation set the setup hands to the epoch loop is usable exactly
    when [validates] holds. *)
Lemma main_setup_valset w model optimizer scheduler trainset valset w' :
  main_setup cfg w = (Ok (model, optimizer, scheduler, trainset, valset), w') ->
  truthy valset = validates cfg.
Proof.
  intros Hrun. unfold main_setup in Hrun.
  run_inv Hrun. injection Hrun as _ _ _ _ <-.
  unfold validates.
  destruct (String.eqb (dataset cfg) "total-text").
  - repeat match goal with
           | E : (call _ ;; _) _ = _ |- _ => run_inv E
           | E : ret (Some _, _) _ = _ |- _ => injection E as <- <-
           end.
    cbn in *.
    match goal with E : ret _ _ = (Ok ?v, _) |- _ => injection E as <- <- end.
    unfold truthy, TotalText. cbn [ds_len andb].
    destruct (TotalText_len false =? 0)%nat eqn:Elen; cbn; by rewrite ?Elen.
  - destruct (String.eqb (dataset cfg) "synth-text").
    + repeat match goal with
             | E : (call _ ;; _) _ = _ |- _ => run_inv E
             | E : ret (Some _, _) _ = _ |- _ => injection E as <- <-
             end.
      cbn in *.
      match goal with E : ret _ _ = (Ok ?v, _) |- _ => by injection E as <- <- end.
    + match goal with E : ret (None, None) _ = _ |- _ => injection E as <- <- end.
      cbn in *. discriminate.
Qed.

(** X12: a run of [main] that completes has gone through the epochs
    [start_epoch], ..., [max_epoch - 1] in ascending order, each one once:
    [train] on the epoch, followed by [validation] on the same epoch when
    the dataset is 'total-text' and its validation split is not empty, and
    by nothing otherwise.  No other call to [train] or [validation] is
    made. *)
Theorem main_trains_then_validates_each_epoch w0 :
  fst (main cfg w0) = Ok tt ->
  epoch_calls (final_world (snd (main cfg w0)))
  = epoch_calls w0
    ++ flat_map (fun epoch =>
                   CallTrain epoch
                   :: (if validates cfg then [CallValidation epoch] else []))
         (seqZ (start_epoch cfg) (max_epoch cfg - start_epoch cfg)).
Proof.
  intros Hok. apply main_ok_ran in Hok as [st Hmain]. rewrite Hmain. cbn [snd final_world].
  apply main_inv_ok in Hmain
    as (model & optimizer & scheduler & trainset & valset & w & Hsetup & Hrun).
  rewrite <- (main_setup_valset _ _ _ _ _ _ _ Hsetup).
  assert (respects (same epoch_calls) (main_setup cfg)) as Hframe
    by (unfold main_setup; frame_world epoch_calls_tac).
  apply Hframe in Hsetup. unfold same in Hsetup. rewrite <- Hsetup.
  unfold main_run in Hrun.
  apply bind_inv_ok in Hrun as (? & st1 & Hstart & Hrun).
  apply bind_inv_ok in Hrun as (? & st2 & Hloop & Hend).
  destruct x0.
  apply main_epochs_calls in Hloop.
  unfold liftW, print, modify in Hstart, Hend.
  injection Hstart as _ <-. injection Hend as <-. exact Hloop.
Qed.

(** *** The rate shown on the console *)

Ltac epoch_lines_tac :=
  unfold epoch_lines; cbn; rewrite ?omap_app; cbn; rewrite ?app_nil_r; reflexivity.

Lemma train_epoch_lines train_loader epoch st :
  let w' := st_world (snd (train cfg train_loader epoch st)) in
  epoch_lines w' = epoch_lines (st_world st) ++ [(epoch, lr (st_world st))]
  /\ lr w' = lr (st_world st).
Proof.
  destruct (train cfg train_loader epoch st) as [r st'] eqn:Hrun. cbn [snd].
  unfold train, step_scheduler in Hrun.
  change (bind (liftW (call ?c)) ?k st)
    with (k tt (set_world (set_calls (fun cs => cs ++ [c]) (st_world st)) st)) in Hrun.
  cbn beta in Hrun.
  match type of Hrun with bind (modify ?f) ?k ?s = _ =>
    change (bind (modify f) k s) with (k tt (f s)) in Hrun end.
  cbn beta in Hrun.
  match type of Hrun with bind (gets ?f) ?k ?s = _ =>
    change (bind (gets f) k s) with (k (f s) s) in Hrun end.
  cbn beta in Hrun.
  match type of Hrun with bind (liftW (print ?l)) ?k ?s = _ =>
    change (bind (liftW (print l)) k s)
      with (k tt (set_world (set_console (fun c => c ++ [l]) (st_world s)) s)) in Hrun end.
  cbn beta in Hrun.
  pose proof Hrun as Hrun2.
  frame_eq (@epoch_lines H) epoch_lines_tac Hrun.
  frame_eq (@lr H) ltac:(reflexivity) Hrun2.
  split; [| exact Hrun2].
  rewrite Hrun. unfold epoch_lines. cbn. by rewrite omap_app.
Qed.

Lemma validation_epoch_lines valid_loader epoch st :
  let w' := st_world (snd (validation cfg valid_loader epoch st)) in
  epoch_lines w' = epoch_lines (st_world st) /\ lr w' = lr (st_world st).
Proof.
  destruct (validation cfg valid_loader epoch st) as [r st'] eqn:Hrun. cbn.
  pose proof Hrun as Hrun2.
  frame_eq (@epoch_lines H) epoch_lines_tac Hrun.
  frame_eq (@lr H) ltac:(reflexivity) Hrun2.
  done.
Qed.

Lemma main_epochs_lines trainset valset epochs :
  forall k st st',
    main_epochs cfg trainset valset k epochs st = (Ok tt, st') ->
    epoch_lines (st_world st')
    = epoch_lines (st_world st) ++ map (fun epoch => (epoch, lr (st_world st))) epochs
    /\ lr (st_world st') = lr (st_world st).
Proof.
  induction epochs as [| epoch rest IH]; intros k st st' Hrun; cbn [main_epochs] in Hrun.
  - injection Hrun as <-. cbn. by rewrite app_nil_r.
  - apply bind_inv_ok in Hrun as (? & st1 & Htrain & Hrun).
    apply bind_inv_ok in Hrun as (? & st2 & Hval & Hrun).
    apply IH in Hrun as [Hlines Hlr]. clear IH.
    pose proof (train_epoch_lines (ds_batches trainset k) epoch st) as Ht.
    rewrite Htrain in Ht. cbn [snd] in Ht. destruct Ht as [Ht Htlr].
    assert (epoch_lines (st_world st2) = epoch_lines (st_world st1)
            /\ lr (st_world st2) = lr (st_world st1)) as [Hv Hvlr].
    { destruct valset as [v |]; [destruct (truthy (Some v)) |]; cbn [when] in Hval.
      - pose proof (validation_epoch_lines (ds_batches v k) epoch st1) as Hv.
        by rewrite Hval in Hv.
      - by injection Hval as _ <-.
      - by injection Hval as _ <-. }
    rewrite Hlines, Hlr, Hv, Hvlr, Ht, Htlr. cbn [map].
    by rewrite <- app_assoc.
Qed.

(** The setup prints no 'Epoch' line and leaves the global [lr] at
    [cfg.lr]. *)
Lemma main_setup_lr w objs w' :
  main_setup cfg w = (Ok objs, w') ->
  epoch_lines w' = epoch_lines w /\ lr w' = Some (cfg_lr cfg).
Proof.
  intros Hrun. split.
  - assert (respects (same epoch_lines) (main_setup cfg)) as Hframe
      by (unfold main_setup; frame_world epoch_lines_tac).
    by apply Hframe in Hrun.
  - unfold main_setup in Hrun. run_inv Hrun. injection Hrun as _ <-.
    match goal with
    | Hlr : modify (set_lr _) _ = (Ok _, ?s1),
      Hadam : call (New "Adam") ?s1 = (Ok _, ?s2),
      Hsched : (if _ then _ else _) ?s2 = (Ok _, ?s3) |- lr ?s3 = _ =>
        assert (lr s3 = lr s2) as ->
          by (destruct (String.eqb (dataset cfg) "synth-text"); run_inv Hsched;
              injection Hsched as _ <-;
              match goal with E : call _ _ = _ |- _ =>
                unfold call, modify in E; by injection E as _ <- end);
        unfold call, modify in Hadam, Hlr;
        injection Hadam as _ <-; by injection Hlr as _ <-
    end.
Qed.

(** X13: the 'Epoch: e : LR = ...' line that opens every epoch shows the
    global [lr], which [main] sets to [cfg.lr] once and nothing updates: in a
    run that completes, every epoch from [start_epoch] to [max_epoch - 1]
    prints one such line, in order, and each of them shows [cfg.lr], whatever
    the scheduler has made of the optimizer's rate by then. *)
Theorem epoch_lines_show_the_configured_rate w0 :
  fst (main cfg w0) = Ok tt ->
  epoch_lines (final_world (snd (main cfg w0)))
  = epoch_lines w0
    ++ map (fun epoch => (epoch, Some (cfg_lr cfg)))
         (seqZ (start_epoch cfg) (max_epoch cfg - start_epoch cfg)).
Proof.
  intros Hok. apply main_ok_ran in Hok as [st Hmain]. rewrite Hmain. cbn [snd final_world].
  apply main_inv_ok in Hmain
    as (model & optimizer & scheduler & trainset & valset & w & Hsetup & Hrun).
  apply main_setup_lr in Hsetup as [<- <-].
  unfold main_run in Hrun.
  apply bind_inv_ok in Hrun as (? & st1 & Hstart & Hrun).
  apply bind_inv_ok in Hrun as (? & st2 & Hloop & Hend).
  destruct x0.
  apply main_epochs_lines in Hloop as [Hloop _].
  unfold liftW, print, modify in Hstart, Hend.
  injection Hstart as _ <-. injection Hend as <-.
  unfold epoch_lines in *. cbn in *. rewrite omap_app in *. cbn in *.
  rewrite !app_nil_r in *. exact Hloop.
Qed.

(** *** A run with no epoch left *)

(** X14: when [max_epoch <= start_epoch] the range of line 251 is empty: with
    a known dataset whose training split is not empty and a usable resume
    path, [main] builds its objects, prints the two banner lines and
    completes, whatever the intervals, whether or not the experiment
    directory exists, and also with [cfg.mgpu] on when there is nothing to
    resume from.  It trains nothing: no checkpoint and no log file is
    written, the global step counter stands still and the optimizer still
    has the rate [cfg.lr]. *)
Theorem main_with_no_epoch_left w0 :
  max_epoch cfg <= start_epoch cfg ->
  dataset_known cfg -> trainset_nonempty cfg -> resume_ok cfg w0 ->
  fst (main cfg w0) = Ok tt
  /\ ckpts (final_world (snd (main cfg w0))) = ckpts w0
  /\ files (final_world (snd (main cfg w0))) = files w0
  /\ train_step (final_world (snd (main cfg w0))) = train_step w0
  /\ epoch_calls (final_world (snd (main cfg w0))) = epoch_calls w0
  /\ final_lr (snd (main cfg w0)) = Some (cfg_lr cfg).
Proof.
  intros Hrange Hds Hlen Hres.
  destruct (main_setup_completes w0 Hds Hlen Hres)
    as (model & optimizer & scheduler & trainset & valset & w & Hsetup
        & _ & _ & Hc & Hf & Hs).
  pose proof (main_setup_objects _ _ _ _ _ _ _ Hsetup) as [Hlr _].
  assert (respects (same epoch_calls) (main_setup cfg)) as Hcalls
    by (unfold main_setup; frame_world epoch_calls_tac).
  apply Hcalls in Hsetup as He. unfold same in He.
  unfold main, main_run. rewrite Hsetup.
  rewrite seqZ_nil by lia. cbn.
  by rewrite Hc, Hf, Hs, Hlr.
Qed.

(** *** Multi-GPU runs *)

(** With [cfg.mgpu] on, [save_model] never gets as far as [torch.save]: a
    wrapped network has no [backbone_name], a bare one no [module]. *)
Lemma save_model_mgpu model epoch lr optimzer _iter w :
  mgpu cfg = true ->
  (exists attr,
     fst (save_model cfg model epoch lr optimzer _iter w) = Raise (AttributeError attr))
  /\ ckpts (snd (save_model cfg model epoch lr optimzer _iter w)) = ckpts w.
Proof.
  intros Hmgpu.
  unfold save_model, get_backbone_name, get_module, bind, call, path_exists, when,
    mkdirs, print, torch_save, modify, gets, ret, raise.
  rewrite Hmgpu. cbn. destruct (bool_decide _), (data_parallel model); cbn; eauto.
Qed.

(** X15: with [cfg.mgpu] on, every call to [save_model] raises
    [AttributeError], whatever the model, so neither an epoch of training nor
    a whole run of [main] ever writes a checkpoint, however it ends. *)
Theorem no_checkpoint_with_mgpu :
  mgpu cfg = true ->
  (forall model epoch lr optimzer _iter w,
     exists attr,
       fst (save_model cfg model epoch lr optimzer _iter w)
       = Raise (AttributeError attr))
  /\ (forall train_loader epoch st,
        ckpts (st_world (snd (train cfg train_loader epoch st))) = ckpts (st_world st))
  /\ (forall w0, ckpts (final_world (snd (main cfg w0))) = ckpts w0).
Proof.
  intros Hmgpu.
  assert (forall model epoch lr optimzer _iter,
            respects (same (@ckpts H)) (save_model cfg model epoch lr optimzer _iter))
    as Hsave.
  { intros model epoch lr optimzer _iter w r w' Hrun. unfold same.
    pose proof (save_model_mgpu model epoch lr optimzer _iter w Hmgpu) as [_ Hck].
    by rewrite Hrun in Hck. }
  assert (forall train_loader epoch,
            respects (onW (same (@ckpts H))) (train cfg train_loader epoch)) as Htrain.
  { intros train_loader epoch. unfold train, step_scheduler.
    respects_steps ltac:(first
      [ apply viz_due_respects
      | apply optimizer_step_onW
      | apply train_loop_respects;
        [solve [typeclasses eauto] | intros; unfold train_iter]
      | apply respects_liftW_onW;
        first [apply Hsave | frame_world ltac:(reflexivity)]
      | apply respects_modify; intros ?; reflexivity ]). }
  assert (forall valid_loader epoch,
            respects (onW (same (@ckpts H))) (validation cfg valid_loader epoch)) as Hval
    by (intros; unfold validation; frame_state ltac:(reflexivity)).
  split; [| split].
  - intros model epoch lr optimzer _iter w.
    exact (proj1 (save_model_mgpu model epoch lr optimzer _iter w Hmgpu)).
  - intros train_loader epoch st.
    destruct (train cfg train_loader epoch st) as [r st'] eqn:Hrun.
    by apply Htrain in Hrun.
  - intros w0. unfold main.
    assert (respects (same (@ckpts H)) (main_setup cfg)) as Hsetup
      by (unfold main_setup; frame_world ltac:(reflexivity)).
    destruct (main_setup cfg w0)
      as [[[[[[model optimizer] scheduler] trainset] valset] | e] w] eqn:E;
      apply Hsetup in E; unfold same in E; [| exact E].
    match goal with |- context [main_run ?c ?t ?v ?st] =>
      destruct (main_run c t v st) as [r st'] eqn:Erun end.
    cbn. rewrite <- E.
    assert (respects (onW (same (@ckpts H))) (main_run cfg trainset valset)) as Hrun.
    { unfold main_run.
      assert (forall epochs k,
                respects (onW (same (@ckpts H)))
                  (main_epochs cfg trainset valset k epochs)) as Hepochs.
      { induction epochs as [| epoch rest IH]; intros k; cbn [main_epochs].
        - apply respects_ret; apply _.
        - respects_steps ltac:(first [apply Htrain | apply Hval | apply IH]). }
      respects_steps ltac:(first
        [ apply Hepochs
        | apply respects_liftW_onW; frame_world ltac:(reflexivity) ]). }
    apply Hrun in Erun. exact Erun.
Qed.
End Script.

(** ** The script on concrete inputs *)

(** C1, as stated, fails: loading the checkpoint of [toy_saved_world] into
    [toy_model], whose parameter is 0, yields a model whose parameter is 7;
    the live model has been mutated, and what comes back is that model, not
    the saved record. *)
Lemma load_model_mutates_the_model :
  fst (load_model toy_model "save/exp/textsnake_vgg_3_end.pth" toy_saved_world)
  = Ok (load_state_dict toy_model 7)
  /\ params (load_state_dict toy_model 7) <> params toy_model.
Proof. split; [reflexivity | discriminate]. Qed.

(** C2, as stated, fails.  In a run over the epochs 0..99 the rate after
    epoch 99 is a tenth of the initial one, not [initial_lr * 0.1^floor(99/100)];
    in a run that starts at epoch 100 the rate before and after epoch 100 is
    the initial one, not [initial_lr * 0.1^floor(100/100)]. *)
Lemma step_decay_counts_from_the_start_of_the_run :
  (let r := main (with_epochs 0 100 toy_cfg) toy_world in
   fst r = Ok tt
   /\ (this <$> final_lr (snd r)) = Some (1 # 10000)%Q
   /\ final_lr (snd r) <> Some (decayed (cfg_lr toy_cfg) 99))
  /\ (let r := main (with_epochs 100 101 toy_cfg) toy_world in
      fst r = Ok tt
      /\ (this <$> final_lr (snd r)) = Some (1 # 1000)%Q
      /\ final_lr (snd r) <> Some (decayed (cfg_lr toy_cfg) 100)).
Proof.
  assert (forall (o : option Qc) (q : Q) (b : Qc),
            (this <$> o) = Some q -> this b <> q -> o <> Some b) as Hne.
  { intros o q b Ho Hb ->. cbn in Ho. injection Ho as Ho. by apply Hb. }
  split.
  - assert (let r := main (with_epochs 0 100 toy_cfg) toy_world in
            (fst r, this <$> final_lr (snd r)) = (Ok tt, Some (1 # 10000)%Q)) as E
      by (vm_compute; reflexivity).
    intros r. fold r in E. cbv zeta in E.
    apply pair_equal_spec in E. destruct E as [E1 E2].
    split; [exact E1 | split; [exact E2 |]].
    eapply Hne; [exact E2 | vm_compute; discriminate].
  - assert (let r := main (with_epochs 100 101 toy_cfg) toy_world in
            (fst r, this <$> final_lr (snd r)) = (Ok tt, Some (1 # 1000)%Q)) as E
      by (vm_compute; reflexivity).
    intros r. fold r in E. cbv zeta in E.
    apply pair_equal_spec in E. destruct E as [E1 E2].
    split; [exact E1 | split; [exact E2 |]].
    eapply Hne; [exact E2 | vm_compute; discriminate].
Qed.


(** The formatter of the instance on a few values. *)
Example fmt_4f_values :
  fmt_4f_Qc (Q2Qc (1 # 3)) = "0.3333"
  /\ fmt_4f_Qc (Q2Qc (-5 # 2)) = "-2.5000"
  /\ fmt_4f_Qc (Q2Qc (12345 # 100000)) = "0.1234"
  /\ fmt_4f_Qc (Q2Qc (99999 # 100000)) = "1.0000".
Proof. repeat split; vm_compute; reflexivity. Qed.

(** The combined-loss log after one epoch of training followed by one
    validation pass: two training records, for the iterations 0 and 2, then
    one validation record. *)
Example loss_log_after_one_epoch :
  let st := snd (train toy_cfg [1; 2; 3; 4] 0 toy_state) in
  content (st_world (snd (validation toy_cfg [5; 6] 0 st))) "save/exp/loss_result.txt"
  = "0_0_5.0000" +:+ newline +:+ "0_2_5.0000" +:+ newline
    +:+ "0_validation_5.0000" +:+ newline.
Proof. vm_compute. reflexivity. Qed.

(** *** The theorems at work on concrete runs *)

(** The checkpoint of [toy_saved_world] is found and loaded into [toy_model]. *)
Lemma load_model_restores_witness :
  ("save/exp/textsnake_vgg_3_end.pth" ∉ dirs toy_saved_world)
  /\ ckpts toy_saved_world !! "save/exp/textsnake_vgg_3_end.pth" = Some toy_checkpoint
  /\ data_parallel toy_model = false
  /\ loadable (params toy_model) (ck_model toy_checkpoint) = true
  /\ exists w',
       load_model toy_model "save/exp/textsnake_vgg_3_end.pth" toy_saved_world
       = (Ok (load_state_dict toy_model (ck_model toy_checkpoint)), w')
       /\ ckpts w' = ckpts toy_saved_world
       /\ files w' = files toy_saved_world
       /\ dirs w' = dirs toy_saved_world.
Proof.
  assert ("save/exp/textsnake_vgg_3_end.pth" ∉ dirs toy_saved_world) as Hdir
    by (apply not_elem_of_singleton; discriminate).
  assert (ckpts toy_saved_world !! "save/exp/textsnake_vgg_3_end.pth"
          = Some toy_checkpoint) as Hck by reflexivity.
  split; [exact Hdir | split; [exact Hck | split; [reflexivity | split; [reflexivity |]]]].
  exact (proj1 (load_model_restores_the_model_only toy_cfg) toy_model _ _ _
           Hdir Hck eq_refl eq_refl).
Defined.

(** Two epochs on 'total-text': two scheduler steps, no decay yet. *)
Lemma schedule_witness :
  fst (main toy_cfg toy_world) = Ok tt
  /\ final_steps (snd (main toy_cfg toy_world))
     = Some (Z.max 0 (max_epoch toy_cfg - start_epoch toy_cfg))
  /\ final_lr (snd (main toy_cfg toy_world))
     = Some (if String.eqb (dataset toy_cfg) "synth-text" then cfg_lr toy_cfg
             else decayed (cfg_lr toy_cfg)
                    (Z.max 0 (max_epoch toy_cfg - start_epoch toy_cfg)))
  /\ final_learnt (snd (main toy_cfg toy_world))
     = Some (epochs_at
               (fun k => if String.eqb (dataset toy_cfg) "synth-text" then cfg_lr toy_cfg
                         else decayed (cfg_lr toy_cfg) k)
               (trainset_of toy_cfg) 0
               (Z.to_nat (Z.max 0 (max_epoch toy_cfg - start_epoch toy_cfg)))
               (start_params toy_cfg toy_world, Adam_init)).
Proof.
  assert (fst (main toy_cfg toy_world) = Ok tt) as Hok by (vm_compute; reflexivity).
  split; [exact Hok |].
  exact (proj2 (schedule_counts_epochs_of_the_run toy_cfg) toy_world Hok).
Defined.

(** Two epochs on 'synth-text': no call to [validation]. *)
Lemma synth_text_witness :
  dataset (with_dataset "synth-text" toy_cfg) = "synth-text"
  /\ validation_calls
       (final_world (snd (main (with_dataset "synth-text" toy_cfg) toy_world)))
     = validation_calls toy_world.
Proof.
  split; [reflexivity |].
  exact (synth_text_never_validates (with_dataset "synth-text" toy_cfg) toy_world eq_refl).
Defined.

(** Epoch 0 writes the "end" checkpoint, epoch 3 does not. *)
Lemma end_checkpoint_witness :
  save_freq toy_cfg = 5
  /\ fst (train toy_cfg [1; 2; 3; 4] 0 toy_state) = Ok tt
  /\ fst (train toy_cfg [1; 2; 3; 4] 3 toy_state) = Ok tt
  /\ end_saves (st_world (snd (train toy_cfg [1; 2; 3; 4] 0 toy_state))) =
       end_saves (st_world toy_state) ++ [0]
  /\ end_saves (st_world (snd (train toy_cfg [1; 2; 3; 4] 3 toy_state))) =
       end_saves (st_world toy_state) ++ []
  /\ is_Some
       (ckpts (st_world (snd (train toy_cfg [1; 2; 3; 4] 0 toy_state))) !!
          path_join (path_join (save_dir toy_cfg) (exp_name toy_cfg))
            ("textsnake_" +:+ backbone_name (st_model toy_state) +:+ "_" +:+ pretty 0
             +:+ "_end.pth")).
Proof.
  assert (fst (train toy_cfg [1; 2; 3; 4] 0 toy_state) = Ok tt) as H0
    by (vm_compute; reflexivity).
  assert (fst (train toy_cfg [1; 2; 3; 4] 3 toy_state) = Ok tt) as H3
    by (vm_compute; reflexivity).
  split; [reflexivity | split; [exact H0 | split; [exact H3 | split; [| split]]]].
  - exact (proj1 (end_checkpoint_every_fifth_epoch toy_cfg [1; 2; 3; 4] 0 toy_state
                    eq_refl H0)).
  - exact (proj1 (end_checkpoint_every_fifth_epoch toy_cfg [1; 2; 3; 4] 3 toy_state
                    eq_refl H3)).
  - exact (proj2 (end_checkpoint_every_fifth_epoch toy_cfg [1; 2; 3; 4] 0 toy_state
                    eq_refl H0) eq_refl).
Defined.


(** Four batches, [display_freq = 2]: progress lines for 0 and 2. *)
Lemma progress_lines_witness :
  display_freq toy_cfg = 2
  /\ fst (train toy_cfg [1; 2; 3; 4] 0 toy_state) = Ok tt
  /\ progress_iters (st_world (snd (train toy_cfg [1; 2; 3; 4] 0 toy_state)))
     = progress_iters (st_world toy_state) ++ [0; 2].
Proof.
  assert (fst (train toy_cfg [1; 2; 3; 4] 0 toy_state) = Ok tt) as Hok
    by (vm_compute; reflexivity).
  split; [reflexivity | split; [exact Hok |]].
  exact (four_batches_two_progress_lines toy_cfg 1 2 3 4 0 toy_state eq_refl Hok).
Defined.

(** An epoch of four batches leaves [train_step] larger by four. *)
Lemma train_step_witness :
  fst (train toy_cfg [1; 2; 3; 4] 0 toy_state) = Ok tt
  /\ train_step (st_world (snd (train toy_cfg [1; 2; 3; 4] 0 toy_state)))
     = train_step (st_world toy_state) + Z.of_nat (length [1; 2; 3; 4]).
Proof.
  assert (fst (train toy_cfg [1; 2; 3; 4] 0 toy_state) = Ok tt) as Hok
    by (vm_compute; reflexivity).
  split; [exact Hok |].
  exact (proj1 (proj2 (train_step_strictly_increasing toy_cfg))
           [1; 2; 3; 4] 0 toy_state Hok).
Defined.

(** A dataset name the script does not know. *)
Lemma unknown_dataset_witness :
  dataset (with_dataset "icdar" toy_cfg) <> "total-text"
  /\ dataset (with_dataset "icdar" toy_cfg) <> "synth-text"
  /\ main (with_dataset "icdar" toy_cfg) toy_world
     = (Raise (UnboundLocalError "trainset"), Aborted toy_world).
Proof.
  assert (dataset (with_dataset "icdar" toy_cfg) <> "total-text") as H1 by discriminate.
  assert (dataset (with_dataset "icdar" toy_cfg) <> "synth-text") as H2 by discriminate.
  split; [exact H1 | split; [exact H2 |]].
  exact (unknown_dataset_aborts (with_dataset "icdar" toy_cfg) toy_world H1 H2).
Defined.

(** *** The further properties at work on concrete runs *)

(** With the experiment directory missing the first iteration fails to open
    its log file, and the schedule stands still. *)
Lemma train_that_raises_witness :
  fst (train toy_cfg [1; 2; 3; 4] 0 toy_bare_state)
  = Raise (FileNotFoundError "save/exp/tr_loss_result.txt")
  /\ st_scheduler (snd (train toy_cfg [1; 2; 3; 4] 0 toy_bare_state))
     = st_scheduler toy_bare_state
  /\ opt_lr (st_optimizer (snd (train toy_cfg [1; 2; 3; 4] 0 toy_bare_state)))
     = opt_lr (st_optimizer toy_bare_state).
Proof.
  assert (fst (train toy_cfg [1; 2; 3; 4] 0 toy_bare_state)
          = Raise (FileNotFoundError "save/exp/tr_loss_result.txt")) as Hraise
    by (vm_compute; reflexivity).
  split; [exact Hraise |].
  exact (train_that_raises_keeps_the_schedule toy_cfg [1; 2; 3; 4] 0 toy_bare_state
           _ Hraise).
Defined.

(** A validation pass over two batches pushes the averages of the two. *)
Lemma validation_averages_witness :
  fst (validation toy_cfg [5; 6] 0 toy_state) = Ok tt
  /\ let ls := batch_losses (params (st_model toy_state)) [5; 6] in
     summary (st_world (snd (validation toy_cfg [5; 6] 0 toy_state)))
     = summary (st_world toy_state)
       ++ [{| sc_tag := "val"; sc_n_iter := 0;
              sc_loss := fst (averaged ls); sc_terms := snd (averaged ls) |}].
Proof.
  assert (fst (validation toy_cfg [5; 6] 0 toy_state) = Ok tt) as Hok
    by (vm_compute; reflexivity).
  split; [exact Hok |].
  exact (validation_pushes_the_epoch_averages toy_cfg [5; 6] 0 toy_state Hok).
Defined.

(** Four batches with [log_freq = 1]: four 'train' records. *)
Lemma train_scalars_witness :
  fst (train toy_cfg [1; 2; 3; 4] 0 toy_state) = Ok tt
  /\ train_steps (st_world (snd (train toy_cfg [1; 2; 3; 4] 0 toy_state)))
     = train_steps (st_world toy_state)
       ++ map (fun j => train_step (st_world toy_state) + j + 1)
            (due_indices (log_freq toy_cfg) (length [1; 2; 3; 4])).
Proof.
  assert (fst (train toy_cfg [1; 2; 3; 4] 0 toy_state) = Ok tt) as Hok
    by (vm_compute; reflexivity).
  split; [exact Hok |].
  exact (train_pushes_scalars_at_due_iterations toy_cfg [1; 2; 3; 4] 0 toy_state Hok).
Defined.

(** Four batches with [viz_save_iter = 3] in epoch 0: checkpoints at the
    iterations 0 and 3, then the "end" checkpoint. *)
Lemma train_saves_witness :
  fst (train toy_cfg [1; 2; 3; 4] 0 toy_state) = Ok tt
  /\ save_calls (st_world (snd (train toy_cfg [1; 2; 3; 4] 0 toy_state)))
     = save_calls (st_world toy_state)
       ++ map (fun j => (0, IterIdx j))
            (due_indices (viz_save_iter toy_cfg) (length [1; 2; 3; 4]))
       ++ (if 0 `mod` save_freq toy_cfg =? 0 then [(0, IterStr "end")] else []).
Proof.
  assert (fst (train toy_cfg [1; 2; 3; 4] 0 toy_state) = Ok tt) as Hok
    by (vm_compute; reflexivity).
  split; [exact Hok |].
  exact (train_saves_at_due_iterations_then_end toy_cfg [1; 2; 3; 4] 0 toy_state Hok).
Defined.

(** The "end" checkpoint of epoch 0 holds the parameters after the epoch and
    the rate from before the scheduler step. *)
Lemma end_checkpoint_content_witness :
  fst (train toy_cfg [1; 2; 3; 4] 0 toy_state) = Ok tt
  /\ 0 `mod` save_freq toy_cfg = 0
  /\ let st' := snd (train toy_cfg [1; 2; 3; 4] 0 toy_state) in
     ckpts (st_world st')
       !! path_join (experiment_dir toy_cfg)
            ("textsnake_" +:+ backbone_name (st_model toy_state) +:+ "_"
             +:+ pretty 0 +:+ "_end.pth")
     = Some {| ck_lr := [cur_lr (st_scheduler toy_state)];
               ck_epoch := 0;
               ck_model := params (st_model st');
               ck_optimizer :=
                 {| opt_lr := opt_lr (st_optimizer toy_state);
                    opt_state := opt_state (st_optimizer st') |} |}.
Proof.
  assert (fst (train toy_cfg [1; 2; 3; 4] 0 toy_state) = Ok tt) as Hok
    by (vm_compute; reflexivity).
  assert (0 `mod` save_freq toy_cfg = 0) as Hdue by reflexivity.
  split; [exact Hok | split; [exact Hdue |]].
  exact (end_checkpoint_holds_the_epoch_just_trained toy_cfg [1; 2; 3; 4] 0 toy_state
           Hok Hdue).
Defined.

(** The configuration [toy_cfg] over [toy_world] meets the conditions. *)
Lemma main_completes_witness :
  dataset_known toy_cfg /\ trainset_nonempty toy_cfg /\ mgpu toy_cfg = false
  /\ resume_ok toy_cfg toy_world /\ intervals_ok toy_cfg
  /\ experiment_dir toy_cfg ∈ dirs toy_world
  /\ fst (main toy_cfg toy_world) = Ok tt.
Proof.
  assert (dataset_known toy_cfg) as Hds by (left; reflexivity).
  assert (trainset_nonempty toy_cfg) as Hlen by discriminate.
  assert (mgpu toy_cfg = false) as Hmgpu by reflexivity.
  assert (resume_ok toy_cfg toy_world) as Hres by exact I.
  assert (intervals_ok toy_cfg) as Hint by (repeat split; discriminate).
  assert (experiment_dir toy_cfg ∈ dirs toy_world) as Hdir
    by (apply elem_of_singleton; reflexivity).
  repeat (split; [assumption |]).
  exact (main_completes toy_cfg toy_world Hds Hlen Hmgpu Hres Hint Hdir).
Defined.


(** Two epochs on 'total-text', whose validation split holds two samples. *)
Lemma epoch_order_witness :
  fst (main toy_cfg toy_world) = Ok tt
  /\ epoch_calls (final_world (snd (main toy_cfg toy_world)))
     = epoch_calls toy_world
       ++ flat_map (fun epoch =>
                      CallTrain epoch
                      :: (if validates toy_cfg then [CallValidation epoch] else []))
            (seqZ (start_epoch toy_cfg) (max_epoch toy_cfg - start_epoch toy_cfg)).
Proof.
  assert (fst (main toy_cfg toy_world) = Ok tt) as Hok by (vm_compute; reflexivity).
  split; [exact Hok |].
  exact (main_trains_then_validates_each_epoch toy_cfg toy_world Hok).
Defined.

(** Two epochs: two 'Epoch' lines, both with the rate of the configuration. *)
Lemma epoch_lines_witness :
  fst (main toy_cfg toy_world) = Ok tt
  /\ epoch_lines (final_world (snd (main toy_cfg toy_world)))
     = epoch_lines toy_world
       ++ map (fun epoch => (epoch, Some (cfg_lr toy_cfg)))
            (seqZ (start_epoch toy_cfg) (max_epoch toy_cfg - start_epoch toy_cfg)).
Proof.
  assert (fst (main toy_cfg toy_world) = Ok tt) as Hok by (vm_compute; reflexivity).
  split; [exact Hok |].
  exact (epoch_lines_show_the_configured_rate toy_cfg toy_world Hok).
Defined.

(** Epochs 3 to 2, over a file system without the experiment directory. *)
Lemma no_epoch_left_witness :
  max_epoch (with_epochs 3 3 toy_cfg) <= start_epoch (with_epochs 3 3 toy_cfg)
  /\ dataset_known (with_epochs 3 3 toy_cfg)
  /\ trainset_nonempty (with_epochs 3 3 toy_cfg)
  /\ resume_ok (with_epochs 3 3 toy_cfg) toy_bare_world
  /\ fst (main (with_epochs 3 3 toy_cfg) toy_bare_world) = Ok tt.
Proof.
  assert (max_epoch (with_epochs 3 3 toy_cfg) <= start_epoch (with_epochs 3 3 toy_cfg))
    as Hrange by (cbn; lia).
  assert (dataset_known (with_epochs 3 3 toy_cfg)) as Hds by (left; reflexivity).
  assert (trainset_nonempty (with_epochs 3 3 toy_cfg)) as Hlen by discriminate.
  assert (resume_ok (with_epochs 3 3 toy_cfg) toy_bare_world) as Hres by exact I.
  repeat (split; [assumption |]).
  exact (proj1 (main_with_no_epoch_left (with_epochs 3 3 toy_cfg) toy_bare_world
                  Hrange Hds Hlen Hres)).
Defined.

(** The intervals of [toy_cfg] are non-zero, [toy_world] has the experiment
    directory, [cfg.mgpu] is off and [toy_model] is a bare network: an epoch
    over four batches completes. *)
Lemma train_completes_witness :
  intervals_ok toy_cfg
  /\ experiment_dir toy_cfg ∈ dirs (st_world toy_state)
  /\ mgpu toy_cfg = false
  /\ data_parallel (st_model toy_state) = false
  /\ fst (train toy_cfg (1 :: [2; 3; 4]) 0 toy_state) = Ok tt.
Proof.
  assert (intervals_ok toy_cfg) as Hint by (repeat split; discriminate).
  assert (experiment_dir toy_cfg ∈ dirs (st_world toy_state)) as Hdir
    by (apply elem_of_singleton; reflexivity).
  repeat (split; [first [assumption | reflexivity] |]).
  exact (proj2 (train_completes_iff toy_cfg 1 [2; 3; 4] 0 toy_state)
           (conj Hint (conj Hdir (conj eq_refl eq_refl)))).
Defined.

(** Two epochs with [cfg.mgpu] on: no checkpoint appears. *)
Lemma no_checkpoint_with_mgpu_witness :
  mgpu (with_mgpu true toy_cfg) = true
  /\ ckpts (final_world (snd (main (with_mgpu true toy_cfg) toy_world)))
     = ckpts toy_world.
Proof.
  split; [reflexivity |].
  exact (proj2 (proj2 (no_checkpoint_with_mgpu (with_mgpu true toy_cfg) eq_refl))
           toy_world).
Defined.
